(** * simple-timer: the countdown component of [src/main.jsx]

    A shallow embedding of the [Timer] React component: its [useState]
    cells, its two refs, the browser's table of active intervals, the
    [localStorage] record it reads and writes, and the handlers and
    effects that act on them.  Of the versions of the component the
    repository holds, this is the one that signals completion by a
    notification, a vibration and an audio element, and that saves the
    selection.

    Conventions of the embedding.
    - JavaScript numbers held by the component are modelled by [Z].  The
      invariant [wf] keeps the selection within [exact], where every
      number the component computes is an integer below 2^53 and double
      arithmetic agrees with integer arithmetic.  Values read back from
      storage are JSON values ([JSON.value]) whose numbers are exact
      rationals; the progress ratio is an exact rational too.
    - Strings are byte strings (UTF-8).
    - Calls into the platform (notification, vibration, audio, console)
      are recorded as a list of [Effect]s returned next to the new state.
    - An exception is a value of [Exn]; [try_catch] is the [try]/[catch]
      statement.
    - React is modelled as it behaves in a production build: a handler's
      state updates are applied together, the component renders again
      when the state changed, the effects whose dependencies changed run
      after the render (cleanups first), and a render that throws tears
      the component down.  The markup is modelled as far as it decides
      behaviour: which controls are disabled, and what a render reads
      that can throw.
    - [getSavedTimerState] runs on every render but only its first result
      is used (as the initial value of [useState]); it is modelled where
      the page loads, in [boot], and what the later calls log is
      [renderLog].
    - The cells of the component hold whole numbers, of type [Z], within
      the range where the arithmetic of doubles on them is exact.  Where
      the code leaves that range, in the quotient of the progress and on
      a stored selection with a fraction, doubles are modelled with their
      rounding, in [Binary64], [progress64] and [Loaded]. *)

From Stdlib Require Import ZArith QArith String Ascii List Lia Bool.
From Stdlib Require Import DecimalString DecimalFacts DecimalPos.
From Stdlib Require Import Qround Qabs Qpower Qreduction.
From Stdlib Require PrimFloat FloatOps SpecFloat Uint63.
From stdpp Require Import gmap strings list.
Import ListNotations.

Open Scope string_scope.
Open Scope list_scope.
Open Scope Z_scope.

(** ** Exceptions *)

Inductive Error :=
| SyntaxError
| TypeError
| ReferenceError
| SecurityError
| QuotaExceededError.

Inductive Exn (A : Type) :=
| Ret (a : A)
| Throw (e : Error).

Arguments Ret {A} a.
Arguments Throw {A} e.

(** ** Calls into the platform *)

Inductive Effect :=
| NotifyUserCalled                  (* ghost: [notifyUser] was entered *)
| ShowNotification (title : string) (* new Notification(title) *)
| Vibrate (ms : Z)                  (* navigator.vibrate(ms) *)
| AudioSetVolume (v : Q)            (* audio.volume = v *)
| AudioPlay                         (* audio.play() *)
| AudioPause                        (* audio.pause() *)
| AudioSeek (t : Z)                 (* audio.currentTime = t *)
| RequestPermission                 (* Notification.requestPermission() *)
| ConsoleWarn (msg : string)
| ConsoleError (msg : string).

(** A computation that logs effects and may throw. *)

Definition Js (A : Type) : Type := (list Effect * Exn A)%type.

Definition ret {A} (a : A) : Js A := ([], Ret a).

Definition emit (e : Effect) : Js unit := ([e], Ret tt).

Definition lift {A} (x : Exn A) : Js A := ([], x).

Definition bind {A B} (m : Js A) (k : A -> Js B) : Js B :=
  match m with
  | (l, Ret a) => let (l', r) := k a in (l ++ l', r)
  | (l, Throw e) => (l, Throw e)
  end.

Definition try_catch {A} (body : Js A) (handler : Error -> Js A) : Js A :=
  match body with
  | (l, Throw e) => let (l', r) := handler e in (l ++ l', r)
  | ok => ok
  end.

#[global] Instance Js_ret : MRet Js := @ret.
#[global] Instance Js_bind : MBind Js := fun A B k m => bind m k.

(** ** JSON values, [JSON.parse] and [JSON.stringify]

    The two functions belong to the platform.  [parse] follows the JSON
    grammar: white space, the three literals, numbers, strings with their
    escapes, arrays and objects, and nothing after the value.
    [stringify_settings] is [JSON.stringify] on the one shape of object
    the component passes to it. *)

Module JSON.

#[local] Set Warnings "-register-all".

Inductive value :=
| Undefined
| Null
| Bool (b : bool)
| Num (q : Q)
| Str (s : string)
| Arr (items : list value)
| Obj (fields : list (string * value)).

Definition dquote : ascii := "034"%char.

(** Result of a sub-parser: the value read and the unread input. *)
Inductive outcome (A : Type) :=
| OutOfFuel
| Bad
| Good (a : A) (rest : string).

Arguments OutOfFuel {A}.
Arguments Bad {A}.
Arguments Good {A} a rest.

Definition code (c : ascii) : Z := Z.of_N (N_of_ascii c).

Definition is_ws (c : ascii) : bool :=
  (code c =? 32) || (code c =? 9) || (code c =? 10) || (code c =? 13).

Definition is_digit (c : ascii) : bool := (48 <=? code c) && (code c <=? 57).

Definition digit_val (c : ascii) : Z := code c - 48.

Fixpoint skip_ws (s : string) : string :=
  match s with
  | String c r => if is_ws c then skip_ws r else s
  | EmptyString => s
  end.

(** The longest run of digits at the head of [s], accumulated in base ten
    onto [acc]; [n] counts the digits read. *)
Fixpoint take_digits (s : string) (acc : Z) (n : Z) : Z * Z * string :=
  match s with
  | String c r =>
      if is_digit c then take_digits r (acc * 10 + digit_val c) (n + 1)
      else (acc, n, s)
  | EmptyString => (acc, n, s)
  end.

(** number = [-] int [frac] [exp], read as the exact rational it denotes. *)
Definition parse_int (s : string) : option (Z * string) :=
  match s with
  | String c r =>
      if (code c =? 48) then Some (0, r)
      else if is_digit c then
        let '(m, _, r') := take_digits s 0 0 in Some (m, r')
      else None
  | EmptyString => None
  end.

Definition parse_frac (m : Z) (s : string) : option (Z * Z * string) :=
  match s with
  | String c r =>
      if (code c =? 46) then
        let '(m', k, r') := take_digits r m 0 in
        if k =? 0 then None else Some (m', k, r')
      else Some (m, 0, s)
  | EmptyString => Some (m, 0, s)
  end.

Definition parse_exp (s : string) : option (Z * string) :=
  match s with
  | String c r =>
      if (code c =? 101) || (code c =? 69) then
        let '(neg, r1) :=
          match r with
          | String d r' =>
              if code d =? 45 then (true, r')
              else if code d =? 43 then (false, r')
              else (false, r)
          | EmptyString => (false, r)
          end in
        let '(e, k, r2) := take_digits r1 0 0 in
        if k =? 0 then None else Some (if neg then - e else e, r2)
      else Some (0, s)
  | EmptyString => Some (0, s)
  end.

Definition parse_number (s : string) : option (Q * string) :=
  let '(neg, s1) :=
    match s with
    | String c r => if code c =? 45 then (true, r) else (false, s)
    | EmptyString => (false, s)
    end in
  match parse_int s1 with
  | None => None
  | Some (m, s2) =>
      match parse_frac m s2 with
      | None => None
      | Some (m', k, s3) =>
          match parse_exp s3 with
          | None => None
          | Some (e, s4) =>
              let mant := if neg then - m' else m' in
              Some (Qred (inject_Z mant * (10 ^ (e - k)))%Q, s4)
          end
      end
  end.

(** Strings.  [utf8] encodes one UTF-16 unit written as a [\u] escape;
    a surrogate pair written as two escapes is encoded unit by unit. *)
Definition hex_val (c : ascii) : option Z :=
  let n := code c in
  if (48 <=? n) && (n <=? 57) then Some (n - 48)
  else if (65 <=? n) && (n <=? 70) then Some (n - 55)
  else if (97 <=? n) && (n <=? 102) then Some (n - 87)
  else None.

Definition byte (n : Z) : ascii := ascii_of_N (Z.to_N n).

Definition utf8 (u : Z) (tail : string) : string :=
  if u <? 128 then String (byte u) tail
  else if u <? 2048 then
    String (byte (192 + u / 64)) (String (byte (128 + u mod 64)) tail)
  else
    String (byte (224 + u / 4096))
      (String (byte (128 + (u / 64) mod 64))
         (String (byte (128 + u mod 64)) tail)).

(** The characters of a string literal after its opening quote, up to and
    including the closing quote. *)
Fixpoint parse_chars (s : string) : option (string * string) :=
  match s with
  | EmptyString => None
  | String c r =>
      if code c =? 34 then Some (EmptyString, r)
      else if code c =? 92 then
        match r with
        | EmptyString => None
        | String e r1 =>
            let plain (b : Z) :=
              match parse_chars r1 with
              | Some (body, rest) => Some (String (byte b) body, rest)
              | None => None
              end in
            if code e =? 34 then plain 34
            else if code e =? 92 then plain 92
            else if code e =? 47 then plain 47
            else if code e =? 98 then plain 8
            else if code e =? 102 then plain 12
            else if code e =? 110 then plain 10
            else if code e =? 114 then plain 13
            else if code e =? 116 then plain 9
            else if code e =? 117 then
              match r1 with
              | String h1 (String h2 (String h3 (String h4 r2))) =>
                  match hex_val h1, hex_val h2, hex_val h3, hex_val h4 with
                  | Some a, Some b, Some c', Some d =>
                      match parse_chars r2 with
                      | Some (body, rest) =>
                          Some (utf8 (((a * 16 + b) * 16 + c') * 16 + d) body, rest)
                      | None => None
                      end
                  | _, _, _, _ => None
                  end
              | _ => None
              end
            else None
        end
      else if code c <? 32 then None
      else
        match parse_chars r with
        | Some (body, rest) => Some (String c body, rest)
        | None => None
        end
  end.

(** [s] without its prefix [word], when it has it. *)
Fixpoint strip_prefix (word s : string) : option string :=
  match word with
  | EmptyString => Some s
  | String c w =>
      match s with
      | String d r => if Ascii.eqb c d then strip_prefix w r else None
      | EmptyString => None
      end
  end.

Definition literal (word : string) (v : value) (s : string) : outcome value :=
  match strip_prefix word s with
  | Some rest => Good v rest
  | None => Bad
  end.

Fixpoint parse_value (fuel : nat) (s : string) {struct fuel} : outcome value :=
  match fuel with
  | O => OutOfFuel
  | S f =>
      match skip_ws s with
      | EmptyString => Bad
      | String c r as s' =>
          if code c =? 123 then                      (* { *)
            match skip_ws r with
            | String c' r' =>
                if code c' =? 125 then Good (Obj []) r' else parse_members f r []
            | EmptyString => Bad
            end
          else if code c =? 91 then                  (* [ *)
            match skip_ws r with
            | String c' r' =>
                if code c' =? 93 then Good (Arr []) r' else parse_elements f r []
            | EmptyString => Bad
            end
          else if code c =? 34 then
            match parse_chars r with
            | Some (body, rest) => Good (Str body) rest
            | None => Bad
            end
          else if code c =? 116 then literal "true" (Bool true) s'
          else if code c =? 102 then literal "false" (Bool false) s'
          else if code c =? 110 then literal "null" Null s'
          else
            match parse_number s' with
            | Some (q, rest) => Good (Num q) rest
            | None => Bad
            end
      end
  end

with parse_elements (fuel : nat) (s : string) (acc : list value) {struct fuel}
  : outcome value :=
  match fuel with
  | O => OutOfFuel
  | S f =>
      match parse_value f s with
      | OutOfFuel => OutOfFuel
      | Bad => Bad
      | Good v r =>
          match skip_ws r with
          | String c r' =>
              if code c =? 44 then parse_elements f r' (v :: acc)
              else if code c =? 93 then Good (Arr (rev (v :: acc))) r'
              else Bad
          | EmptyString => Bad
          end
      end
  end

with parse_members (fuel : nat) (s : string) (acc : list (string * value))
  {struct fuel} : outcome value :=
  match fuel with
  | O => OutOfFuel
  | S f =>
      match skip_ws s with
      | String q r =>
          if code q =? 34 then
            match parse_chars r with
            | None => Bad
            | Some (key, r1) =>
                match skip_ws r1 with
                | String c r2 =>
                    if code c =? 58 then
                      match parse_value f r2 with
                      | OutOfFuel => OutOfFuel
                      | Bad => Bad
                      | Good v r3 =>
                          match skip_ws r3 with
                          | String d r4 =>
                              if code d =? 44 then parse_members f r4 ((key, v) :: acc)
                              else if code d =? 125
                              then Good (Obj (rev ((key, v) :: acc))) r4
                              else Bad
                          | EmptyString => Bad
                          end
                      end
                    else Bad
                | EmptyString => Bad
                end
            end
          else Bad
      | EmptyString => Bad
      end
  end.

(** Two units of fuel per input character cover the deepest nesting. *)
Definition parse_fuel (s : string) : nat := (2 * String.length s + 2)%nat.

(** [JSON.parse(text)]: one value, then nothing but white space. *)
Definition parse (text : string) : Exn value :=
  match parse_value (parse_fuel text) text with
  | Good v rest =>
      match skip_ws rest with
      | EmptyString => Ret v
      | String _ _ => Throw SyntaxError
      end
  | Bad | OutOfFuel => Throw SyntaxError
  end.

(** The binding a key has in an object: the last one written wins. *)
Fixpoint assoc (k : string) (fields : list (string * value)) : option value :=
  match fields with
  | [] => None
  | (k', v) :: rest =>
      match assoc k rest with
      | Some v' => Some v'
      | None => if String.eqb k k' then Some v else None
      end
  end.

(** [v.k] for a property name [k] that no built-in prototype defines (as
    is the case of [minutes] and [seconds]): reading from [null] or
    [undefined] throws, an object answers with its own field, everything
    else with [undefined]. *)
Definition getProp (v : value) (k : string) : Exn value :=
  match v with
  | Undefined | Null => Throw TypeError
  | Obj fields =>
      Ret (match assoc k fields with Some x => x | None => Undefined end)
  | Bool _ | Num _ | Str _ | Arr _ => Ret Undefined
  end.

(** [n.toString()] of an integer. *)
Definition Number_toString (n : Z) : string :=
  NilZero.string_of_int (Z.to_int n).

Definition quoted (s : string) : string :=
  String dquote (s +:+ String dquote EmptyString).

(** [JSON.stringify({ minutes, seconds })] for integer fields. *)
Definition stringify_settings (minutes seconds : Z) : string :=
  "{" +:+ quoted "minutes" +:+ ":" +:+ Number_toString minutes +:+ ","
      +:+ quoted "seconds" +:+ ":" +:+ Number_toString seconds +:+ "}".

(** The input goes on with something that is not part of a number. *)
Definition ends_number (rest : string) : Prop :=
  match rest with
  | String c _ =>
      is_digit c = false /\ (code c =? 46) = false /\
      (code c =? 101) = false /\ (code c =? 69) = false
  | EmptyString => True
  end.

(** The integer a JSON number denotes, when it denotes one. *)
Definition asInteger (v : value) : option Z :=
  match v with
  | Num q => if (Qden q =? 1)%positive then Some (Qnum q) else None
  | _ => None
  end.

End JSON.

(** ** [localStorage] *)

Record Storage := mkStorage {
  readable : bool;              (* reading does not throw *)
  writable : bool;              (* writing does not throw *)
  items : gmap string string
}.

Definition getItem (ls : Storage) (key : string) : Exn (option string) :=
  if readable ls then Ret (items ls !! key) else Throw SecurityError.

Definition setItem (ls : Storage) (key text : string) : Exn Storage :=
  if writable ls
  then Ret (mkStorage (readable ls) (writable ls) (<[key := text]> (items ls)))
  else Throw QuotaExceededError.

(** Truthiness of what [getItem] returned: [null] and the empty string
    are falsy. *)
Definition truthy (saved : option string) : bool :=
  match saved with
  | Some (String _ _) => true
  | Some EmptyString | None => false
  end.

Definition settingsKey : string := "timerSettings".

(** The [try] block of [getSavedTimerState]: [Some] is its [return],
    [None] is falling out of the [if]. *)
Definition readSavedState (ls : Storage) : Js (option (JSON.value * JSON.value)) :=
  savedState ← lift (getItem ls settingsKey);
  if truthy savedState then
    parsed ← lift (JSON.parse (default EmptyString savedState));
    minutes ← lift (JSON.getProp parsed "minutes");
    seconds ← lift (JSON.getProp parsed "seconds");
    mret (Some (minutes, seconds))
  else mret None.

Definition defaultSelection : JSON.value * JSON.value :=
  (JSON.Num (inject_Z 1), JSON.Num (inject_Z 0)).

Definition getSavedTimerState (ls : Storage) : Js (JSON.value * JSON.value) :=
  found ← try_catch (readSavedState ls)
             (fun _ => _ ← emit (ConsoleError "Error loading saved timer state:");
                       mret None);
  mret (default defaultSelection found).

(** The effect that saves the selection: the body of
    [useEffect(..., [minutes, seconds])]. *)
Definition saveSettings (minutes seconds : Z) (ls : Storage) : Js Storage :=
  try_catch
    (lift (setItem ls settingsKey (JSON.stringify_settings minutes seconds)))
    (fun _ => _ ← emit (ConsoleError "Error saving timer state:"); mret ls).

(** ** The component *)

Inductive Permission := PermDefault | PermGranted | PermDenied.

Record Platform := mkPlatform {
  hasNotification : bool;       (* "Notification" in window *)
  permission : Permission;      (* Notification.permission *)
  hasVibrate : bool;            (* "vibrate" in navigator *)
  mobileAgent : bool;           (* the user agent matches the mobile pattern *)
  playRejects : bool            (* the promise of audio.play() rejects *)
}.

(** The [useState] cells. *)
Record State := mkState {
  minutes : Z;
  seconds : Z;
  timeLeft : option Z;          (* [None] is [null] *)
  running : bool;
  originalTime : Z;
  isMobile : bool
}.

Record Timer := mkTimer {
  state : State;
  timerIntervalRef : option positive;   (* timerIntervalRef.current *)
  audioRef : bool;                      (* audioRef.current is an element *)
  intervals : list positive;            (* the browser's active intervals *)
  nextInterval : positive;              (* the id the next setInterval returns *)
  localStorage : Storage;
  platform : Platform;
  mounted : bool
}.

#[global] Instance Permission_eq_dec : EqDecision Permission.
Proof. solve_decision. Defined.

#[global] Instance State_eq_dec : EqDecision State.
Proof. solve_decision. Defined.

Definition setState (w : Timer) (s : State) : Timer :=
  mkTimer s (timerIntervalRef w) (audioRef w) (intervals w) (nextInterval w)
    (localStorage w) (platform w) (mounted w).

Definition setStorage (w : Timer) (ls : Storage) : Timer :=
  mkTimer (state w) (timerIntervalRef w) (audioRef w) (intervals w)
    (nextInterval w) ls (platform w) (mounted w).

Definition setPlatform (w : Timer) (p : Platform) : Timer :=
  mkTimer (state w) (timerIntervalRef w) (audioRef w) (intervals w)
    (nextInterval w) (localStorage w) p (mounted w).

(** [clearInterval(id)] *)
Definition clearInterval (id : positive) (w : Timer) : Timer :=
  mkTimer (state w) (timerIntervalRef w) (audioRef w)
    (filter (fun i => i <> id) (intervals w)) (nextInterval w)
    (localStorage w) (platform w) (mounted w).

(** [timerIntervalRef.current = setInterval(callback, 1000)] *)
Definition setIntervalRef (w : Timer) : Timer :=
  mkTimer (state w) (Some (nextInterval w)) (audioRef w)
    (intervals w ++ [nextInterval w]) (Pos.succ (nextInterval w))
    (localStorage w) (platform w) (mounted w).

Definition clearRef (w : Timer) : Timer :=
  mkTimer (state w) None (audioRef w) (intervals w) (nextInterval w)
    (localStorage w) (platform w) (mounted w).

(** *** Handlers *)

Definition setMinutes (v : Z) (s : State) : State :=
  mkState v (seconds s) (timeLeft s) (running s) (originalTime s) (isMobile s).

Definition setSeconds (v : Z) (s : State) : State :=
  mkState (minutes s) v (timeLeft s) (running s) (originalTime s) (isMobile s).

Definition setTimeLeft (v : option Z) (s : State) : State :=
  mkState (minutes s) (seconds s) v (running s) (originalTime s) (isMobile s).

Definition setRunning (v : bool) (s : State) : State :=
  mkState (minutes s) (seconds s) (timeLeft s) v (originalTime s) (isMobile s).

Definition setOriginalTime (v : Z) (s : State) : State :=
  mkState (minutes s) (seconds s) (timeLeft s) (running s) v (isMobile s).

Definition setIsMobile (v : bool) (s : State) : State :=
  mkState (minutes s) (seconds s) (timeLeft s) (running s) (originalTime s) v.

Definition startTimer (s : State) : State :=
  let totalSeconds := minutes s * 60 + seconds s in
  if 0 <? totalSeconds then
    setRunning true (setOriginalTime totalSeconds (setTimeLeft (Some totalSeconds) s))
  else s.

(** The state part of [stopTimer]; its calls on the audio element are
    [stopAudio]. *)
Definition stopTimer (s : State) : State :=
  setTimeLeft None (setRunning false s).

Definition stopAudio (w : Timer) : list Effect :=
  if audioRef w then [AudioPause; AudioSeek 0] else [].

(** The interval's callback, [setTimeLeft((prev) => prev - 1)];
    [null - 1] is [-1]. *)
Definition decrement (prev : option Z) : option Z :=
  match prev with
  | Some n => Some (n - 1)
  | None => Some (-1)
  end.

Definition notifyUser (w : Timer) : list Effect :=
  let p := platform w in
  (if hasNotification p && bool_decide (permission p = PermGranted)
   then [ShowNotification "⏳ Timer Done!"] else [])
  ++ (if hasVibrate p && isMobile (state w) then [Vibrate 300] else [])
  ++ (if audioRef w
      then [AudioSetVolume (7 # 10); AudioPlay]
           ++ (if playRejects p then [ConsoleWarn "Could not play audio alert:"] else [])
      else []).

(** [timeLeft > 0] and [timeLeft === 0]; [null] satisfies neither. *)
Definition positive_time (t : option Z) : bool :=
  match t with Some n => 0 <? n | None => false end.

Definition zero_time (t : option Z) : bool :=
  match t with Some n => n =? 0 | None => false end.

(** The countdown effect: the function it returns for cleanup, and its
    body. *)
Definition countdownCleanup (w : Timer) : Timer :=
  match timerIntervalRef w with
  | Some id => clearRef (clearInterval id w)
  | None => w
  end.

Definition countdownEffect (w : Timer) : Timer * list Effect :=
  let s := state w in
  if running s && positive_time (timeLeft s) then
    let w1 := match timerIntervalRef w with
              | Some id => clearInterval id w
              | None => w
              end in
    (setIntervalRef w1, [])
  else if zero_time (timeLeft s) && running s then
    (setState w (setRunning false s), NotifyUserCalled :: notifyUser w)
  else (w, []).

(** What of a render can throw: the hint shown on mobile devices reads
    [Notification.permission] unguarded. *)
Definition render (p : Platform) (s : State) : Exn unit :=
  if isMobile s && negb (hasNotification p) then Throw ReferenceError else Ret tt.

(** Controls, as rendered. *)
Definition startDisabled (s : State) : bool :=
  running s || ((minutes s =? 0) && (seconds s =? 0)).

Definition stopDisabled (s : State) : bool := negb (running s).

Definition selectDisabled (s : State) : bool := running s.

Record SelectOption := mkOption { value : Z; label : string }.

(** [s.padStart(2, "0")] *)
Definition padStart2 (s : string) : string :=
  match String.length s with
  | O => "00"
  | S O => "0" +:+ s
  | _ => s
  end.

Definition generateOptions (max : Z) : list SelectOption :=
  map (fun i => let v := Z.of_nat i in mkOption v (padStart2 (JSON.Number_toString v)))
      (seq 0 (Z.to_nat (max + 1))).

Definition minuteOptions : list SelectOption := generateOptions 10.
Definition secondOptions : list SelectOption := generateOptions 59.

(** The progress handed to the progress bar: the exact value of the
    formula of line 162.  The code computes it on doubles, which is
    [progress64] below. *)
Definition progress (s : State) : Q :=
  match timeLeft s with
  | Some t => ((inject_Z t / inject_Z (originalTime s)) * 100)%Q
  | None => 100%Q
  end.

(** *** Rendering and effects after a state change

    After a handler has set new state, React renders again and runs the
    effects whose dependencies changed, cleanups first; an effect that
    sets state causes a further pass.  An exception thrown by a render
    tears the component down, which runs the cleanups.  React gives up
    after [maxUpdateDepth] nested passes; this component settles within
    three.  The log is that of the handlers and effects; what the loader
    logs when a render calls it is [renderLog], below. *)

Definition unmount (w : Timer) : Timer :=
  let w' := countdownCleanup w in
  mkTimer (state w') (timerIntervalRef w') (audioRef w') (intervals w')
    (nextInterval w') (localStorage w') (platform w') false.

Definition selectionChanged (prev s : State) : bool :=
  negb (bool_decide (minutes prev = minutes s /\ seconds prev = seconds s)).

Definition countdownDepsChanged (prev s : State) : bool :=
  negb (bool_decide (running prev = running s /\ timeLeft prev = timeLeft s
                     /\ isMobile prev = isMobile s)).

Definition orElse {A} (r : Exn A) (d : A) : A :=
  match r with Ret a => a | Throw _ => d end.

Definition runSave (w : Timer) : Timer * list Effect :=
  let '(log, r) := saveSettings (minutes (state w)) (seconds (state w)) (localStorage w) in
  (setStorage w (orElse r (localStorage w)), log).

Fixpoint commit (fuel : nat) (prev : State) (w : Timer) : Timer * list Effect :=
  match fuel with
  | O => (w, [])
  | S f =>
      let s := state w in
      if bool_decide (s = prev) then (w, [])
      else
        match render (platform w) s with
        | Throw _ => (unmount w, [])
        | Ret _ =>
            let w0 := if countdownDepsChanged prev s then countdownCleanup w else w in
            let '(w1, e1) := if selectionChanged prev s then runSave w0 else (w0, []) in
            let '(w2, e2) := if countdownDepsChanged prev s
                             then countdownEffect w1 else (w1, []) in
            let '(w3, e3) := commit f s w2 in
            (w3, e1 ++ e2 ++ e3)
        end
  end.

Definition maxUpdateDepth : nat := 50.

(** A handler's state update followed by the passes it causes. *)
Definition update (f : State -> State) (w : Timer) : Timer * list Effect :=
  commit maxUpdateDepth (state w) (setState w (f (state w))).

(** *** Events *)

Inductive Event :=
| ClickStart
| ClickStop
| PickMinutes (i : nat)           (* the i-th entry of the minutes dropdown *)
| PickSeconds (i : nat)
| IntervalFires (id : positive)
| Resize
| PermissionChanges (p : Permission)
| AutoplayChanges (rejects : bool).

(** [startTimer()] and [stopTimer()] called, whatever calls them. *)
Definition invokeStart (w : Timer) : Timer * list Effect := update startTimer w.

Definition invokeStop (w : Timer) : Timer * list Effect :=
  let '(w', e) := update stopTimer w in (w', stopAudio w ++ e).

Definition pick (options : list SelectOption) (i : nat) (set : Z -> State -> State)
    (w : Timer) : Timer * list Effect :=
  match options !! i with
  | Some o => update (set (value o)) w
  | None => (w, [])
  end.

Definition step (ev : Event) (w : Timer) : Timer * list Effect :=
  if negb (mounted w) then (w, [])
  else
    let s := state w in
    match ev with
    | ClickStart => if startDisabled s then (w, []) else invokeStart w
    | ClickStop => if stopDisabled s then (w, []) else invokeStop w
    | PickMinutes i => if selectDisabled s then (w, []) else pick minuteOptions i setMinutes w
    | PickSeconds i => if selectDisabled s then (w, []) else pick secondOptions i setSeconds w
    | IntervalFires id =>
        if bool_decide (id ∈ intervals w)
        then update (fun s => setTimeLeft (decrement (timeLeft s)) s) w
        else (w, [])
    | Resize => update (setIsMobile (mobileAgent (platform w))) w
    | PermissionChanges perm =>
        let p := platform w in
        (setPlatform w (mkPlatform (hasNotification p) perm (hasVibrate p)
                          (mobileAgent p) (playRejects p)), [])
    | AutoplayChanges rejects =>
        let p := platform w in
        (setPlatform w (mkPlatform (hasNotification p) (permission p) (hasVibrate p)
                          (mobileAgent p) rejects), [])
    end.

Fixpoint run (evs : list Event) (w : Timer) : Timer * list Effect :=
  match evs with
  | [] => (w, [])
  | ev :: rest =>
      let '(w1, e1) := step ev w in
      let '(w2, e2) := run rest w1 in
      (w2, e1 ++ e2)
  end.

(** One second passes: every interval that is active fires once. *)
Definition secondElapsed (w : Timer) : Timer * list Effect :=
  run (map IntervalFires (intervals w)) w.

Fixpoint secondsElapsed (n : nat) (w : Timer) : Timer * list Effect :=
  match n with
  | O => (w, [])
  | S k =>
      let '(w1, e1) := secondElapsed w in
      let '(w2, e2) := secondsElapsed k w1 in
      (w2, e1 ++ e2)
  end.

(** *** Mounting *)

(** Integers on which the arithmetic of the component is exact in
    doubles: with both parts of the selection within 2^46 every number
    the component computes stays below 2^53. *)
Definition exact (z : Z) : bool := Z.abs z <=? 2 ^ 46.

Definition initialState (savedMinutes savedSeconds : Z) : State :=
  mkState savedMinutes savedSeconds None false 60 false.

(** First render and the effects of the mount, in the order they are
    declared: device check, permission request, save, countdown. *)
Definition mount (p : Platform) (ls : Storage) (savedMinutes savedSeconds : Z)
  : Timer * list Effect :=
  let s0 := initialState savedMinutes savedSeconds in
  let w0 := mkTimer s0 None true [] 1%positive ls p true in
  let ePerm := if hasNotification p && negb (bool_decide (permission p = PermGranted))
                  && negb (bool_decide (permission p = PermDenied))
               then [RequestPermission] else [] in
  let '(w1, eSave) := runSave w0 in
  let '(w2, eCount) := countdownEffect w1 in
  let '(w3, eRest) := update (setIsMobile (mobileAgent p)) w2 in
  (w3, ePerm ++ eSave ++ eCount ++ eRest).

(** The page loads: the saved selection is read and, when both parts are
    integers within [exact], the component is mounted on it.  Other saved
    values leave the integer arithmetic modelled here, and [boot] answers
    [None] on them: the code does mount on every pair of numbers, and
    what it does on a selection with a fraction is modelled on doubles,
    in [Loaded]. *)
Definition boot (p : Platform) (ls : Storage) : option (Timer * list Effect) :=
  let '(log, r) := getSavedTimerState ls in
  match r with
  | Ret (vm, vs) =>
      match JSON.asInteger vm, JSON.asInteger vs with
      | Some m, Some s =>
          if exact m && exact s
          then let '(w, e) := mount p ls m s in Some (w, log ++ e)
          else None
      | _, _ => None
      end
  | Throw _ => None
  end.

(** *** States the component can be in *)

Definition active (ref : option positive) : bool :=
  match ref with Some _ => true | None => false end.

(** While counting, between 1 and the reference duration is left; when
    idle, nothing or 0. *)
Definition timeOk (s : State) : bool :=
  match timeLeft s with
  | Some t => if running s then (0 <? t) && (t <=? originalTime s) else t =? 0
  | None => negb (running s)
  end.

Definition savedText (w : Timer) : string :=
  JSON.stringify_settings (minutes (state w)) (seconds (state w)).

(** The invariant of the mounted component.  It holds after a mount that
    did not tear the component down and every event keeps it, so it holds
    of every state the component reaches ([reachable_wf]). *)
Record wf (w : Timer) : Prop := mkWf {
  wf_mounted : mounted w = true;
  wf_intervals :
    intervals w = match timerIntervalRef w with Some id => [id] | None => [] end;
  wf_active : active (timerIntervalRef w) = running (state w);
  wf_time : timeOk (state w) = true;
  wf_original : 0 < originalTime (state w);
  wf_agent : isMobile (state w) = mobileAgent (platform w);
  wf_render : render (platform w) (state w) = Ret tt;
  wf_exact : exact (minutes (state w)) && exact (seconds (state w)) = true;
  wf_saved :
    writable (localStorage w) = true ->
    items (localStorage w) !! settingsKey = Some (savedText w)
}.

(** The two shapes a settled component has: no interval, or exactly the
    one just created. *)
Definition idleWith (w : Timer) (s : State) : Timer :=
  mkTimer s None (audioRef w) [] (nextInterval w) (localStorage w)
    (platform w) (mounted w).

Definition countingWith (w : Timer) (s : State) : Timer :=
  setIntervalRef (idleWith w s).

(** The states reached from a mount on a selection of whole numbers
    within [exact], which is what the dropdowns and the default supply; a
    stored selection with a fraction leads outside of them. *)
Inductive reachable : Timer -> Prop :=
| reach_mount p ls m s :
    exact m && exact s = true ->
    mounted (fst (mount p ls m s)) = true -> reachable (fst (mount p ls m s))
| reach_step w ev : reachable w -> reachable (fst (step ev w)).

(** A record the application itself could have written: an object whose
    [minutes] and [seconds] are integers within the dropdowns' ranges. *)
Definition validRecord (text : string) : bool :=
  match JSON.parse text with
  | Ret (JSON.Obj fields) =>
      match JSON.assoc "minutes" fields, JSON.assoc "seconds" fields with
      | Some vm, Some vs =>
          match JSON.asInteger vm, JSON.asInteger vs with
          | Some m, Some s => (0 <=? m) && (m <=? 10) && (0 <=? s) && (s <=? 59)
          | _, _ => false
          end
      | _, _ => false
      end
  | _ => false
  end.

Definition isCompletion (e : Effect) : bool :=
  match e with NotifyUserCalled => true | _ => false end.

(** How many times the log shows [notifyUser] being entered. *)
Definition completions (log : list Effect) : nat :=
  length (List.filter isCompletion log).

(** *** A desktop browser with an empty store, used for examples *)

Definition desktop : Platform := mkPlatform true PermGranted false false false.

Definition emptyStorage : Storage := mkStorage true true ∅.

Definition exampleTimer (m s : Z) : Timer := fst (mount desktop emptyStorage m s).

(** A phone whose browser has no Notification API. *)
Definition phoneWithoutNotifications : Platform :=
  mkPlatform false PermDefault true true false.

(** What the loader logs when it falls back, and the field of a parsed
    object ([undefined] when the object has none of that name). *)
Definition loadError : Effect := ConsoleError "Error loading saved timer state:".

Definition fieldOf (k : string) (fields : list (string * JSON.value)) : JSON.value :=
  match JSON.assoc k fields with Some v => v | None => JSON.Undefined end.

(** Stores holding one record under the settings key. *)
Definition storeWith (text : string) : Storage :=
  mkStorage true true {[ settingsKey := text ]}.

(** The text [{"minutes":1.5,"seconds":"x"}]. *)
Definition oddRecord : string :=
  "{" +:+ JSON.quoted "minutes" +:+ ":1.5," +:+ JSON.quoted "seconds" +:+ ":"
      +:+ JSON.quoted "x" +:+ "}".

(** *** More of the view *)

(** The text inside the progress ring,
    [String(Math.floor(timeLeft / 60)).padStart(2, "0")], a colon, and
    [String(timeLeft % 60).padStart(2, "0")]; [null] counts as 0, the
    division rounds down and [%] takes the sign of [timeLeft]. *)
Definition countdownText (t : option Z) : string :=
  let n := match t with Some n => n | None => 0 end in
  padStart2 (JSON.Number_toString (n / 60)) +:+ ":"
    +:+ padStart2 (JSON.Number_toString (Z.rem n 60)).

(** The entry a dropdown shows as selected,
    [{ value: v, label: v.toString().padStart(2, "0") }]. *)
Definition selected (v : Z) : SelectOption :=
  mkOption v (padStart2 (JSON.Number_toString v)).

(** Readers used to state what the texts above denote: a string of
    decimal digits as a number, and [mm:ss] as seconds. *)
Definition readDecimal (s : string) : option Z :=
  match s with
  | EmptyString => None
  | String _ _ =>
      match JSON.take_digits s 0 0 with
      | (v, _, EmptyString) => Some v
      | (_, _, String _ _) => None
      end
  end.



Definition saveError : Effect := ConsoleError "Error saving timer state:".

(** The three signals of a completion. *)
Definition isSignal (e : Effect) : bool :=
  match e with
  | ShowNotification _ | Vibrate _ | AudioPlay => true
  | _ => false
  end.

(** The selection is one the dropdowns offer. *)
Definition inRange (s : State) : bool :=
  (0 <=? minutes s) && (minutes s <=? 10) && (0 <=? seconds s) && (seconds s <=? 59).

(** What the component may do to a store: rewrite its own record, and
    nothing else. *)
Definition untouched (ls ls' : Storage) : Prop :=
  readable ls' = readable ls /\ writable ls' = writable ls /\
  forall key, key <> settingsKey -> items ls' !! key = items ls !! key.

(** The request the permission effect makes when the permission is
    neither granted nor denied. *)
Definition permissionRequest (p : Platform) : list Effect :=
  if hasNotification p && bool_decide (permission p = PermDefault)
  then [RequestPermission] else [].

(** *** The first render

    The dropdowns show [minutes.toString().padStart(2, "0")] and the same
    for the seconds, whatever the loader returned.  Only whether the
    expression throws is modelled.  A property access on [undefined] or
    [null] throws.  An object answers with its own [toString] field when
    it has one, and a value read from JSON is never a function, so the
    call throws; otherwise the inherited method answers.  An array joins
    its elements, converting each the same way, [null] to the empty
    text. *)
Fixpoint ownToString (v : JSON.value) : bool :=
  match v with
  | JSON.Obj fields =>
      match JSON.assoc "toString" fields with Some _ => true | None => false end
  | JSON.Arr l => existsb ownToString l
  | _ => false
  end.

Definition labelOf (v : JSON.value) : Exn unit :=
  match v with
  | JSON.Undefined | JSON.Null => Throw TypeError
  | _ => if ownToString v then Throw TypeError else Ret tt
  end.

Definition firstRender (savedMinutes savedSeconds : JSON.value) : Exn unit :=
  match labelOf savedMinutes with
  | Throw e => Throw e
  | Ret _ => labelOf savedSeconds
  end.

(** The page loads: the loader runs, then the first render.  Effects run
    only after a render that returned, so a throw here leaves the store as
    it was. *)
Definition loadPage (ls : Storage) : Js (JSON.value * JSON.value) :=
  selection ← getSavedTimerState ls;
  _ ← lift (firstRender (fst selection) (snd selection));
  mret selection.

(** *** Components used as examples *)

(** A phone with every channel, three seconds selected. *)
Definition phone : Platform := mkPlatform true PermGranted true true false.

Definition phoneTimer : Timer := fst (mount phone emptyStorage 0 3).

(** The same after Start and two ticks: the last second of a run. *)
Definition lastSecond : Timer :=
  fst (run [ClickStart; IntervalFires 1; IntervalFires 2] phoneTimer).

(** ** The variant of [unnamed/part_000]

    The same component with one signal: a sound, played through an
    [Audio] object held in a variable of the module, which outlives the
    component.  [startTimer] creates it when it is still [null]; nothing
    reads [Notification] or [navigator.vibrate], and [stopTimer] only
    sets state.  The field [audioRef] of [Timer] holds here whether the
    module's [audio] has been created. *)

Module Bell.

Definition audio (w : Timer) : bool := audioRef w.

Definition setAudio (w : Timer) : Timer :=
  mkTimer (state w) (timerIntervalRef w) true (intervals w) (nextInterval w)
    (localStorage w) (platform w) (mounted w).

(** The first lines of [startTimer]:
    [if (!audio) { audio = new Audio(...); audio.volume = 0.7; }] *)
Definition initAudio (w : Timer) : Timer * list Effect :=
  if audio w then (w, []) else (setAudio w, [AudioSetVolume (7 # 10)]).

Definition notifyUser (w : Timer) : list Effect :=
  if audio w
  then AudioPlay :: (if playRejects (platform w)
                     then [ConsoleWarn "Could not play audio alert:"] else [])
  else [].

Definition countdownEffect (w : Timer) : Timer * list Effect :=
  let s := state w in
  if running s && positive_time (timeLeft s) then
    let w1 := match timerIntervalRef w with
              | Some id => clearInterval id w
              | None => w
              end in
    (setIntervalRef w1, [])
  else if zero_time (timeLeft s) && running s then
    (setState w (setRunning false s), NotifyUserCalled :: notifyUser w)
  else (w, []).

(** The passes after a state change; no render of this variant reads
    anything that can be missing. *)
Fixpoint commit (fuel : nat) (prev : State) (w : Timer) : Timer * list Effect :=
  match fuel with
  | O => (w, [])
  | S f =>
      let s := state w in
      if bool_decide (s = prev) then (w, [])
      else
        let w0 := if countdownDepsChanged prev s then countdownCleanup w else w in
        let '(w1, e1) := if selectionChanged prev s then runSave w0 else (w0, []) in
        let '(w2, e2) := if countdownDepsChanged prev s
                         then countdownEffect w1 else (w1, []) in
        let '(w3, e3) := commit f s w2 in
        (w3, e1 ++ e2 ++ e3)
  end.

Definition update (f : State -> State) (w : Timer) : Timer * list Effect :=
  commit maxUpdateDepth (state w) (setState w (f (state w))).

Definition invokeStart (w : Timer) : Timer * list Effect :=
  let '(w0, e0) := initAudio w in
  let '(w1, e1) := update startTimer w0 in
  (w1, e0 ++ e1).

Definition invokeStop (w : Timer) : Timer * list Effect := update stopTimer w.

Definition pick (options : list SelectOption) (i : nat) (set : Z -> State -> State)
    (w : Timer) : Timer * list Effect :=
  match options !! i with
  | Some o => update (set (value o)) w
  | None => (w, [])
  end.

Definition step (ev : Event) (w : Timer) : Timer * list Effect :=
  if negb (mounted w) then (w, [])
  else
    let s := state w in
    match ev with
    | ClickStart => if startDisabled s then (w, []) else invokeStart w
    | ClickStop => if stopDisabled s then (w, []) else invokeStop w
    | PickMinutes i => if selectDisabled s then (w, []) else pick minuteOptions i setMinutes w
    | PickSeconds i => if selectDisabled s then (w, []) else pick secondOptions i setSeconds w
    | IntervalFires id =>
        if bool_decide (id ∈ intervals w)
        then update (fun s => setTimeLeft (decrement (timeLeft s)) s) w
        else (w, [])
    | Resize => update (setIsMobile (mobileAgent (platform w))) w
    | PermissionChanges perm =>
        let p := platform w in
        (setPlatform w (mkPlatform (hasNotification p) perm (hasVibrate p)
                          (mobileAgent p) (playRejects p)), [])
    | AutoplayChanges rejects =>
        let p := platform w in
        (setPlatform w (mkPlatform (hasNotification p) (permission p) (hasVibrate p)
                          (mobileAgent p) rejects), [])
    end.

Fixpoint run (evs : list Event) (w : Timer) : Timer * list Effect :=
  match evs with
  | [] => (w, [])
  | ev :: rest =>
      let '(w1, e1) := step ev w in
      let '(w2, e2) := run rest w1 in
      (w2, e1 ++ e2)
  end.

(** First render and the effects of the mount: device check, save,
    countdown.  [created] is whether the module's [audio] exists when
    the component mounts; it does not when the page has just loaded. *)
Definition mount (p : Platform) (created : bool) (ls : Storage)
    (savedMinutes savedSeconds : Z) : Timer * list Effect :=
  let s0 := initialState savedMinutes savedSeconds in
  let w0 := mkTimer s0 None created [] 1%positive ls p true in
  let '(w1, eSave) := runSave w0 in
  let '(w2, eCount) := countdownEffect w1 in
  let '(w3, eRest) := update (setIsMobile (mobileAgent p)) w2 in
  (w3, eSave ++ eCount ++ eRest).

(** The states reached from a mount on whole numbers within [exact]. *)
Inductive reachable : Timer -> Prop :=
| reach_mount p ls m s :
    exact m && exact s = true -> reachable (fst (mount p false ls m s))
| reach_step w ev : reachable w -> reachable (fst (step ev w)).

End Bell.

(** The component of [main.jsx] that a component of the variant is
    compared with: the same, on a browser that has the Notification API,
    with its audio element. *)
Definition withApi (p : Platform) : Platform :=
  mkPlatform true (permission p) (hasVibrate p) (mobileAgent p) (playRejects p).

Definition asMain (w : Timer) : Timer :=
  mkTimer (state w) (timerIntervalRef w) true (intervals w) (nextInterval w)
    (localStorage w) (withApi (platform w)) (mounted w).

(** What is left of a log of [main.jsx]'s component in the variant: no
    notification, no vibration, no volume set at completion, and the
    sound only when [audio] exists. *)
Definition heardByBell (created : bool) (e : Effect) : bool :=
  match e with
  | ShowNotification _ | Vibrate _ | AudioSetVolume _ => false
  | AudioPlay | ConsoleWarn _ => created
  | _ => true
  end.

Definition bellLog (created : bool) (log : list Effect) : list Effect :=
  List.filter (heardByBell created) log.

(** How often a log shows the volume of an [Audio] object being set; the
    variant does so only where it creates the object. *)
Definition creations (log : list Effect) : nat :=
  length (List.filter (fun e => match e with AudioSetVolume _ => true | _ => false end) log).

Definition playWarning : Effect := ConsoleWarn "Could not play audio alert:".

(** The variant on a phone without the Notification API, in the last
    second of a run of three. *)
Definition bellLastSecond : Timer :=
  fst (Bell.run [ClickStart; IntervalFires 1; IntervalFires 2]
         (fst (Bell.mount phoneWithoutNotifications false emptyStorage 0 3))).

(** What the variant can log: the handlers and effects all but the
    first, which is what the loader logs when a render calls it on a
    store it cannot load from. *)
Definition bellEffect (e : Effect) : Prop :=
  e = loadError \/ e = saveError \/ e = NotifyUserCalled \/ e = AudioPlay
  \/ e = playWarning.

(** ** The two components of [src/App.jsx]

    [App.jsx] holds two earlier components.  Neither has an audio
    element or a device check: the field [audioRef] and the cell
    [isMobile] keep the values they have, and nothing reads them.  Both
    read [Notification] unguarded, in the effect of the mount and at
    completion.  An effect that throws tears the component down, and the
    effects declared after it in the component do not run. *)

(** [Notification.permission !== "granted" && ... !== "denied"], then
    [Notification.requestPermission()]. *)
Definition unguardedRequest (p : Platform) : Exn (list Effect) :=
  if hasNotification p
  then Ret (if negb (bool_decide (permission p = PermGranted))
               && negb (bool_decide (permission p = PermDenied))
            then [RequestPermission] else [])
  else Throw ReferenceError.

(** [if (Notification.permission === "granted") new Notification(...)] *)
Definition unguardedNotification (p : Platform) : Exn (list Effect) :=
  if hasNotification p
  then Ret (if bool_decide (permission p = PermGranted)
            then [ShowNotification "⏳ Timer Done!"] else [])
  else Throw ReferenceError.

(** The dependencies [running, timeLeft] of the countdown effect. *)
Definition runningOrTimeChanged (prev s : State) : bool :=
  negb (bool_decide (running prev = running s /\ timeLeft prev = timeLeft s)).

(** *** The second component: saved selection, interval in a ref *)

Module AppSecond.

Definition countdownEffect (w : Timer) : Exn (Timer * list Effect) :=
  let s := state w in
  if running s && positive_time (timeLeft s) then
    let w1 := match timerIntervalRef w with
              | Some id => clearInterval id w
              | None => w
              end in
    Ret (setIntervalRef w1, [])
  else if zero_time (timeLeft s) && running s then
    match unguardedNotification (platform w) with
    | Ret log => Ret (setState w (setRunning false s), log)
    | Throw e => Throw e
    end
  else Ret (w, []).

Fixpoint commit (fuel : nat) (prev : State) (w : Timer) : Timer * list Effect :=
  match fuel with
  | O => (w, [])
  | S f =>
      let s := state w in
      if bool_decide (s = prev) then (w, [])
      else
        let w0 := if runningOrTimeChanged prev s then countdownCleanup w else w in
        let '(w1, e1) := if selectionChanged prev s then runSave w0 else (w0, []) in
        match (if runningOrTimeChanged prev s
               then countdownEffect w1 else Ret (w1, [])) with
        | Throw _ => (unmount w1, e1)
        | Ret (w2, e2) =>
            let '(w3, e3) := commit f s w2 in
            (w3, e1 ++ e2 ++ e3)
        end
  end.

Definition update (f : State -> State) (w : Timer) : Timer * list Effect :=
  commit maxUpdateDepth (state w) (setState w (f (state w))).

Definition pick (options : list SelectOption) (i : nat) (set : Z -> State -> State)
    (w : Timer) : Timer * list Effect :=
  match options !! i with
  | Some o => update (set (value o)) w
  | None => (w, [])
  end.

(** No listener for [resize] is installed. *)
Definition step (ev : Event) (w : Timer) : Timer * list Effect :=
  if negb (mounted w) then (w, [])
  else
    let s := state w in
    match ev with
    | ClickStart => if startDisabled s then (w, []) else update startTimer w
    | ClickStop => if stopDisabled s then (w, []) else update stopTimer w
    | PickMinutes i => if selectDisabled s then (w, []) else pick minuteOptions i setMinutes w
    | PickSeconds i => if selectDisabled s then (w, []) else pick secondOptions i setSeconds w
    | IntervalFires id =>
        if bool_decide (id ∈ intervals w)
        then update (fun s => setTimeLeft (decrement (timeLeft s)) s) w
        else (w, [])
    | Resize => (w, [])
    | PermissionChanges perm =>
        let p := platform w in
        (setPlatform w (mkPlatform (hasNotification p) perm (hasVibrate p)
                          (mobileAgent p) (playRejects p)), [])
    | AutoplayChanges rejects =>
        let p := platform w in
        (setPlatform w (mkPlatform (hasNotification p) (permission p) (hasVibrate p)
                          (mobileAgent p) rejects), [])
    end.

Fixpoint run (evs : list Event) (w : Timer) : Timer * list Effect :=
  match evs with
  | [] => (w, [])
  | ev :: rest =>
      let '(w1, e1) := step ev w in
      let '(w2, e2) := run rest w1 in
      (w2, e1 ++ e2)
  end.

(** First render and the effects of the mount: permission request,
    save, countdown. *)
Definition mount (p : Platform) (ls : Storage) (savedMinutes savedSeconds : Z)
  : Timer * list Effect :=
  let w0 := mkTimer (initialState savedMinutes savedSeconds) None false [] 1%positive
              ls p true in
  match unguardedRequest p with
  | Throw _ => (unmount w0, [])
  | Ret ePerm =>
      let '(w1, eSave) := runSave w0 in
      match countdownEffect w1 with
      | Throw _ => (unmount w1, ePerm ++ eSave)
      | Ret (w2, eCount) => (w2, ePerm ++ eSave ++ eCount)
      end
  end.

End AppSecond.

(** *** The first component: nothing saved, interval in a variable of
    the render, Stop puts the selection back to 1:00

    [timerIntervalRef] holds here the [timerInterval] of the render whose
    effect is in force: the effect assigns it, and the cleanup the effect
    returned clears that interval; the next render starts with a
    variable of its own, [null]. *)

Module AppFirst.

Definition stopTimer (s : State) : State :=
  setSeconds 0 (setMinutes 1 (setTimeLeft None (setRunning false s))).

Definition cleanup (w : Timer) : Timer :=
  match timerIntervalRef w with
  | Some id => clearRef (clearInterval id w)
  | None => w
  end.

Definition countdownEffect (w : Timer) : Exn (Timer * list Effect) :=
  let s := state w in
  if running s && positive_time (timeLeft s) then Ret (setIntervalRef w, [])
  else if zero_time (timeLeft s) && running s then
    match unguardedNotification (platform w) with
    | Ret log => Ret (setState w (setRunning false s), log)
    | Throw e => Throw e
    end
  else Ret (w, []).

Definition teardown (w : Timer) : Timer :=
  let w' := cleanup w in
  mkTimer (state w') (timerIntervalRef w') (audioRef w') (intervals w')
    (nextInterval w') (localStorage w') (platform w') false.

Fixpoint commit (fuel : nat) (prev : State) (w : Timer) : Timer * list Effect :=
  match fuel with
  | O => (w, [])
  | S f =>
      let s := state w in
      if bool_decide (s = prev) then (w, [])
      else
        if runningOrTimeChanged prev s then
          match countdownEffect (cleanup w) with
          | Throw _ => (teardown (cleanup w), [])
          | Ret (w2, e2) =>
              let '(w3, e3) := commit f s w2 in
              (w3, e2 ++ e3)
          end
        else commit f s w
  end.

Definition update (f : State -> State) (w : Timer) : Timer * list Effect :=
  commit maxUpdateDepth (state w) (setState w (f (state w))).

Definition pick (options : list SelectOption) (i : nat) (set : Z -> State -> State)
    (w : Timer) : Timer * list Effect :=
  match options !! i with
  | Some o => update (set (value o)) w
  | None => (w, [])
  end.

Definition step (ev : Event) (w : Timer) : Timer * list Effect :=
  if negb (mounted w) then (w, [])
  else
    let s := state w in
    match ev with
    | ClickStart => if startDisabled s then (w, []) else update startTimer w
    | ClickStop => if stopDisabled s then (w, []) else update stopTimer w
    | PickMinutes i =>
        if selectDisabled s then (w, []) else pick (generateOptions 10) i setMinutes w
    | PickSeconds i =>
        if selectDisabled s then (w, []) else pick (generateOptions 59) i setSeconds w
    | IntervalFires id =>
        if bool_decide (id ∈ intervals w)
        then update (fun s => setTimeLeft (decrement (timeLeft s)) s) w
        else (w, [])
    | Resize => (w, [])
    | PermissionChanges perm =>
        let p := platform w in
        (setPlatform w (mkPlatform (hasNotification p) perm (hasVibrate p)
                          (mobileAgent p) (playRejects p)), [])
    | AutoplayChanges rejects =>
        let p := platform w in
        (setPlatform w (mkPlatform (hasNotification p) (permission p) (hasVibrate p)
                          (mobileAgent p) rejects), [])
    end.

Fixpoint run (evs : list Event) (w : Timer) : Timer * list Effect :=
  match evs with
  | [] => (w, [])
  | ev :: rest =>
      let '(w1, e1) := step ev w in
      let '(w2, e2) := run rest w1 in
      (w2, e1 ++ e2)
  end.

(** First render, on the selection 1:00, and the effects of the mount:
    permission request, countdown. *)
Definition mount (p : Platform) (ls : Storage) : Timer * list Effect :=
  let w0 := mkTimer (initialState 1 0) None false [] 1%positive ls p true in
  match unguardedRequest p with
  | Throw _ => (teardown w0, [])
  | Ret ePerm =>
      match countdownEffect w0 with
      | Throw _ => (teardown w0, ePerm)
      | Ret (w2, eCount) => (w2, ePerm ++ eCount)
      end
  end.

End AppFirst.

(** The component of [main.jsx] that the second component of [App.jsx]
    is compared with has its audio element; what is left of its log
    leaves out the sound, the vibration and the entry into
    [notifyUser]. *)
Definition withSound (w : Timer) : Timer :=
  mkTimer (state w) (timerIntervalRef w) true (intervals w) (nextInterval w)
    (localStorage w) (platform w) (mounted w).

Definition seenBySecond (e : Effect) : bool :=
  match e with
  | NotifyUserCalled | Vibrate _ | AudioSetVolume _ | AudioPlay | AudioPause
  | AudioSeek _ | ConsoleWarn _ => false
  | _ => true
  end.

(** A desktop browser with the Notification API, where the device check
    of [main.jsx] answers no. *)
Definition plainDesktop (w : Timer) : Prop :=
  hasNotification (platform w) = true /\ mobileAgent (platform w) = false /\
  isMobile (state w) = false.

(** *** What a render logs

    The body of the component calls [getSavedTimerState] at every render
    (line 44), though only the first render uses what it returns.  On a
    store that cannot be read, or that holds a record [JSON.parse]
    rejects, each of these calls logs a console error.  The logs of
    [commit] hold what the handlers and the effects log; what the renders
    add is [renderLog] of the store at the time.  Statements about a
    whole log are made for stores on which the loader is silent, so that
    they hold however often React renders. *)
Definition renderLog (ls : Storage) : list Effect := fst (getSavedTimerState ls).

Definition quietStore (ls : Storage) : Prop := renderLog ls = [].

(** ** Numbers as the code has them: binary64

    A JavaScript number is a double.  Whole numbers up to 2^53 are doubles
    and the arithmetic on them is exact, which is why the cells of the
    component are of type [Z]; a quotient is not, and line 162 divides.
    A finite double is given here by the rational it denotes; every
    operation rounds the exact result to the nearest double, ties to the
    even significand ([round]), with 53 bits of significand, gradual
    underflow from exponent -1074 and overflow to an infinity at 2^1024.
    A zero carries no sign here; the component never divides by one. *)

Module Binary64.

(** The integer part of the binary logarithm of a positive rational. *)
Definition ilog2 (q : Q) : Z :=
  let k := Z.log2 (Qnum q) - Z.log2 (Zpos (Qden q)) in
  if Qle_bool (2 ^ k) q then k else k - 1.

(** The nearest integer, ties to even. *)
Definition rne (q : Q) : Z :=
  let f := Qfloor q in
  match Qcompare (q - inject_Z f) (1 # 2) with
  | Lt => f
  | Gt => f + 1
  | Eq => if Z.even f then f else f + 1
  end.

Definition emin : Z := -1074.

(** The exponent of the last bit of the significand of [q]. *)
Definition exponent (q : Q) : Z := Z.max (ilog2 (Qabs q) - 52) emin.

Definition round (q : Q) : Q :=
  if Qeq_bool q 0 then 0%Q
  else let e := exponent q in Qred (inject_Z (rne (q / 2 ^ e)) * 2 ^ e).

Inductive double := Finite (q : Q) | Infinite (negative : bool) | NaN.

Definition negativeQ (q : Q) : bool := negb (Qle_bool 0 q).

Definition ofQ (q : Q) : double :=
  let r := round q in
  if Qle_bool (2 ^ 1024) (Qabs r) then Infinite (negativeQ r) else Finite r.

Definition ofZ (z : Z) : double := ofQ (inject_Z z).

Definition mul (x y : double) : double :=
  match x, y with
  | Finite a, Finite b => ofQ (a * b)
  | Finite a, Infinite s | Infinite s, Finite a =>
      if Qeq_bool a 0 then NaN else Infinite (xorb s (negativeQ a))
  | Infinite s, Infinite s' => Infinite (xorb s s')
  | _, _ => NaN
  end.

Definition div (x y : double) : double :=
  match x, y with
  | Finite a, Finite b =>
      if Qeq_bool b 0
      then if Qeq_bool a 0 then NaN else Infinite (negativeQ a)
      else ofQ (a / b)
  | Finite _, Infinite _ => Finite 0
  | Infinite s, Finite b => Infinite (xorb s (negativeQ b))
  | _, _ => NaN
  end.

Definition add (x y : double) : double :=
  match x, y with
  | Finite a, Finite b => ofQ (a + b)
  | Finite _, Infinite s | Infinite s, Finite _ => Infinite s
  | Infinite s, Infinite s' => if Bool.eqb s s' then Infinite s else NaN
  | _, _ => NaN
  end.

Definition opp (x : double) : double :=
  match x with
  | Finite a => Finite (Qred (- a))
  | Infinite s => Infinite (negb s)
  | NaN => NaN
  end.

Definition sub (x y : double) : double := add x (opp y).

(** [x > 0] and [x === 0] *)
Definition positive (x : double) : bool :=
  match x with
  | Finite a => negb (Qle_bool a 0)
  | Infinite s => negb s
  | NaN => false
  end.

Definition isZero (x : double) : bool :=
  match x with
  | Finite a => Qeq_bool a 0
  | _ => false
  end.

(** The double that the hardware arithmetic of Rocq's primitive floats
    gives, for comparing [round] with it. *)
Definition ofSpec (f : SpecFloat.spec_float) : double :=
  match f with
  | SpecFloat.S754_zero _ => Finite 0
  | SpecFloat.S754_infinity s => Infinite s
  | SpecFloat.S754_nan => NaN
  | SpecFloat.S754_finite s m e =>
      Finite (Qred ((if s then -1 else 1) * inject_Z (Zpos m) * 2 ^ e))
  end.

Definition ofPrim (f : PrimFloat.float) : double := ofSpec (FloatOps.Prim2SF f).

Definition hardware (z : Z) : PrimFloat.float :=
  PrimFloat.of_uint63 (Uint63.of_Z z).

End Binary64.

(** The progress as line 162 computes it,
    [(timeLeft / originalTime) * 100] on doubles: the quotient is rounded
    and then the product.  [progress] above is the exact value of the
    same formula. *)
Definition progress64 (s : State) : Binary64.double :=
  match timeLeft s with
  | Some t =>
      Binary64.mul
        (Binary64.div (Binary64.Finite (inject_Z t))
                      (Binary64.Finite (inject_Z (originalTime s))))
        (Binary64.Finite 100)
  | None => Binary64.Finite 100
  end.

(** ** The component on a selection that is not of whole numbers

    The loader hands over whatever numbers the stored record holds, and
    [useState] takes them.  The handlers and the countdown effect are the
    same code; here their cells hold doubles, and the passes after a
    state change are folded into [settle]: the cleanup of the countdown
    effect clears the interval, and the effect creates one, completes the
    run, or does neither.  [ticking] says whether an interval is
    active. *)

Module Loaded.
Import Binary64.

Record State := mkState {
  minutes : double;
  seconds : double;
  timeLeft : option double;       (* [None] is [null] *)
  running : bool;
  originalTime : double;
  ticking : bool
}.

Definition initialState (savedMinutes savedSeconds : double) : State :=
  mkState savedMinutes savedSeconds None false (Finite 60) false.

Definition positive_time (t : option double) : bool :=
  match t with Some x => positive x | None => false end.

Definition zero_time (t : option double) : bool :=
  match t with Some x => isZero x | None => false end.

(** The countdown effect, after its cleanup, until nothing changes. *)
Definition settle (s : State) : State :=
  if running s && positive_time (timeLeft s) then
    mkState (minutes s) (seconds s) (timeLeft s) (running s) (originalTime s) true
  else if zero_time (timeLeft s) && running s then
    mkState (minutes s) (seconds s) (timeLeft s) false (originalTime s) false
  else
    mkState (minutes s) (seconds s) (timeLeft s) (running s) (originalTime s) false.

Definition startTimer (s : State) : State :=
  let totalSeconds := add (mul (minutes s) (Finite 60)) (seconds s) in
  if positive totalSeconds then
    mkState (minutes s) (seconds s) (Some totalSeconds) true totalSeconds (ticking s)
  else s.

Definition startDisabled (s : State) : bool :=
  running s || (isZero (minutes s) && isZero (seconds s)).

(** The passes run only after a state that changed; React compares
    with [Object.is]. *)
Definition same (x y : double) : bool :=
  match x, y with
  | Finite a, Finite b => Qeq_bool a b
  | Infinite s, Infinite s' => Bool.eqb s s'
  | NaN, NaN => true
  | _, _ => false
  end.

Definition clickStart (s : State) : State :=
  if startDisabled s then s
  else if positive (add (mul (minutes s) (Finite 60)) (seconds s))
       then settle (startTimer s)
       else s.

(** [setTimeLeft((prev) => prev - 1)]; [null - 1] is [-1]. *)
Definition decrement (prev : option double) : option double :=
  match prev with
  | Some x => Some (sub x (Finite 1))
  | None => Some (Finite (-1))
  end.

(** One second passes: the interval, when one is active, fires once. *)
Definition secondElapsed (s : State) : State :=
  if ticking s then
    match timeLeft s, decrement (timeLeft s) with
    | Some x, Some y =>
        if same x y then s
        else settle (mkState (minutes s) (seconds s) (Some y) (running s)
                       (originalTime s) (ticking s))
    | _, t =>
        settle (mkState (minutes s) (seconds s) t (running s)
                  (originalTime s) (ticking s))
    end
  else s.

Fixpoint secondsElapsed (n : nat) (s : State) : State :=
  match n with
  | O => s
  | S k => secondsElapsed k (secondElapsed s)
  end.

Definition progress (s : State) : double :=
  match timeLeft s with
  | Some t => mul (div t (originalTime s)) (Finite 100)
  | None => Finite 100
  end.

(** The page loads on a record whose two parts are numbers. *)
Definition load (ls : Storage) : option State :=
  match snd (getSavedTimerState ls) with
  | Ret (JSON.Num m, JSON.Num s) => Some (initialState (ofQ m) (ofQ s))
  | _ => None
  end.

End Loaded.

(** The record [{"minutes":0,"seconds":1.5}]. *)
Definition fractionRecord : string :=
  "{" +:+ JSON.quoted "minutes" +:+ ":0," +:+ JSON.quoted "seconds" +:+ ":1.5}".

(** * Properties *)

(** ** One pass of rendering and effects *)

Arguments commit : simpl never.

Lemma commit_S n prev w :
  commit (S n) prev w =
  if bool_decide (state w = prev) then (w, [])
  else match render (platform w) (state w) with
       | Throw _ => (unmount w, [])
       | Ret _ =>
           let w0 := if countdownDepsChanged prev (state w)
                     then countdownCleanup w else w in
           let '(w1, e1) := if selectionChanged prev (state w)
                            then runSave w0 else (w0, []) in
           let '(w2, e2) := if countdownDepsChanged prev (state w)
                            then countdownEffect w1 else (w1, []) in
           let '(w3, e3) := commit n (state w) w2 in
           (w3, e1 ++ e2 ++ e3)
       end.
Proof. reflexivity. Qed.

Lemma commit_same n prev w : state w = prev -> commit n prev w = (w, []).
Proof.
  intros H. destruct n; [reflexivity|]; rewrite commit_S.
  rewrite bool_decide_eq_true_2; auto.
Qed.

Lemma cleanup_state w : state (countdownCleanup w) = state w.
Proof. unfold countdownCleanup. destruct (timerIntervalRef w); reflexivity. Qed.

Lemma filter_single (id : positive) : filter (fun i => i <> id) [id] = [].
Proof.
  rewrite filter_cons. destruct (decide (id <> id)); [congruence|reflexivity].
Qed.

Lemma cleanup_setState w s' :
  intervals w = match timerIntervalRef w with Some id => [id] | None => [] end ->
  countdownCleanup (setState w s') = idleWith w s'.
Proof.
  intros Hi. unfold countdownCleanup, idleWith. simpl.
  destruct (timerIntervalRef w) as [id|] eqn:E; simpl.
  - unfold clearRef, clearInterval; simpl. rewrite Hi, filter_single. reflexivity.
  - unfold setState. rewrite E, Hi. reflexivity.
Qed.

Lemma notifyUser_idleWith w s :
  isMobile s = isMobile (state w) -> notifyUser (idleWith w s) = notifyUser w.
Proof. intros H. unfold notifyUser. simpl. rewrite H. reflexivity. Qed.

Lemma render_mobile p s s' :
  isMobile s' = isMobile s -> render p s' = render p s.
Proof. intros H. unfold render. rewrite H. reflexivity. Qed.

Lemma countdownEffect_idle w :
  running (state w) = false -> countdownEffect w = (w, []).
Proof.
  intros H. unfold countdownEffect. rewrite H, andb_false_r. reflexivity.
Qed.

Lemma countdownEffect_counting w :
  running (state w) = true -> positive_time (timeLeft (state w)) = true ->
  timerIntervalRef w = None ->
  countdownEffect w = (setIntervalRef w, []).
Proof.
  intros H1 H2 H3. unfold countdownEffect. rewrite H1, H2, H3. reflexivity.
Qed.

Lemma countdownEffect_zero w :
  running (state w) = true -> timeLeft (state w) = Some 0 ->
  countdownEffect w =
  (setState w (setRunning false (state w)), NotifyUserCalled :: notifyUser w).
Proof.
  intros H1 H2. unfold countdownEffect. rewrite H1, H2. reflexivity.
Qed.

Section Update.
Variable w : Timer.
Variable f : State -> State.
Hypothesis Hwf : wf w.
Let s' := f (state w).
Hypothesis Hmin : minutes s' = minutes (state w).
Hypothesis Hsec : seconds s' = seconds (state w).
Hypothesis Hmob : isMobile s' = isMobile (state w).
Hypothesis Hdeps : countdownDepsChanged (state w) s' = true.

Lemma update_pass :
  update f w =
  let '(w2, e2) := countdownEffect (idleWith w s') in
  let '(w3, e3) := commit 49 s' w2 in (w3, e2 ++ e3).
Proof.
  unfold update, maxUpdateDepth. rewrite commit_S. simpl state. fold s'.
  rewrite bool_decide_eq_false_2.
  2:{ intros E. unfold countdownDepsChanged in Hdeps. rewrite E in Hdeps.
      rewrite bool_decide_eq_true_2 in Hdeps; [discriminate | auto]. }
  simpl platform. rewrite (render_mobile _ _ _ Hmob), (wf_render _ Hwf).
  unfold selectionChanged. rewrite bool_decide_eq_true_2 by auto. simpl negb. cbv iota.
  rewrite Hdeps. rewrite cleanup_setState by apply (wf_intervals _ Hwf).
  reflexivity.
Qed.

Lemma update_counting :
  running s' = true -> positive_time (timeLeft s') = true ->
  update f w = (countingWith w s', []).
Proof.
  intros Hr Hp. rewrite update_pass.
  rewrite countdownEffect_counting by (try reflexivity; assumption).
  rewrite commit_same by reflexivity. reflexivity.
Qed.

Lemma update_idle :
  running s' = false -> update f w = (idleWith w s', []).
Proof.
  intros Hr. rewrite update_pass.
  rewrite countdownEffect_idle by assumption.
  rewrite commit_same by reflexivity. reflexivity.
Qed.

Lemma update_completes :
  running s' = true -> timeLeft s' = Some 0 ->
  update f w = (idleWith w (setRunning false s'), NotifyUserCalled :: notifyUser w).
Proof.
  intros Hr Ht. rewrite update_pass.
  rewrite countdownEffect_zero by assumption.
  rewrite notifyUser_idleWith by exact Hmob.
  change 49%nat with (S 48). rewrite commit_S. simpl state.
  rewrite bool_decide_eq_false_2.
  2:{ intros E. apply (f_equal running) in E. simpl in E. rewrite Hr in E. discriminate. }
  simpl platform.
  rewrite (render_mobile _ (state w)) by (simpl; exact Hmob). rewrite (wf_render _ Hwf).
  unfold selectionChanged. rewrite bool_decide_eq_true_2 by (simpl; auto). simpl negb. cbv iota.
  unfold countdownDepsChanged. rewrite bool_decide_eq_false_2.
  2:{ simpl. rewrite Hr. intros [E _]. discriminate. }
  simpl negb. cbv iota.
  rewrite countdownEffect_idle by reflexivity.
  rewrite commit_same by reflexivity.
  simpl. rewrite app_nil_r. reflexivity.
Qed.
End Update.

Lemma update_selection w f :
  wf w ->
  selectionChanged (state w) (f (state w)) = true ->
  countdownDepsChanged (state w) (f (state w)) = false ->
  update f w = runSave (setState w (f (state w))).
Proof.
  intros Hwf Hsel Hdeps.
  assert (Hmob : isMobile (f (state w)) = isMobile (state w)).
  { unfold countdownDepsChanged in Hdeps. apply negb_false_iff in Hdeps.
    apply bool_decide_eq_true_1 in Hdeps. symmetry. apply Hdeps. }
  unfold update, maxUpdateDepth. rewrite commit_S. simpl state.
  rewrite bool_decide_eq_false_2.
  2:{ intros E. unfold selectionChanged in Hsel. rewrite E in Hsel.
      rewrite bool_decide_eq_true_2 in Hsel; [discriminate | auto]. }
  simpl platform. rewrite (render_mobile _ _ _ Hmob), (wf_render _ Hwf).
  rewrite Hsel, Hdeps. cbv zeta.
  destruct (runSave (setState w (f (state w)))) as [w1 e1] eqn:E.
  assert (Hst : state w1 = f (state w)).
  { unfold runSave in E. destruct (saveSettings _ _ _) as [lg r]. inversion E. reflexivity. }
  rewrite commit_same by exact Hst. rewrite !app_nil_r. reflexivity.
Qed.

(** ** The invariant *)

Lemma wf_countingWith w s :
  wf w -> running s = true -> timeOk s = true -> 0 < originalTime s ->
  isMobile s = isMobile (state w) ->
  minutes s = minutes (state w) -> seconds s = seconds (state w) ->
  wf (countingWith w s).
Proof.
  intros Hwf Hr Ht Ho Hm Hmin Hsec. constructor; simpl; auto.
  - apply (wf_mounted _ Hwf).
  - rewrite Hm. apply (wf_agent _ Hwf).
  - rewrite (render_mobile _ _ _ Hm). apply (wf_render _ Hwf).
  - rewrite Hmin, Hsec. apply (wf_exact _ Hwf).
  - intros Hw. unfold savedText. simpl. rewrite Hmin, Hsec. apply (wf_saved _ Hwf Hw).
Qed.

Lemma wf_idleWith w s :
  wf w -> running s = false -> timeOk s = true -> 0 < originalTime s ->
  isMobile s = isMobile (state w) ->
  minutes s = minutes (state w) -> seconds s = seconds (state w) ->
  wf (idleWith w s).
Proof.
  intros Hwf Hr Ht Ho Hm Hmin Hsec. constructor; simpl; auto.
  - apply (wf_mounted _ Hwf).
  - rewrite Hm. apply (wf_agent _ Hwf).
  - rewrite (render_mobile _ _ _ Hm). apply (wf_render _ Hwf).
  - rewrite Hmin, Hsec. apply (wf_exact _ Hwf).
  - intros Hw. unfold savedText. simpl. rewrite Hmin, Hsec. apply (wf_saved _ Hwf Hw).
Qed.

Lemma wf_idle_shape w :
  wf w -> running (state w) = false ->
  timerIntervalRef w = None /\ intervals w = [] /\
  (timeLeft (state w) = None \/ timeLeft (state w) = Some 0).
Proof.
  intros Hwf Hr. pose proof (wf_active _ Hwf) as Ha. rewrite Hr in Ha.
  destruct (timerIntervalRef w) eqn:E; [discriminate|].
  pose proof (wf_intervals _ Hwf) as Hi. rewrite E in Hi.
  pose proof (wf_time _ Hwf) as Ht. unfold timeOk in Ht. rewrite Hr in Ht.
  repeat split; auto.
  destruct (timeLeft (state w)); [right | left; reflexivity].
  apply Z.eqb_eq in Ht. congruence.
Qed.

Lemma wf_counting_shape w :
  wf w -> running (state w) = true ->
  exists id t, timerIntervalRef w = Some id /\ intervals w = [id] /\
               timeLeft (state w) = Some t /\ 1 <= t <= originalTime (state w).
Proof.
  intros Hwf Hr. pose proof (wf_active _ Hwf) as Ha. rewrite Hr in Ha.
  destruct (timerIntervalRef w) as [id|] eqn:E; [|discriminate].
  pose proof (wf_intervals _ Hwf) as Hi. rewrite E in Hi.
  pose proof (wf_time _ Hwf) as Ht. unfold timeOk in Ht. rewrite Hr in Ht.
  destruct (timeLeft (state w)) as [t|]; [|discriminate].
  exists id, t. repeat split; auto; apply andb_true_iff in Ht as [H1 H2]; lia.
Qed.

Lemma idle_eq w :
  wf w -> running (state w) = false -> idleWith w (state w) = w.
Proof.
  intros Hwf Hr. destruct (wf_idle_shape w Hwf Hr) as (Href & Hi & _).
  unfold idleWith. rewrite <- Href, <- Hi. destruct w; reflexivity.
Qed.

(** ** What each event does to a well-formed component *)

Lemma State_eta s :
  mkState (minutes s) (seconds s) (timeLeft s) (running s) (originalTime s) (isMobile s) = s.
Proof. destruct s; reflexivity. Qed.

Lemma update_same w f : f (state w) = state w -> update f w = (w, []).
Proof.
  intros H. unfold update. rewrite commit_same by (simpl; exact H).
  rewrite H. destruct w; reflexivity.
Qed.

Lemma startTimer_positive s :
  0 < minutes s * 60 + seconds s ->
  startTimer s =
  mkState (minutes s) (seconds s) (Some (minutes s * 60 + seconds s)) true
          (minutes s * 60 + seconds s) (isMobile s).
Proof.
  intros H. unfold startTimer. apply Z.ltb_lt in H. rewrite H. reflexivity.
Qed.

Lemma startTimer_nonpositive s :
  minutes s * 60 + seconds s <= 0 -> startTimer s = s.
Proof.
  intros H. unfold startTimer. apply Z.ltb_ge in H. rewrite H. reflexivity.
Qed.

Lemma invokeStart_idle w :
  wf w -> running (state w) = false ->
  0 < minutes (state w) * 60 + seconds (state w) ->
  invokeStart w = (countingWith w (startTimer (state w)), []).
Proof.
  intros Hwf Hr Htot. unfold invokeStart.
  apply update_counting; auto; rewrite (startTimer_positive _ Htot); simpl; auto.
  - unfold countdownDepsChanged. simpl. rewrite Hr.
    rewrite bool_decide_eq_false_2; [reflexivity | intros [E _]; discriminate].
  - apply Z.ltb_lt. exact Htot.
Qed.

Lemma clickStart_idle w :
  wf w -> running (state w) = false ->
  0 < minutes (state w) * 60 + seconds (state w) ->
  step ClickStart w = (countingWith w (startTimer (state w)), []).
Proof.
  intros Hwf Hr Htot. unfold step. rewrite (wf_mounted _ Hwf). simpl negb. cbv iota.
  unfold startDisabled. rewrite Hr. simpl orb.
  destruct ((minutes (state w) =? 0) && (seconds (state w) =? 0)) eqn:E.
  - apply andb_true_iff in E as [E1 E2]. apply Z.eqb_eq in E1, E2. lia.
  - apply invokeStart_idle; assumption.
Qed.

Lemma invokeStop_result w :
  wf w ->
  invokeStop w = (idleWith w (stopTimer (state w)), stopAudio w).
Proof.
  intros Hwf. unfold invokeStop.
  destruct (running (state w)) eqn:Hr.
  - rewrite update_idle; auto.
    + rewrite app_nil_r. reflexivity.
    + unfold countdownDepsChanged. simpl. rewrite Hr.
      rewrite bool_decide_eq_false_2; [reflexivity | intros [E _]; discriminate].
  - destruct (wf_idle_shape w Hwf Hr) as (Href & Hi & [Ht | Ht]).
    + rewrite update_same.
      * rewrite app_nil_r. f_equal. unfold stopTimer, setTimeLeft, setRunning. simpl.
        rewrite <- Hr, <- Ht, State_eta. symmetry. apply idle_eq; assumption.
      * unfold stopTimer, setTimeLeft, setRunning. simpl.
        rewrite <- Hr, <- Ht. apply State_eta.
    + rewrite update_idle; auto.
      * rewrite app_nil_r. reflexivity.
      * unfold countdownDepsChanged. simpl. rewrite Hr, Ht.
        rewrite bool_decide_eq_false_2; [reflexivity | intros (_ & E & _); discriminate].
Qed.

Lemma fires_unfold w id :
  wf w -> timerIntervalRef w = Some id ->
  secondElapsed w = update (fun s => setTimeLeft (decrement (timeLeft s)) s) w.
Proof.
  intros Hwf Href. pose proof (wf_intervals _ Hwf) as Hi. rewrite Href in Hi.
  unfold secondElapsed. rewrite Hi. simpl map. unfold run, step.
  rewrite (wf_mounted _ Hwf). simpl negb. cbv iota.
  rewrite bool_decide_eq_true_2 by (rewrite Hi; apply list_elem_of_singleton; reflexivity).
  destruct (update _ w) as [w1 e1]. rewrite app_nil_r. reflexivity.
Qed.

Lemma second_counting w t :
  wf w -> running (state w) = true -> timeLeft (state w) = Some t -> 1 < t ->
  secondElapsed w = (countingWith w (setTimeLeft (Some (t - 1)) (state w)), []).
Proof.
  intros Hwf Hr Ht Hlt.
  destruct (wf_counting_shape w Hwf Hr) as (id & t' & Href & _).
  rewrite (fires_unfold w id Hwf Href).
  rewrite update_counting; auto; rewrite ?Ht; simpl; auto.
  - unfold countdownDepsChanged. simpl. rewrite Ht.
    rewrite bool_decide_eq_false_2; [reflexivity | intros (_ & E & _); inversion E; lia].
  - apply Z.ltb_lt. lia.
Qed.

Lemma second_last w :
  wf w -> running (state w) = true -> timeLeft (state w) = Some 1 ->
  secondElapsed w =
  (idleWith w (setRunning false (setTimeLeft (Some 0) (state w))),
   NotifyUserCalled :: notifyUser w).
Proof.
  intros Hwf Hr Ht.
  destruct (wf_counting_shape w Hwf Hr) as (id & t' & Href & _).
  rewrite (fires_unfold w id Hwf Href).
  rewrite update_completes; auto; rewrite ?Ht; simpl; auto.
  unfold countdownDepsChanged. simpl. rewrite Ht.
  rewrite bool_decide_eq_false_2; [reflexivity | intros (_ & E & _); discriminate].
Qed.

Lemma second_idle w :
  wf w -> running (state w) = false -> secondElapsed w = (w, []).
Proof.
  intros Hwf Hr. destruct (wf_idle_shape w Hwf Hr) as (_ & Hi & _).
  unfold secondElapsed. rewrite Hi. reflexivity.
Qed.

(** ** Saving the selection *)

Lemma runSave_writable w :
  writable (localStorage w) = true ->
  runSave w =
  (setStorage w (mkStorage (readable (localStorage w)) true
                   (<[settingsKey := savedText w]> (items (localStorage w)))), []).
Proof.
  intros H. unfold runSave, saveSettings, setItem, lift, try_catch. rewrite H.
  reflexivity.
Qed.

Lemma runSave_readonly w :
  writable (localStorage w) = false ->
  runSave w = (w, [ConsoleError "Error saving timer state:"]).
Proof.
  intros H. unfold runSave, saveSettings, setItem, lift, try_catch. rewrite H.
  simpl. destruct w; reflexivity.
Qed.

Lemma wf_runSave w s :
  wf w -> running s = false -> timeLeft s = timeLeft (state w) ->
  originalTime s = originalTime (state w) -> isMobile s = isMobile (state w) ->
  running (state w) = false ->
  exact (minutes s) && exact (seconds s) = true ->
  wf (fst (runSave (setState w s))).
Proof.
  intros Hwf Hr Ht Ho Hm Hr0 Hex.
  assert (Hok : timeOk s = true).
  { pose proof (wf_time _ Hwf) as H. unfold timeOk in *. rewrite Hr, Ht. rewrite Hr0 in H. exact H. }
  destruct (writable (localStorage w)) eqn:Hw.
  - rewrite runSave_writable by exact Hw. simpl.
    constructor; simpl; auto; try apply Hwf.
    + rewrite Hr, <- Hr0. apply Hwf.
    + rewrite Ho. apply Hwf.
    + rewrite Hm. apply Hwf.
    + rewrite (render_mobile _ _ _ Hm). apply Hwf.
    + intros _. apply lookup_insert_eq.
  - rewrite runSave_readonly by exact Hw. simpl.
    constructor; simpl; auto; try apply Hwf.
    + rewrite Hr, <- Hr0. apply Hwf.
    + rewrite Ho. apply Hwf.
    + rewrite Hm. apply Hwf.
    + rewrite (render_mobile _ _ _ Hm). apply Hwf.
    + intros H. rewrite Hw in H. discriminate.
Qed.

Lemma update_setMinutes w v :
  wf w -> running (state w) = false ->
  update (setMinutes v) w =
  if bool_decide (v = minutes (state w)) then (w, [])
  else runSave (setState w (setMinutes v (state w))).
Proof.
  intros Hwf Hr. case_bool_decide as E.
  - apply update_same. subst v. apply State_eta.
  - apply update_selection; auto.
    + unfold selectionChanged. simpl.
      rewrite bool_decide_eq_false_2; [reflexivity | intros [E' _]; congruence].
    + unfold countdownDepsChanged. simpl. rewrite bool_decide_eq_true_2; auto.
Qed.

Lemma update_setSeconds w v :
  wf w -> running (state w) = false ->
  update (setSeconds v) w =
  if bool_decide (v = seconds (state w)) then (w, [])
  else runSave (setState w (setSeconds v (state w))).
Proof.
  intros Hwf Hr. case_bool_decide as E.
  - apply update_same. subst v. apply State_eta.
  - apply update_selection; auto.
    + unfold selectionChanged. simpl.
      rewrite bool_decide_eq_false_2; [reflexivity | intros [_ E']; congruence].
    + unfold countdownDepsChanged. simpl. rewrite bool_decide_eq_true_2; auto.
Qed.

(** ** Every event keeps the component well formed *)

Lemma option_exact max i o :
  0 <= max <= 59 -> generateOptions max !! i = Some o -> exact (value o) = true.
Proof.
  intros Hmax H. unfold generateOptions in H.
  rewrite list_lookup_fmap in H.
  destruct (seq 0 (Z.to_nat (max + 1)) !! i) as [k|] eqn:E; [|discriminate].
  apply lookup_seq in E as [-> Hlt]. injection H as <-. simpl.
  unfold exact. apply Z.leb_le. change (2 ^ 46) with 70368744177664. lia.
Qed.

Lemma wf_step ev w : wf w -> wf (fst (step ev w)).
Proof.
  intros Hwf. unfold step. rewrite (wf_mounted _ Hwf). simpl negb. cbv iota.
  destruct ev.
  - (* ClickStart *)
    unfold startDisabled.
    destruct (running (state w)) eqn:Hr; [exact Hwf|]. simpl orb.
    destruct ((minutes (state w) =? 0) && (seconds (state w) =? 0)); [exact Hwf|].
    destruct (Z_lt_le_dec 0 (minutes (state w) * 60 + seconds (state w))) as [Hp | Hn].
    + rewrite invokeStart_idle by assumption. simpl fst.
      rewrite (startTimer_positive _ Hp).
      apply wf_countingWith; auto; simpl; auto.
      unfold timeOk. simpl. apply andb_true_iff. split; [apply Z.ltb_lt | apply Z.leb_le]; lia.
    + unfold invokeStart. rewrite update_same by (apply startTimer_nonpositive; exact Hn).
      exact Hwf.
  - (* ClickStop *)
    unfold stopDisabled. destruct (running (state w)) eqn:Hr; [|exact Hwf]. simpl negb. cbv iota.
    rewrite invokeStop_result by assumption. simpl fst.
    apply wf_idleWith; auto. apply Hwf.
  - (* PickMinutes *)
    unfold selectDisabled. destruct (running (state w)) eqn:Hr; [exact Hwf|].
    unfold pick. destruct (minuteOptions !! i) as [o|] eqn:Ho; [|exact Hwf].
    rewrite update_setMinutes by assumption.
    case_bool_decide; [exact Hwf|]. apply wf_runSave; auto. simpl.
    pose proof (wf_exact _ Hwf) as Hex. apply andb_true_iff in Hex as [_ Hex].
    rewrite Hex, andb_true_r. apply (option_exact 10 i o); [lia | exact Ho].
  - (* PickSeconds *)
    unfold selectDisabled. destruct (running (state w)) eqn:Hr; [exact Hwf|].
    unfold pick. destruct (secondOptions !! i) as [o|] eqn:Ho; [|exact Hwf].
    rewrite update_setSeconds by assumption.
    case_bool_decide; [exact Hwf|]. apply wf_runSave; auto. simpl.
    pose proof (wf_exact _ Hwf) as Hex. apply andb_true_iff in Hex as [Hex _].
    rewrite Hex. apply (option_exact 59 i o); [lia | exact Ho].
  - (* IntervalFires *)
    case_bool_decide as Hin; [|exact Hwf].
    destruct (running (state w)) eqn:Hr.
    + destruct (wf_counting_shape w Hwf Hr) as (id' & t & Href & Hi & Ht & Hb).
      rewrite <- (fires_unfold w id' Hwf Href).
      destruct (Z.eq_dec t 1) as [-> | Hne].
      * rewrite second_last by assumption. simpl fst.
        apply wf_idleWith; auto. apply Hwf.
      * rewrite (second_counting w t) by (auto; lia). simpl fst.
        apply wf_countingWith; auto; simpl; auto; [|apply Hwf].
        unfold timeOk. simpl. rewrite Hr.
        apply andb_true_iff. split; [apply Z.ltb_lt | apply Z.leb_le]; lia.
    + destruct (wf_idle_shape w Hwf Hr) as (_ & Hi & _). rewrite Hi in Hin.
      apply elem_of_nil in Hin. contradiction.
  - (* Resize *)
    rewrite update_same; [exact Hwf|].
    unfold setIsMobile. rewrite <- (wf_agent _ Hwf). apply State_eta.
  - (* PermissionChanges *)
    simpl fst. destruct Hwf. constructor; auto.
  - (* AutoplayChanges *)
    simpl fst. destruct Hwf. constructor; auto.
Qed.

Lemma wf_run evs : forall w, wf w -> wf (fst (run evs w)).
Proof.
  induction evs as [|ev evs IH]; intros w Hwf; [exact Hwf|].
  simpl. pose proof (wf_step ev w Hwf) as H1.
  destruct (step ev w) as [w1 e1]. simpl in H1.
  pose proof (IH w1 H1) as H2. destruct (run evs w1) as [w2 e2]. exact H2.
Qed.

Lemma wf_secondElapsed w : wf w -> wf (fst (secondElapsed w)).
Proof. intros Hwf. apply wf_run. exact Hwf. Qed.

Lemma wf_secondsElapsed n : forall w, wf w -> wf (fst (secondsElapsed n w)).
Proof.
  induction n as [|n IH]; intros w Hwf; [exact Hwf|].
  simpl. pose proof (wf_secondElapsed w Hwf) as H1.
  destruct (secondElapsed w) as [w1 e1]. simpl in H1.
  pose proof (IH w1 H1) as H2. destruct (secondsElapsed n w1) as [w2 e2]. exact H2.
Qed.

(** ** Mounting *)

Lemma mount_result p ls m s :
  mount p ls m s =
  let '(w1, eSave) := runSave (mkTimer (initialState m s) None true [] 1%positive ls p true) in
  let ePerm := if hasNotification p && negb (bool_decide (permission p = PermGranted))
                  && negb (bool_decide (permission p = PermDenied))
               then [RequestPermission] else [] in
  if mobileAgent p then
    if hasNotification p
    then (setState w1 (setIsMobile true (state w1)), ePerm ++ eSave)
    else (unmount (setState w1 (setIsMobile true (state w1))), ePerm ++ eSave)
  else (w1, ePerm ++ eSave).
Proof.
  unfold mount.
  set (w0 := mkTimer (initialState m s) None true [] 1%positive ls p true).
  assert (Hs : forall w1 e, runSave w0 = (w1, e) ->
               state w1 = initialState m s /\ timerIntervalRef w1 = None /\
               platform w1 = p /\ intervals w1 = []).
  { intros w1 e H. unfold runSave in H. destruct (saveSettings _ _ _) as [lg r].
    inversion H. subst. simpl. auto. }
  destruct (runSave w0) as [w1 eSave] eqn:E.
  destruct (Hs w1 eSave eq_refl) as (Hst & Href & Hp & Hi).
  rewrite countdownEffect_idle by (rewrite Hst; reflexivity).
  destruct (mobileAgent p) eqn:Hma.
  - unfold update, maxUpdateDepth. rewrite commit_S. simpl state.
    rewrite bool_decide_eq_false_2 by (rewrite Hst; discriminate).
    simpl platform. rewrite Hp. unfold render at 1. simpl isMobile.
    destruct (hasNotification p) eqn:Hn; simpl andb; cbv iota.
    + unfold selectionChanged. rewrite bool_decide_eq_true_2 by (simpl; auto).
      simpl negb. cbv iota.
      unfold countdownDepsChanged. rewrite bool_decide_eq_false_2.
      2:{ rewrite Hst. simpl. intros (_ & _ & E'). discriminate. }
      simpl negb. cbv iota.
      assert (Hc : countdownCleanup (setState w1 (setIsMobile true (state w1)))
                   = setState w1 (setIsMobile true (state w1))).
      { unfold countdownCleanup. simpl. rewrite Href. reflexivity. }
      rewrite Hc. rewrite countdownEffect_idle by (simpl; rewrite Hst; reflexivity).
      rewrite commit_same by reflexivity.
      simpl app. rewrite ?app_nil_r. reflexivity.
    + simpl app. rewrite ?app_nil_r. reflexivity.
  - rewrite update_same.
    + simpl app. rewrite ?app_nil_r. reflexivity.
    + rewrite Hst. reflexivity.
Qed.

Lemma mount_unmounted p ls m s :
  mobileAgent p = true -> hasNotification p = false ->
  mounted (fst (mount p ls m s)) = false.
Proof.
  intros Hma Hn. rewrite mount_result. destruct (runSave _) as [w1 e].
  rewrite Hma, Hn. reflexivity.
Qed.

Lemma wf_mount p ls m s :
  exact m && exact s = true ->
  mounted (fst (mount p ls m s)) = true -> wf (fst (mount p ls m s)).
Proof.
  intros Hex. rewrite mount_result.
  set (w0 := mkTimer (initialState m s) None true [] 1%positive ls p true).
  assert (Hw1 : exists ls' e, runSave w0 = (setStorage w0 ls', e) /\
                 (writable ls' = true ->
                  items ls' !! settingsKey = Some (JSON.stringify_settings m s))).
  { destruct (writable ls) eqn:Hw.
    - eexists _, _. split; [apply runSave_writable; exact Hw|].
      intros _. simpl. apply lookup_insert_eq.
    - exists ls, [ConsoleError "Error saving timer state:"].
      split; [rewrite runSave_readonly by exact Hw; reflexivity|].
      intros H. simpl in Hw. congruence. }
  destruct Hw1 as (ls' & e & -> & Hsaved).
  destruct (mobileAgent p) eqn:Hma; [destruct (hasNotification p) eqn:Hn|]; simpl fst.
  - intros _. constructor; simpl; auto; try lia.
    unfold render. simpl. rewrite Hn. reflexivity.
  - simpl. discriminate.
  - intros _. constructor; simpl; auto; lia.
Qed.

Theorem reachable_wf w : reachable w -> wf w.
Proof.
  induction 1 as [p ls m s Hex Hm | w ev _ IH].
  - apply wf_mount; assumption.
  - apply wf_step. exact IH.
Qed.

(** ** The countdown *)

Ltac wf_by_evaluation :=
  constructor;
  [ vm_compute; reflexivity | vm_compute; reflexivity | vm_compute; reflexivity
  | vm_compute; reflexivity | vm_compute; reflexivity | vm_compute; reflexivity
  | vm_compute; reflexivity | vm_compute; reflexivity
  | intros _; vm_compute; reflexivity ].

Lemma completions_notifyUser w : completions (notifyUser w) = 0%nat.
Proof.
  unfold notifyUser.
  destruct (hasNotification (platform w) && _), (hasVibrate (platform w) && _),
    (audioRef w), (playRejects (platform w)); reflexivity.
Qed.

Lemma completions_app a b :
  completions (a ++ b) = (completions a + completions b)%nat.
Proof. unfold completions. rewrite List.filter_app, length_app. reflexivity. Qed.

Lemma completions_entered l : completions (NotifyUserCalled :: l) = S (completions l).
Proof. reflexivity. Qed.

Lemma countdown n :
  forall w t,
    wf w -> running (state w) = true -> timeLeft (state w) = Some t ->
    Z.of_nat n <= t ->
    let w' := fst (secondsElapsed n w) in
    timeLeft (state w') = Some (t - Z.of_nat n) /\
    originalTime (state w') = originalTime (state w) /\
    running (state w') = (Z.of_nat n <? t) /\
    completions (snd (secondsElapsed n w)) = if Z.of_nat n <? t then 0%nat else 1%nat.
Proof.
  induction n as [|n IH]; intros w t Hwf Hr Ht Hn.
  - destruct (wf_counting_shape w Hwf Hr) as (_ & t' & _ & _ & Ht' & Hb).
    assert (t' = t) by congruence. subst t'.
    cbn [secondsElapsed fst snd]. change (Z.of_nat 0) with 0. rewrite Z.sub_0_r.
    assert (H : (0 <? t) = true) by (apply Z.ltb_lt; lia).
    rewrite H. auto.
  - destruct (wf_counting_shape w Hwf Hr) as (_ & t' & _ & _ & Ht' & Hb).
    assert (t' = t) by congruence. subst t'.
    cbn [secondsElapsed].
    destruct (Z.eq_dec t 1) as [-> | Hne].
    + assert (n = 0)%nat by lia. subst n.
      rewrite second_last by assumption. cbn [secondsElapsed fst snd].
      rewrite app_nil_r, completions_entered, completions_notifyUser.
      simpl. auto.
    + pose proof (second_counting w t Hwf Hr Ht ltac:(lia)) as Hs.
      pose proof (wf_secondElapsed w Hwf) as Hwf1.
      rewrite Hs in *. simpl fst in Hwf1.
      specialize (IH (countingWith w (setTimeLeft (Some (t - 1)) (state w))) (t - 1) Hwf1).
      simpl in IH. specialize (IH Hr eq_refl ltac:(lia)).
      destruct (secondsElapsed n _) as [w2 e2]. cbn [fst snd] in *.
      destruct IH as (I1 & I2 & I3 & I4).
      rewrite Nat2Z.inj_succ.
      replace (t - Z.succ (Z.of_nat n)) with (t - 1 - Z.of_nat n) by lia.
      replace (Z.succ (Z.of_nat n) <? t) with (Z.of_nat n <? t - 1).
      2:{ destruct (Z.ltb_spec (Z.of_nat n) (t - 1)), (Z.ltb_spec (Z.succ (Z.of_nat n)) t); auto; lia. }
      auto.
Qed.

(** C1: from the idle state, Start on a selection whose total
    [minutes * 60 + seconds] is positive sets both the remaining time and
    the reference duration to that total and arms the countdown. *)
Theorem C1_start_sets_remaining_and_reference w :
  wf w ->
  running (state w) = false ->
  0 < minutes (state w) * 60 + seconds (state w) ->
  let total := minutes (state w) * 60 + seconds (state w) in
  let w' := fst (step ClickStart w) in
  timeLeft (state w') = Some total /\
  originalTime (state w') = total /\
  running (state w') = true.
Proof.
  intros Hwf Hr Htot total w'. subst w'.
  rewrite clickStart_idle by assumption. simpl fst.
  rewrite (startTimer_positive _ Htot). simpl. auto.
Qed.

Lemma C1_witness :
  wf (exampleTimer 7 30) /\
  running (state (exampleTimer 7 30)) = false /\
  0 < minutes (state (exampleTimer 7 30)) * 60 + seconds (state (exampleTimer 7 30)) /\
  timeLeft (state (fst (step ClickStart (exampleTimer 7 30)))) = Some 450 /\
  originalTime (state (fst (step ClickStart (exampleTimer 7 30)))) = 450 /\
  running (state (fst (step ClickStart (exampleTimer 7 30)))) = true.
Proof.
  assert (Hwf : wf (exampleTimer 7 30)) by wf_by_evaluation.
  assert (Hr : running (state (exampleTimer 7 30)) = false) by reflexivity.
  assert (Ht : 0 < minutes (state (exampleTimer 7 30)) * 60
                   + seconds (state (exampleTimer 7 30))) by (vm_compute; reflexivity).
  exact (conj Hwf (conj Hr (conj Ht
           (C1_start_sets_remaining_and_reference (exampleTimer 7 30) Hwf Hr Ht)))).
Defined.

Lemma idle_step ev w :
  wf w -> running (state w) = false -> ev <> ClickStart ->
  running (state (fst (step ev w))) = false /\ completions (snd (step ev w)) = 0%nat.
Proof.
  intros Hwf Hr Hev. unfold step. rewrite (wf_mounted _ Hwf). simpl negb. cbv iota.
  destruct ev; try congruence.
  - unfold stopDisabled. rewrite Hr. auto.
  - unfold selectDisabled. rewrite Hr. unfold pick.
    destruct (minuteOptions !! i) as [o|]; [|auto].
    rewrite update_setMinutes by assumption. case_bool_decide; [auto|].
    destruct (writable (localStorage w)) eqn:Hw.
    + rewrite runSave_writable by exact Hw. auto.
    + rewrite runSave_readonly by exact Hw. auto.
  - unfold selectDisabled. rewrite Hr. unfold pick.
    destruct (secondOptions !! i) as [o|]; [|auto].
    rewrite update_setSeconds by assumption. case_bool_decide; [auto|].
    destruct (writable (localStorage w)) eqn:Hw.
    + rewrite runSave_writable by exact Hw. auto.
    + rewrite runSave_readonly by exact Hw. auto.
  - destruct (wf_idle_shape w Hwf Hr) as (_ & Hi & _). rewrite Hi.
    rewrite bool_decide_eq_false_2 by apply not_elem_of_nil. auto.
  - rewrite update_same; [auto|].
    unfold setIsMobile. rewrite <- (wf_agent _ Hwf). apply State_eta.
  - auto.
  - auto.
Qed.

Lemma idle_run evs :
  forall w, wf w -> running (state w) = false -> ~ In ClickStart evs ->
  running (state (fst (run evs w))) = false /\ completions (snd (run evs w)) = 0%nat.
Proof.
  induction evs as [|ev evs IH]; intros w Hwf Hr Hnot; [auto|].
  cbn [run].
  assert (Hev : ev <> ClickStart) by (intros ->; apply Hnot; left; reflexivity).
  destruct (idle_step ev w Hwf Hr Hev) as [H1 H2].
  pose proof (wf_step ev w Hwf) as Hwf1.
  destruct (step ev w) as [w1 e1]. cbn [fst snd] in *.
  destruct (IH w1 Hwf1 H1 ltac:(intros H; apply Hnot; right; exact H)) as [H3 H4].
  destruct (run evs w1) as [w2 e2]. cbn [fst snd] in *.
  rewrite completions_app, H2, H4. auto.
Qed.

(** C2: when the remaining time goes from 1 to 0 while armed, the
    notification bundle runs exactly once and the countdown is disarmed at
    once; whatever happens afterwards, short of a new Start, runs it no
    second time. *)
Theorem C2_completion_fires_once w :
  wf w ->
  running (state w) = true ->
  timeLeft (state w) = Some 1 ->
  let w' := fst (secondElapsed w) in
  timeLeft (state w') = Some 0 /\
  completions (snd (secondElapsed w)) = 1%nat /\
  running (state w') = false /\
  forall evs, ~ In ClickStart evs ->
    completions (snd (run evs w')) = 0%nat /\
    running (state (fst (run evs w'))) = false.
Proof.
  intros Hwf Hr Ht w'. subst w'.
  pose proof (wf_secondElapsed w Hwf) as Hwf1.
  rewrite second_last in * by assumption. cbn [fst snd] in *.
  rewrite completions_entered, completions_notifyUser.
  repeat split; try reflexivity.
  - apply idle_run; auto.
  - apply idle_run; auto.
Qed.

Lemma C2_witness :
  let w := fst (secondsElapsed 1 (fst (step ClickStart (exampleTimer 0 2)))) in
  wf w /\ running (state w) = true /\ timeLeft (state w) = Some 1 /\
  timeLeft (state (fst (secondElapsed w))) = Some 0 /\
  completions (snd (secondElapsed w)) = 1%nat /\
  running (state (fst (secondElapsed w))) = false.
Proof.
  intros w.
  assert (Hwf : wf w) by wf_by_evaluation.
  assert (Hr : running (state w) = true) by (vm_compute; reflexivity).
  assert (Ht : timeLeft (state w) = Some 1) by (vm_compute; reflexivity).
  destruct (C2_completion_fires_once w Hwf Hr Ht) as (H1 & H2 & H3 & _).
  exact (conj Hwf (conj Hr (conj Ht (conj H1 (conj H2 H3))))).
Defined.

(** C3: while armed, a tick takes exactly 1 from the remaining time, so
    [n] uninterrupted ticks after a fresh Start with reference [R] leave
    [R - n], for every [n <= R]. *)
Theorem C3_ticks_decrement w (n : nat) :
  wf w ->
  running (state w) = false ->
  0 < minutes (state w) * 60 + seconds (state w) ->
  Z.of_nat n <= minutes (state w) * 60 + seconds (state w) ->
  let R := minutes (state w) * 60 + seconds (state w) in
  timeLeft (state (fst (secondsElapsed n (fst (step ClickStart w)))))
    = Some (R - Z.of_nat n) /\
  forall v t, wf v -> running (state v) = true -> timeLeft (state v) = Some t ->
    timeLeft (state (fst (secondElapsed v))) = Some (t - 1).
Proof.
  intros Hwf Hr Htot Hn R. split.
  - pose proof (wf_step ClickStart w Hwf) as Hwf1.
    rewrite clickStart_idle in * by assumption. cbn [fst] in *.
    rewrite (startTimer_positive _ Htot) in *.
    apply (countdown n _ R Hwf1); auto.
  - intros v t Hv Hrv Htv.
    destruct (wf_counting_shape v Hv Hrv) as (_ & t' & _ & _ & Ht' & Hb).
    assert (t' = t) by congruence. subst t'.
    destruct (Z.eq_dec t 1) as [-> | Hne].
    + rewrite second_last by assumption. reflexivity.
    + rewrite (second_counting v t) by (auto; lia). reflexivity.
Qed.

Lemma C3_witness :
  wf (exampleTimer 1 0) /\
  running (state (exampleTimer 1 0)) = false /\
  0 < minutes (state (exampleTimer 1 0)) * 60 + seconds (state (exampleTimer 1 0)) /\
  Z.of_nat 3 <= minutes (state (exampleTimer 1 0)) * 60 + seconds (state (exampleTimer 1 0)) /\
  timeLeft (state (fst (secondsElapsed 3 (fst (step ClickStart (exampleTimer 1 0))))))
    = Some 57.
Proof.
  assert (Hwf : wf (exampleTimer 1 0)) by wf_by_evaluation.
  assert (Hr : running (state (exampleTimer 1 0)) = false) by reflexivity.
  assert (Ht : 0 < minutes (state (exampleTimer 1 0)) * 60
                   + seconds (state (exampleTimer 1 0))) by (vm_compute; reflexivity).
  assert (Hn : Z.of_nat 3 <= minutes (state (exampleTimer 1 0)) * 60
                   + seconds (state (exampleTimer 1 0))) by (vm_compute; discriminate).
  exact (conj Hwf (conj Hr (conj Ht (conj Hn
           (proj1 (C3_ticks_decrement (exampleTimer 1 0) 3 Hwf Hr Ht Hn)))))).
Defined.

(** ** Stop and Start *)

Lemma runSave_state w : state (fst (runSave w)) = state w.
Proof. unfold runSave. destruct (saveSettings _ _ _) as [lg r]. reflexivity. Qed.

Lemma commit_idle n prev w :
  running (state w) = false -> state (fst (commit n prev w)) = state w.
Proof.
  intros Hr. destruct n; [reflexivity|]. rewrite commit_S.
  case_bool_decide; [reflexivity|].
  destruct (render (platform w) (state w)).
  2:{ simpl. apply cleanup_state. }
  cbv zeta.
  set (w0 := if countdownDepsChanged prev (state w) then countdownCleanup w else w).
  assert (H0 : state w0 = state w).
  { subst w0. destruct (countdownDepsChanged prev (state w));
      [apply cleanup_state | reflexivity]. }
  assert (H1 : exists w1 e1,
            (if selectionChanged prev (state w) then runSave w0 else (w0, [])) = (w1, e1)
            /\ state w1 = state w).
  { destruct (selectionChanged prev (state w)).
    - exists (fst (runSave w0)), (snd (runSave w0)). split.
      + destruct (runSave w0); reflexivity.
      + rewrite runSave_state. exact H0.
    - exists w0, []. auto. }
  destruct H1 as (w1 & e1 & -> & Hs1).
  assert (H2 : (if countdownDepsChanged prev (state w)
                then countdownEffect w1 else (w1, [])) = (w1, [])).
  { destruct (countdownDepsChanged prev (state w)); [|reflexivity].
    apply countdownEffect_idle. rewrite Hs1. exact Hr. }
  rewrite H2. rewrite commit_same by exact Hs1. cbn [fst]. exact Hs1.
Qed.

Lemma invokeStop_state w : state (fst (invokeStop w)) = stopTimer (state w).
Proof.
  unfold invokeStop, update.
  pose proof (commit_idle maxUpdateDepth (state w) (setState w (stopTimer (state w)))
                eq_refl) as H.
  destruct (commit _ _ _) as [w1 e1]. exact H.
Qed.

(** C4: [stopTimer], called in any state, disarms the countdown and
    clears the remaining time whatever it was, and calling it again
    changes nothing. *)
Theorem C4_stop_resets_and_is_idempotent (w : Timer) :
  running (state (fst (invokeStop w))) = false /\
  timeLeft (state (fst (invokeStop w))) = None /\
  fst (invokeStop (fst (invokeStop w))) = fst (invokeStop w).
Proof.
  rewrite invokeStop_state. repeat split.
  pose proof (invokeStop_state w) as Hs.
  set (w1 := fst (invokeStop w)) in *.
  unfold invokeStop. rewrite update_same; [reflexivity|].
  rewrite Hs. reflexivity.
Qed.

(** C5: Start changes nothing when the selected total is 0 or the
    countdown is already armed: the whole component, selection included,
    is as before and no effect is produced. *)
Theorem C5_start_rejected (w : Timer) :
  minutes (state w) * 60 + seconds (state w) = 0 \/ running (state w) = true ->
  step ClickStart w = (w, []).
Proof.
  intros H. unfold step. destruct (mounted w); [|reflexivity]. simpl negb. cbv iota.
  unfold startDisabled.
  destruct (running (state w)) eqn:Hr; [reflexivity|].
  destruct H as [H | H]; [|discriminate].
  simpl orb. destruct ((minutes (state w) =? 0) && (seconds (state w) =? 0)); [reflexivity|].
  unfold invokeStart. apply update_same. apply startTimer_nonpositive. lia.
Qed.

Lemma C5_witness :
  (minutes (state (exampleTimer 0 0)) * 60 + seconds (state (exampleTimer 0 0)) = 0
   \/ running (state (exampleTimer 0 0)) = true) /\
  step ClickStart (exampleTimer 0 0) = (exampleTimer 0 0, []).
Proof.
  assert (H : minutes (state (exampleTimer 0 0)) * 60
              + seconds (state (exampleTimer 0 0)) = 0
              \/ running (state (exampleTimer 0 0)) = true)
    by (left; vm_compute; reflexivity).
  exact (conj H (C5_start_rejected (exampleTimer 0 0) H)).
Defined.

(** The guard against a second Start is the disabled button: the handler
    itself, called while counting, starts over. *)
Lemma invokeStart_while_counting :
  let w := fst (secondsElapsed 2 (fst (step ClickStart (exampleTimer 0 5)))) in
  timeLeft (state w) = Some 3 /\ timeLeft (state (fst (invokeStart w))) = Some 5.
Proof. vm_compute. split; reflexivity. Qed.

(** ** Completion *)

(** C7, as stated, fails: after Start on a total of 5 and five ticks the
    countdown is disarmed but the remaining time is 0, not unset. *)
Lemma C7_counterexample :
  let w := fst (secondsElapsed 5 (fst (step ClickStart (exampleTimer 0 5)))) in
  ~ (running (state w) = false /\ timeLeft (state w) = None).
Proof. vm_compute. intros [_ H]. discriminate H. Qed.

(** C7, amended: after a run has counted down to zero the countdown is
    disarmed and the remaining time is 0; completion does not clear it. *)
Theorem C7_completed_run_leaves_zero w :
  wf w ->
  running (state w) = false ->
  0 < minutes (state w) * 60 + seconds (state w) ->
  let R := minutes (state w) * 60 + seconds (state w) in
  let w' := fst (secondsElapsed (Z.to_nat R) (fst (step ClickStart w))) in
  running (state w') = false /\ timeLeft (state w') = Some 0.
Proof.
  intros Hwf Hr Htot R w'. subst w'.
  pose proof (wf_step ClickStart w Hwf) as Hwf1.
  rewrite clickStart_idle in * by assumption. cbn [fst] in *.
  rewrite (startTimer_positive _ Htot) in *. fold R in Hwf1 |- *.
  destruct (countdown (Z.to_nat R) _ R Hwf1 eq_refl eq_refl ltac:(lia))
    as (H1 & _ & H3 & _).
  rewrite H1, H3. rewrite Z2Nat.id by lia. rewrite Z.sub_diag, Z.ltb_irrefl. auto.
Qed.

Lemma C7_witness :
  wf (exampleTimer 0 5) /\
  running (state (exampleTimer 0 5)) = false /\
  0 < minutes (state (exampleTimer 0 5)) * 60 + seconds (state (exampleTimer 0 5)) /\
  running (state (fst (secondsElapsed 5 (fst (step ClickStart (exampleTimer 0 5))))))
    = false /\
  timeLeft (state (fst (secondsElapsed 5 (fst (step ClickStart (exampleTimer 0 5))))))
    = Some 0.
Proof.
  assert (Hwf : wf (exampleTimer 0 5)) by wf_by_evaluation.
  assert (Hr : running (state (exampleTimer 0 5)) = false) by reflexivity.
  assert (Ht : 0 < minutes (state (exampleTimer 0 5)) * 60
                   + seconds (state (exampleTimer 0 5))) by (vm_compute; reflexivity).
  exact (conj Hwf (conj Hr (conj Ht
           (C7_completed_run_leaves_zero (exampleTimer 0 5) Hwf Hr Ht)))).
Defined.

(** ** Progress *)

Lemma progress_ratio t o :
  0 < o -> (inject_Z t / inject_Z o * 100 == (100 * t) # Z.to_pos o)%Q.
Proof.
  intros Ho. destruct o as [|o|o]; try lia.
  unfold Qeq, Qdiv, Qmult, Qinv, inject_Z. simpl. lia.
Qed.

Lemma progress_set s t :
  0 < originalTime s -> timeLeft s = Some t ->
  (progress s == (100 * t) # Z.to_pos (originalTime s))%Q.
Proof. intros Ho Ht. unfold progress. rewrite Ht. apply progress_ratio. exact Ho. Qed.

Lemma progress_bounds w :
  wf w -> (0 <= progress (state w) /\ progress (state w) <= 100)%Q.
Proof.
  intros Hwf. pose proof (wf_original _ Hwf) as Ho.
  pose proof (wf_time _ Hwf) as Ht. unfold timeOk in Ht.
  destruct (timeLeft (state w)) as [t|] eqn:E.
  - rewrite (progress_set _ t Ho E).
    assert (Hb : 0 <= t <= originalTime (state w)).
    { destruct (running (state w)).
      - apply andb_true_iff in Ht as [H1 H2]. lia.
      - apply Z.eqb_eq in Ht. lia. }
    unfold Qle. simpl. rewrite Z2Pos.id by lia. lia.
  - unfold progress. rewrite E. unfold Qle. simpl. lia.
Qed.

Lemma progress_tick w :
  wf w -> (progress (state (fst (secondElapsed w))) <= progress (state w))%Q.
Proof.
  intros Hwf. pose proof (wf_original _ Hwf) as Ho.
  destruct (running (state w)) eqn:Hr.
  - destruct (wf_counting_shape w Hwf Hr) as (_ & t & _ & _ & Ht & Hb).
    rewrite (progress_set _ t Ho Ht).
    destruct (Z.eq_dec t 1) as [-> | Hne].
    + rewrite second_last by assumption. cbn [fst].
      rewrite (progress_set _ 0) by (simpl; auto).
      unfold Qle. simpl. lia.
    + rewrite (second_counting w t) by (auto; lia). cbn [fst].
      rewrite (progress_set _ (t - 1)) by (simpl; auto).
      unfold Qle. simpl. rewrite Z2Pos.id by lia. nia.
  - rewrite second_idle by assumption. apply Qle_refl.
Qed.

(** ** The notification channels *)

(** Each channel of [notifyUser] is attempted exactly when it is
    available itself, whatever the state of the other two. *)
Lemma notifyUser_channels w :
  (In (ShowNotification "⏳ Timer Done!") (notifyUser w) <->
     hasNotification (platform w) = true /\ permission (platform w) = PermGranted) /\
  (In (Vibrate 300) (notifyUser w) <->
     hasVibrate (platform w) = true /\ isMobile (state w) = true) /\
  (In AudioPlay (notifyUser w) <-> audioRef w = true).
Proof.
  unfold notifyUser.
  destruct (hasNotification (platform w)), (permission (platform w)),
    (hasVibrate (platform w)), (isMobile (state w)), (audioRef w),
    (playRejects (platform w)); simpl;
    repeat split; intros; repeat match goal with
    | H : _ \/ _ |- _ => destruct H
    | H : _ /\ _ |- _ => destruct H
    | H : False |- _ => contradiction
    end; try discriminate; try congruence; auto 10.
Qed.

Lemma step_unmounted ev w : mounted w = false -> step ev w = (w, []).
Proof. intros H. unfold step. rewrite H. reflexivity. Qed.

Lemma run_unmounted evs w : mounted w = false -> run evs w = (w, []).
Proof.
  intros H. induction evs as [|ev evs IH]; [reflexivity|].
  cbn [run]. rewrite step_unmounted by exact H. rewrite IH. reflexivity.
Qed.

Lemma mount_mounted q ls m s :
  mobileAgent q = false \/ hasNotification q = true ->
  mounted (fst (mount q ls m s)) = true.
Proof.
  intros H. rewrite mount_result. destruct (runSave _) as [w1 e] eqn:E.
  assert (Hm : mounted w1 = true).
  { unfold runSave in E. destruct (saveSettings _ _ _). inversion E. reflexivity. }
  destruct (mobileAgent q), (hasNotification q); cbn [fst]; try exact Hm;
    destruct H; discriminate.
Qed.

(** C9 fails on a mobile user agent without the Notification API: the
    render that follows the device check reads [Notification.permission]
    unguarded and throws, the component is torn down, and no event
    afterwards changes it or produces an effect, so no countdown ever
    starts or completes.  On every other platform the component mounts. *)
Theorem C9_mobile_without_notification_api p ls m s :
  mobileAgent p = true ->
  hasNotification p = false ->
  let w := fst (mount p ls m s) in
  mounted w = false /\
  running (state w) = false /\
  (forall evs, run evs w = (w, [])) /\
  (forall q, mobileAgent q = false \/ hasNotification q = true ->
             mounted (fst (mount q ls m s)) = true).
Proof.
  intros Hma Hn w. subst w.
  pose proof (mount_unmounted p ls m s Hma Hn) as Hm.
  split; [exact Hm|]. split; [|split].
  - rewrite mount_result. destruct (runSave _) as [w1 e] eqn:E.
    rewrite Hma, Hn. cbn [fst]. unfold unmount. simpl. rewrite cleanup_state. simpl.
    unfold runSave in E. destruct (saveSettings _ _ _). inversion E. reflexivity.
  - intros evs. apply run_unmounted. exact Hm.
  - intros q Hq. apply mount_mounted. exact Hq.
Qed.

Lemma C9_witness :
  mobileAgent phoneWithoutNotifications = true /\
  hasNotification phoneWithoutNotifications = false /\
  mounted (fst (mount phoneWithoutNotifications emptyStorage 0 5)) = false /\
  running (state (fst (mount phoneWithoutNotifications emptyStorage 0 5))) = false /\
  run [ClickStart; IntervalFires 1; IntervalFires 1; IntervalFires 1;
       IntervalFires 1; IntervalFires 1]
      (fst (mount phoneWithoutNotifications emptyStorage 0 5))
  = (fst (mount phoneWithoutNotifications emptyStorage 0 5), []).
Proof.
  destruct (C9_mobile_without_notification_api phoneWithoutNotifications
              emptyStorage 0 5 eq_refl eq_refl) as (H1 & H2 & H3 & _).
  exact (conj eq_refl (conj eq_refl (conj H1 (conj H2 (H3 _))))).
Defined.

(** ** A run on a platform where the component mounts *)

Lemma notifyUser_countingWith w s :
  isMobile s = isMobile (state w) -> notifyUser (countingWith w s) = notifyUser w.
Proof. intros H. unfold notifyUser. simpl. rewrite H. reflexivity. Qed.

Lemma countdown_log n :
  forall w t,
    wf w -> running (state w) = true -> timeLeft (state w) = Some t ->
    Z.of_nat n <= t ->
    snd (secondsElapsed n w)
    = if Z.of_nat n <? t then [] else NotifyUserCalled :: notifyUser w.
Proof.
  induction n as [|n IH]; intros w t Hwf Hr Ht Hn.
  - destruct (wf_counting_shape w Hwf Hr) as (_ & t' & _ & _ & Ht' & Hb).
    assert (t' = t) by congruence. subst t'.
    cbn [secondsElapsed snd]. change (Z.of_nat 0) with 0.
    assert (H : (0 <? t) = true) by (apply Z.ltb_lt; lia).
    rewrite H. reflexivity.
  - destruct (wf_counting_shape w Hwf Hr) as (_ & t' & _ & _ & Ht' & Hb).
    assert (t' = t) by congruence. subst t'.
    cbn [secondsElapsed].
    destruct (Z.eq_dec t 1) as [-> | Hne].
    + assert (n = 0)%nat by lia. subst n.
      rewrite second_last by assumption. cbn [secondsElapsed snd].
      rewrite app_nil_r. reflexivity.
    + pose proof (second_counting w t Hwf Hr Ht ltac:(lia)) as Hs.
      pose proof (wf_secondElapsed w Hwf) as Hwf1.
      rewrite Hs in *. cbn [fst] in Hwf1.
      specialize (IH (countingWith w (setTimeLeft (Some (t - 1)) (state w))) (t - 1)
                     Hwf1 Hr eq_refl ltac:(lia)).
      destruct (secondsElapsed n _) as [w2 e2]. cbn [fst snd] in *.
      rewrite IH, notifyUser_countingWith by reflexivity.
      rewrite Nat2Z.inj_succ.
      destruct (Z.ltb_spec (Z.of_nat n) (t - 1)), (Z.ltb_spec (Z.succ (Z.of_nat n)) t);
        try lia; reflexivity.
Qed.

(** Wherever the component is mounted, a countdown started on a positive
    total disarms itself after that many seconds, and what it calls on
    the way is exactly one [notifyUser], each of whose channels is taken
    when that channel is available ([notifyUser_channels]).  The store is
    one on which the loader is silent, and it is not written during a
    run, so the renders of the ticks add nothing to the log. *)
Theorem run_completes_and_notifies w :
  wf w ->
  quietStore (localStorage w) ->
  running (state w) = false ->
  0 < minutes (state w) * 60 + seconds (state w) ->
  let R := minutes (state w) * 60 + seconds (state w) in
  let started := fst (step ClickStart w) in
  running (state (fst (secondsElapsed (Z.to_nat R) started))) = false /\
  snd (secondsElapsed (Z.to_nat R) started) = NotifyUserCalled :: notifyUser w.
Proof.
  intros Hwf _ Hr Htot R started. subst started.
  pose proof (wf_step ClickStart w Hwf) as Hwf1.
  rewrite clickStart_idle in * by assumption. cbn [fst] in *.
  rewrite (startTimer_positive _ Htot) in *. fold R in Hwf1 |- *.
  destruct (countdown (Z.to_nat R) _ R Hwf1 eq_refl eq_refl ltac:(lia))
    as (_ & _ & H3 & _).
  rewrite H3, (countdown_log (Z.to_nat R) _ R Hwf1 eq_refl eq_refl ltac:(lia)).
  rewrite Z2Nat.id by lia. rewrite Z.ltb_irrefl.
  rewrite notifyUser_countingWith by reflexivity. auto.
Qed.

Lemma wf_boot p ls w log :
  boot p ls = Some (w, log) -> mounted w = true -> wf w.
Proof.
  unfold boot. destruct (getSavedTimerState ls) as [lg [[vm vs]|e]]; [|discriminate].
  destruct (JSON.asInteger vm) as [m|]; [|discriminate].
  destruct (JSON.asInteger vs) as [s|]; [|discriminate].
  destruct (exact m && exact s) eqn:Hex; [|discriminate].
  pose proof (wf_mount p ls m s Hex) as H.
  destruct (mount p ls m s) as [w' e]. cbn [fst] in H.
  intros E. inversion E. subst. exact H.
Qed.

(** ** Reading back what [JSON.stringify] wrote *)

Module JSONFacts.
Import JSON.

#[local] Arguments String.append : simpl nomatch.

Lemma take_digits_uint d :
  forall acc n rest,
    ends_number rest ->
    exists k,
      take_digits (NilEmpty.string_of_uint d +:+ rest) (Z.pos acc) n
      = (Z.pos (Pos.of_uint_acc d acc), k, rest).
Proof.
  induction d; intros acc n rest Hrest; cbn [NilEmpty.string_of_uint String.append];
    try (cbn [take_digits Pos.of_uint_acc]; change (is_digit _) with true; cbv iota;
         match goal with
         | |- context [Pos.of_uint_acc d ?p] =>
             match goal with
             | |- context [take_digits _ ?a ?m] =>
                 replace a with (Z.pos p) by (unfold digit_val, code; simpl; lia);
                 apply (IHd p m rest Hrest)
             end
         end).
  exists n. destruct rest as [|c r]; [reflexivity|].
  cbn [take_digits]. destruct Hrest as [-> _]. reflexivity.
Qed.

Lemma nzhead_not_D0 d d' : Decimal.nzhead d <> Decimal.D0 d'.
Proof. induction d; simpl; try discriminate. exact IHd. Qed.

Lemma to_uint_no_leading_zero p d : Pos.to_uint p <> Decimal.D0 d.
Proof.
  intros E. pose proof (DecimalPos.Unsigned.to_of (Pos.to_uint p)) as H.
  rewrite DecimalPos.Unsigned.of_to in H. simpl in H. rewrite E in H.
  unfold Decimal.unorm in H. simpl in H.
  destruct (Decimal.nzhead d) eqn:En;
    try (symmetry in H; rewrite <- En in H; apply nzhead_not_D0 in H; exact H).
  inversion H. subst d.
  apply (DecimalPos.Unsigned.to_uint_nonzero p). exact E.
Qed.

Lemma parse_int_pos p rest :
  ends_number rest ->
  parse_int (NilEmpty.string_of_uint (Pos.to_uint p) +:+ rest) = Some (Z.pos p, rest).
Proof.
  intros Hrest.
  pose proof (DecimalPos.Unsigned.of_to p) as Hof.
  pose proof (to_uint_no_leading_zero p) as Hz.
  pose proof (DecimalPos.Unsigned.to_uint_nonnil p) as Hn.
  destruct (Pos.to_uint p) as [|d|d|d|d|d|d|d|d|d|d]; try congruence;
    try (exfalso; exact (Hz d eq_refl));
    cbn [NilEmpty.string_of_uint String.append parse_int];
    change (code _ =? 48) with false; change (is_digit _) with true; cbv iota;
    cbn [take_digits]; change (is_digit _) with true; cbv iota;
    cbn [Pos.of_uint] in Hof; injection Hof as Hof;
    match goal with
    | Hof : Pos.of_uint_acc d ?q = p |- context [take_digits _ ?a ?m] =>
        replace a with (Z.pos q) by reflexivity;
        destruct (take_digits_uint d q m rest Hrest) as [k Hk];
        rewrite Hk, Hof; reflexivity
    end.
Qed.

Lemma Qred_integer z : Qred (inject_Z z * 10 ^ (0 - 0))%Q = inject_Z z.
Proof.
  change (10 ^ (0 - 0))%Q with 1%Q.
  unfold Qmult, inject_Z. simpl Qnum. simpl Qden. rewrite Z.mul_1_r.
  apply Qcanon.Qred_identity. simpl. apply Z.gcd_1_r.
Qed.

Lemma head_not_minus p rest :
  match NilEmpty.string_of_uint (Pos.to_uint p) +:+ rest with
  | String c _ => (code c =? 45) = false
  | EmptyString => rest = EmptyString
  end.
Proof.
  pose proof (DecimalPos.Unsigned.to_uint_nonnil p) as Hn.
  destruct (Pos.to_uint p); try congruence; reflexivity.
Qed.

(** A number written by [toString] and followed by [,] or [}] reads back
    as itself. *)
Lemma parse_number_toString z rest :
  ends_number rest ->
  parse_number (Number_toString z +:+ rest) = Some (inject_Z z, rest).
Proof.
  intros Hrest.
  assert (Hfrac : forall m, parse_frac m rest = Some (m, 0, rest)).
  { intros m. destruct rest as [|c r]; [reflexivity|].
    unfold parse_frac. destruct Hrest as (_ & -> & _). reflexivity. }
  assert (Hexp : parse_exp rest = Some (0, rest)).
  { destruct rest as [|c r]; [reflexivity|].
    unfold parse_exp. destruct Hrest as (_ & _ & -> & ->). reflexivity. }
  unfold Number_toString. destruct z as [|p|p]; cbn [Z.to_int NilZero.string_of_int].
  - change (NilZero.string_of_uint Decimal.zero) with "0". cbn [String.append].
    unfold parse_number.
    change (code "0" =? 45) with false. cbv iota. unfold parse_int.
    change (code "0" =? 48) with true. cbv iota.
    rewrite Hfrac, Hexp. cbv iota. rewrite Qred_integer. reflexivity.
  - assert (E : NilZero.string_of_uint (Pos.to_uint p)
                = NilEmpty.string_of_uint (Pos.to_uint p)).
    { pose proof (DecimalPos.Unsigned.to_uint_nonnil p).
      destruct (Pos.to_uint p); [congruence | reflexivity ..]. }
    rewrite E. unfold parse_number.
    pose proof (head_not_minus p rest) as Hh.
    destruct (NilEmpty.string_of_uint (Pos.to_uint p) +:+ rest) as [|c r] eqn:Es.
    + pose proof (parse_int_pos p rest Hrest) as Hp. rewrite Es in Hp. discriminate.
    + rewrite Hh. rewrite <- Es. rewrite parse_int_pos by exact Hrest.
      rewrite Hfrac, Hexp, Qred_integer. reflexivity.
  - assert (E : NilZero.string_of_uint (Pos.to_uint p)
                = NilEmpty.string_of_uint (Pos.to_uint p)).
    { pose proof (DecimalPos.Unsigned.to_uint_nonnil p).
      destruct (Pos.to_uint p); [congruence | reflexivity ..]. }
    rewrite E. cbn [String.append]. unfold parse_number.
    change (code "-" =? 45) with true. cbv iota.
    rewrite parse_int_pos by exact Hrest.
    rewrite Hfrac, Hexp. cbv iota. rewrite Qred_integer. reflexivity.
Qed.

Lemma toString_head z :
  exists c r, Number_toString z = String c r /\ (is_digit c = true \/ code c = 45).
Proof.
  unfold Number_toString. destruct z as [|p|p]; cbn [Z.to_int NilZero.string_of_int].
  - exists "0"%char, EmptyString. split; [reflexivity | left; reflexivity].
  - pose proof (DecimalPos.Unsigned.to_uint_nonnil p) as Hn.
    destruct (Pos.to_uint p); try congruence;
      eexists _, _; (split; [reflexivity | left; reflexivity]).
  - eexists _, _. split; [reflexivity | right; reflexivity].
Qed.

Lemma number_head c :
  is_digit c = true \/ code c = 45 ->
  is_ws c = false /\ (code c =? 123) = false /\ (code c =? 91) = false /\
  (code c =? 34) = false /\ (code c =? 116) = false /\
  (code c =? 102) = false /\ (code c =? 110) = false.
Proof.
  intros H.
  assert (Hc : 48 <= code c <= 57 \/ code c = 45).
  { destruct H as [H | H]; [left | right; exact H].
    unfold is_digit in H. apply andb_true_iff in H as [H1 H2].
    apply Z.leb_le in H1, H2. lia. }
  unfold is_ws. rewrite !orb_false_iff.
  repeat split; apply Z.eqb_neq; lia.
Qed.

Lemma parse_value_number f z rest :
  ends_number rest ->
  parse_value (S f) (Number_toString z +:+ rest) = Good (Num (inject_Z z)) rest.
Proof.
  intros Hrest. pose proof (parse_number_toString z rest Hrest) as Hnum.
  destruct (toString_head z) as (c & r & E & Hc).
  rewrite E in *. cbn [String.append] in *.
  destruct (number_head c Hc) as (H0 & H1 & H2 & H3 & H4 & H5 & H6).
  cbn [parse_value skip_ws]. rewrite H0, H1, H2, H3, H4, H5, H6, Hnum. reflexivity.
Qed.

#[local] Arguments parse_value : simpl never.
#[local] Arguments parse_members : simpl never.
#[local] Arguments Number_toString : simpl never.

Lemma parse_value_S f s :
  parse_value (S f) s =
  match skip_ws s with
  | EmptyString => Bad
  | String c r as s' =>
      if code c =? 123 then
        match skip_ws r with
        | String c' r' =>
            if code c' =? 125 then Good (Obj []) r' else parse_members f r []
        | EmptyString => Bad
        end
      else if code c =? 91 then
        match skip_ws r with
        | String c' r' =>
            if code c' =? 93 then Good (Arr []) r' else parse_elements f r []
        | EmptyString => Bad
        end
      else if code c =? 34 then
        match parse_chars r with
        | Some (body, rest) => Good (Str body) rest
        | None => Bad
        end
      else if code c =? 116 then literal "true" (Bool true) s'
      else if code c =? 102 then literal "false" (Bool false) s'
      else if code c =? 110 then literal "null" Null s'
      else
        match parse_number s' with
        | Some (q, rest) => Good (Num q) rest
        | None => Bad
        end
  end.
Proof. reflexivity. Qed.

Lemma parse_members_S f s acc :
  parse_members (S f) s acc =
  match skip_ws s with
  | String q r =>
      if code q =? 34 then
        match parse_chars r with
        | None => Bad
        | Some (key, r1) =>
            match skip_ws r1 with
            | String c r2 =>
                if code c =? 58 then
                  match parse_value f r2 with
                  | OutOfFuel => OutOfFuel
                  | Bad => Bad
                  | Good v r3 =>
                      match skip_ws r3 with
                      | String d r4 =>
                          if code d =? 44 then parse_members f r4 ((key, v) :: acc)
                          else if code d =? 125
                          then Good (Obj (rev ((key, v) :: acc))) r4
                          else Bad
                      | EmptyString => Bad
                      end
                  end
                else Bad
            | EmptyString => Bad
            end
        end
      else Bad
  | EmptyString => Bad
  end.
Proof. reflexivity. Qed.

Ltac evaluate :=
  cbv -[parse_value parse_members parse_elements Number_toString String.append inject_Z].

(** What [saveSettings] writes is read back by [JSON.parse] as the object
    it was made from. *)
Theorem parse_stringify_settings m s :
  parse (stringify_settings m s)
  = Ret (Obj [("minutes", Num (inject_Z m)); ("seconds", Num (inject_Z s))]).
Proof.
  unfold parse.
  assert (Hf : exists n, parse_fuel (stringify_settings m s) = S (S (S (S n)))).
  { exists (Nat.pred (Nat.pred (Nat.pred (Nat.pred (parse_fuel (stringify_settings m s)))))).
    unfold parse_fuel, stringify_settings. cbn [String.append String.length]. lia. }
  destruct Hf as [n ->].
  unfold stringify_settings, quoted. cbn [String.append].
  rewrite parse_value_S. evaluate.
  rewrite parse_members_S. evaluate.
  rewrite parse_value_number by (cbv; auto). evaluate.
  rewrite parse_members_S. evaluate.
  rewrite parse_value_number by (cbv; auto). evaluate.
  reflexivity.
Qed.
End JSONFacts.

(** ** Loading the saved selection *)

Lemma load_unreadable ls :
  readable ls = false ->
  getSavedTimerState ls = ([loadError], Ret defaultSelection).
Proof.
  intros H. unfold getSavedTimerState, readSavedState, getItem. rewrite H. reflexivity.
Qed.

Lemma load_missing ls :
  readable ls = true -> items ls !! settingsKey = None ->
  getSavedTimerState ls = ([], Ret defaultSelection).
Proof.
  intros H1 H2. unfold getSavedTimerState, readSavedState, getItem. rewrite H1, H2.
  reflexivity.
Qed.

Lemma load_empty ls :
  readable ls = true -> items ls !! settingsKey = Some EmptyString ->
  getSavedTimerState ls = ([], Ret defaultSelection).
Proof.
  intros H1 H2. unfold getSavedTimerState, readSavedState, getItem. rewrite H1, H2.
  reflexivity.
Qed.

Lemma load_text ls c r :
  readable ls = true -> items ls !! settingsKey = Some (String c r) ->
  getSavedTimerState ls =
  match JSON.parse (String c r) with
  | Throw _ => ([loadError], Ret defaultSelection)
  | Ret v =>
      match JSON.getProp v "minutes", JSON.getProp v "seconds" with
      | Ret vm, Ret vs => ([], Ret (vm, vs))
      | _, _ => ([loadError], Ret defaultSelection)
      end
  end.
Proof.
  intros H1 H2. unfold getSavedTimerState, readSavedState, getItem. rewrite H1, H2.
  unfold mbind, Js_bind, bind, lift, try_catch, mret, Js_ret, ret. cbv beta iota.
  change (truthy (Some (String c r))) with true.
  change (default EmptyString (Some (String c r))) with (String c r). cbv iota.
  destruct (JSON.parse (String c r)) as [v|e]; [|reflexivity].
  destruct v; reflexivity.
Qed.

Lemma load_never_throws ls :
  exists log selection, getSavedTimerState ls = (log, Ret selection).
Proof.
  destruct (readable ls) eqn:Hr.
  2:{ rewrite load_unreadable by exact Hr. eauto. }
  destruct (items ls !! settingsKey) as [[|c r]|] eqn:Hi.
  - rewrite load_empty by assumption. eauto.
  - rewrite (load_text ls c r) by assumption.
    destruct (JSON.parse (String c r)) as [v|e]; [|eauto].
    destruct (JSON.getProp v "minutes"), (JSON.getProp v "seconds"); eauto.
  - rewrite load_missing by assumption. eauto.
Qed.

Lemma load_object ls text fields :
  readable ls = true -> items ls !! settingsKey = Some text ->
  text <> EmptyString -> JSON.parse text = Ret (JSON.Obj fields) ->
  getSavedTimerState ls = ([], Ret (fieldOf "minutes" fields, fieldOf "seconds" fields)).
Proof.
  intros H1 H2 H3 H4. destruct text as [|c r]; [congruence|].
  rewrite (load_text ls c r) by assumption. rewrite H4. reflexivity.
Qed.

Lemma load_fallback ls :
  readable ls = false
  \/ items ls !! settingsKey = None
  \/ items ls !! settingsKey = Some EmptyString
  \/ (exists text e, items ls !! settingsKey = Some text /\ JSON.parse text = Throw e)
  \/ (exists text, items ls !! settingsKey = Some text /\ JSON.parse text = Ret JSON.Null) ->
  snd (getSavedTimerState ls) = Ret defaultSelection.
Proof.
  destruct (readable ls) eqn:Hr.
  2:{ intros _. rewrite load_unreadable by exact Hr. reflexivity. }
  intros [H | [H | [H | [(text & e & H & Hp) | (text & H & Hp)]]]].
  - discriminate.
  - rewrite load_missing by assumption. reflexivity.
  - rewrite load_empty by assumption. reflexivity.
  - destruct text as [|c r].
    + rewrite load_empty by assumption. reflexivity.
    + rewrite (load_text ls c r) by assumption. rewrite Hp. reflexivity.
  - destruct text as [|c r].
    + rewrite load_empty by assumption. reflexivity.
    + rewrite (load_text ls c r) by assumption. rewrite Hp. reflexivity.
Qed.

Lemma mount_selection p ls m s :
  minutes (state (fst (mount p ls m s))) = m /\
  seconds (state (fst (mount p ls m s))) = s.
Proof.
  rewrite mount_result.
  destruct (runSave _) as [w1 e] eqn:E.
  assert (Hs : state w1 = initialState m s).
  { unfold runSave in E. destruct (saveSettings _ _ _). inversion E. reflexivity. }
  destruct (mobileAgent p), (hasNotification p); cbn [fst];
    try (unfold unmount; simpl; rewrite cleanup_state; simpl);
    rewrite ?Hs; simpl; auto.
Qed.

(** The store of a well-formed component that can be written holds the
    current selection, so a reload starts from it. *)
Lemma reload_selection w p :
  wf w -> readable (localStorage w) = true -> writable (localStorage w) = true ->
  exists w' log,
    boot p (localStorage w) = Some (w', log) /\
    minutes (state w') = minutes (state w) /\
    seconds (state w') = seconds (state w).
Proof.
  intros Hwf Hr Hw. pose proof (wf_saved _ Hwf Hw) as Hs. unfold savedText in Hs.
  unfold boot.
  rewrite (load_object _ _
             [("minutes", JSON.Num (inject_Z (minutes (state w))));
              ("seconds", JSON.Num (inject_Z (seconds (state w))))] Hr Hs).
  2:{ unfold JSON.stringify_settings. discriminate. }
  2:{ apply JSONFacts.parse_stringify_settings. }
  change (fieldOf "minutes" _) with (JSON.Num (inject_Z (minutes (state w)))).
  change (fieldOf "seconds" _) with (JSON.Num (inject_Z (seconds (state w)))).
  cbn [JSON.asInteger inject_Z Qden Qnum].
  change (1 =? 1)%positive with true. cbv iota.
  rewrite (wf_exact _ Hwf).
  destruct (mount_selection p (localStorage w) (minutes (state w)) (seconds (state w)))
    as [H1 H2].
  destruct (mount _ _ _ _) as [w' e]. cbn [fst] in *. eauto.
Qed.

Lemma generateOptions_lookup max i :
  (i < Z.to_nat (max + 1))%nat ->
  value <$> (generateOptions max !! i) = Some (Z.of_nat i).
Proof.
  intros H. unfold generateOptions.
  rewrite list_lookup_fmap, lookup_seq_lt by exact H. reflexivity.
Qed.

Lemma pick_minutes w i :
  wf w -> running (state w) = false -> (i < 11)%nat ->
  let w' := fst (step (PickMinutes i) w) in
  minutes (state w') = Z.of_nat i /\ seconds (state w') = seconds (state w) /\
  running (state w') = false /\
  readable (localStorage w') = readable (localStorage w) /\
  writable (localStorage w') = writable (localStorage w).
Proof.
  intros Hwf Hr Hi w'. subst w'. unfold step.
  rewrite (wf_mounted _ Hwf). simpl negb. cbv iota.
  unfold selectDisabled. rewrite Hr. unfold pick.
  pose proof (generateOptions_lookup 10 i Hi) as Ho. fold minuteOptions in Ho.
  destruct (minuteOptions !! i) as [o|]; [|discriminate]. injection Ho as Ho.
  rewrite update_setMinutes by assumption. rewrite Ho.
  case_bool_decide as E.
  - cbn [fst]. auto.
  - destruct (writable (localStorage w)) eqn:Hw.
    + rewrite runSave_writable by exact Hw. simpl. auto.
    + rewrite runSave_readonly by exact Hw. simpl. auto.
Qed.

Lemma pick_seconds w j :
  wf w -> running (state w) = false -> (j < 60)%nat ->
  let w' := fst (step (PickSeconds j) w) in
  seconds (state w') = Z.of_nat j /\ minutes (state w') = minutes (state w) /\
  running (state w') = false /\
  readable (localStorage w') = readable (localStorage w) /\
  writable (localStorage w') = writable (localStorage w).
Proof.
  intros Hwf Hr Hj w'. subst w'. unfold step.
  rewrite (wf_mounted _ Hwf). simpl negb. cbv iota.
  unfold selectDisabled. rewrite Hr. unfold pick.
  pose proof (generateOptions_lookup 59 j Hj) as Ho. fold secondOptions in Ho.
  destruct (secondOptions !! j) as [o|]; [|discriminate]. injection Ho as Ho.
  rewrite update_setSeconds by assumption. rewrite Ho.
  case_bool_decide as E.
  - cbn [fst]. auto.
  - destruct (writable (localStorage w)) eqn:Hw.
    + rewrite runSave_writable by exact Hw. simpl. auto.
    + rewrite runSave_readonly by exact Hw. simpl. auto.
Qed.

(** The two parts of C8 that the code keeps: a selection made in the
    dropdowns is the selection after a reload, provided the store can be
    read and written; and the load gives the default pair (1, 0) when the
    store cannot be read, holds no record or an empty one, or holds text
    that [JSON.parse] rejects or reads as [null]. *)
Lemma round_trip_and_fallback w p (i j : nat) :
  wf w ->
  running (state w) = false ->
  readable (localStorage w) = true ->
  writable (localStorage w) = true ->
  (i < 11)%nat -> (j < 60)%nat ->
  (exists w' log,
     boot p (localStorage (fst (run [PickMinutes i; PickSeconds j] w))) = Some (w', log) /\
     minutes (state w') = Z.of_nat i /\ seconds (state w') = Z.of_nat j) /\
  (forall ls,
     readable ls = false
     \/ items ls !! settingsKey = None
     \/ items ls !! settingsKey = Some EmptyString
     \/ (exists text e, items ls !! settingsKey = Some text /\ JSON.parse text = Throw e)
     \/ (exists text, items ls !! settingsKey = Some text /\ JSON.parse text = Ret JSON.Null) ->
     snd (getSavedTimerState ls) = Ret defaultSelection).
Proof.
  intros Hwf Hr Hrd Hwr Hi Hj. split; [|apply load_fallback].
  cbn [run].
  destruct (pick_minutes w i Hwf Hr Hi) as (M1 & M2 & M3 & M4 & M5).
  pose proof (wf_step (PickMinutes i) w Hwf) as Hwf1.
  destruct (step (PickMinutes i) w) as [w1 e1]. cbn [fst] in *.
  destruct (pick_seconds w1 j Hwf1 M3 Hj) as (S1 & S2 & S3 & S4 & S5).
  pose proof (wf_step (PickSeconds j) w1 Hwf1) as Hwf2.
  destruct (step (PickSeconds j) w1) as [w2 e2]. cbn [fst] in *.
  destruct (reload_selection w2 p Hwf2) as (w' & log & Hb & H1 & H2); try congruence.
  exists w', log. repeat split; congruence.
Qed.

(** C8 fails on a record that parses but is not the object the
    application writes.  The loader attempts the fallback, with a
    [try]/[catch] and the comment [Default values if no saved state or
    error occurs], and misses this case: on the stored record [{}] it
    returns [undefined] for both parts, silently, where the claim and the
    loader's sibling paths give the default pair; the first render then
    throws a [TypeError] at [minutes.toString()], before any effect could
    rewrite the record, so every later load ends the same way.  The round
    trip of the claim holds, and so does the fallback on a store that
    cannot be read, on a missing or empty record and on text that
    [JSON.parse] rejects or reads as [null]. *)
Theorem C8_fallback_misses_parsed_record :
  validRecord "{}" = false /\
  getSavedTimerState (storeWith "{}") = ([], Ret (JSON.Undefined, JSON.Undefined)) /\
  snd (getSavedTimerState (storeWith "{}")) <> Ret defaultSelection /\
  loadPage (storeWith "{}") = ([], Throw TypeError) /\
  getSavedTimerState (storeWith "{") = ([loadError], Ret defaultSelection) /\
  getSavedTimerState emptyStorage = ([], Ret defaultSelection) /\
  (forall w p (i j : nat),
     wf w -> running (state w) = false ->
     readable (localStorage w) = true -> writable (localStorage w) = true ->
     (i < 11)%nat -> (j < 60)%nat ->
     exists w' log,
       boot p (localStorage (fst (run [PickMinutes i; PickSeconds j] w))) = Some (w', log) /\
       minutes (state w') = Z.of_nat i /\ seconds (state w') = Z.of_nat j) /\
  (forall ls,
     readable ls = false
     \/ items ls !! settingsKey = None
     \/ items ls !! settingsKey = Some EmptyString
     \/ (exists text e, items ls !! settingsKey = Some text /\ JSON.parse text = Throw e)
     \/ (exists text, items ls !! settingsKey = Some text /\ JSON.parse text = Ret JSON.Null) ->
     snd (getSavedTimerState ls) = Ret defaultSelection).
Proof.
  split; [vm_compute; reflexivity|].
  split; [vm_compute; reflexivity|].
  split; [vm_compute; discriminate|].
  split; [vm_compute; reflexivity|].
  split; [vm_compute; reflexivity|].
  split; [vm_compute; reflexivity|].
  split.
  - intros w p i j Hwf Hr Hrd Hwr Hi Hj.
    apply (round_trip_and_fallback w p i j Hwf Hr Hrd Hwr Hi Hj).
  - apply load_fallback.
Qed.

Lemma C8_witness :
  wf (exampleTimer 1 0) /\
  running (state (exampleTimer 1 0)) = false /\
  readable (localStorage (exampleTimer 1 0)) = true /\
  writable (localStorage (exampleTimer 1 0)) = true /\
  (7 < 11)%nat /\ (30 < 60)%nat /\
  exists w' log,
    boot desktop (localStorage (fst (run [PickMinutes 7; PickSeconds 30] (exampleTimer 1 0))))
      = Some (w', log) /\
    minutes (state w') = 7 /\ seconds (state w') = 30.
Proof.
  assert (Hwf : wf (exampleTimer 1 0)) by wf_by_evaluation.
  assert (Hi : (7 < 11)%nat) by lia.
  assert (Hj : (30 < 60)%nat) by lia.
  exact (conj Hwf (conj eq_refl (conj eq_refl (conj eq_refl (conj Hi (conj Hj
           (proj1 (proj2 (proj2 (proj2 (proj2 (proj2 (proj2
              C8_fallback_misses_parsed_record))))))
              (exampleTimer 1 0) desktop 7%nat 30%nat Hwf eq_refl eq_refl eq_refl Hi Hj))))))).
Defined.

(** C10: the load validates neither shape nor range.  Whatever object the
    stored text parses to, its [minutes] and [seconds] fields are returned
    as they are ([undefined] when missing) and not the default pair; so a
    stored [{"minutes":99,"seconds":-5}] becomes the selection of the
    mounted component, which Start then counts down from, a stored [{}]
    loads as a pair of [undefined], and fractions and strings load as
    themselves. *)
Theorem C10_load_does_not_validate ls text fields :
  readable ls = true ->
  items ls !! settingsKey = Some text ->
  text <> EmptyString ->
  JSON.parse text = Ret (JSON.Obj fields) ->
  getSavedTimerState ls = ([], Ret (fieldOf "minutes" fields, fieldOf "seconds" fields)) /\
  (exists w log,
     boot desktop (storeWith (JSON.stringify_settings 99 (-5))) = Some (w, log) /\
     mounted w = true /\ minutes (state w) = 99 /\ seconds (state w) = -5 /\
     timeLeft (state (fst (step ClickStart w))) = Some 5935) /\
  getSavedTimerState (storeWith "{}") = ([], Ret (JSON.Undefined, JSON.Undefined)) /\
  getSavedTimerState (storeWith oddRecord) = ([], Ret (JSON.Num (3 # 2), JSON.Str "x")).
Proof.
  intros Hr Hi Ht Hp. split; [apply (load_object ls text fields); assumption|].
  split; [|split; vm_compute; reflexivity].
  eexists _, _. split; [vm_compute; reflexivity|].
  vm_compute. repeat split; reflexivity.
Qed.

Lemma C10_witness :
  readable (storeWith (JSON.stringify_settings 10 75)) = true /\
  items (storeWith (JSON.stringify_settings 10 75)) !! settingsKey
    = Some (JSON.stringify_settings 10 75) /\
  JSON.stringify_settings 10 75 <> EmptyString /\
  JSON.parse (JSON.stringify_settings 10 75)
    = Ret (JSON.Obj [("minutes", JSON.Num 10); ("seconds", JSON.Num 75)]) /\
  getSavedTimerState (storeWith (JSON.stringify_settings 10 75))
    = ([], Ret (JSON.Num 10, JSON.Num 75)).
Proof.
  assert (H2 : items (storeWith (JSON.stringify_settings 10 75)) !! settingsKey
               = Some (JSON.stringify_settings 10 75)) by (vm_compute; reflexivity).
  assert (H3 : JSON.stringify_settings 10 75 <> EmptyString) by (vm_compute; discriminate).
  assert (H4 : JSON.parse (JSON.stringify_settings 10 75)
               = Ret (JSON.Obj [("minutes", JSON.Num 10); ("seconds", JSON.Num 75)]))
    by (vm_compute; reflexivity).
  exact (conj eq_refl (conj H2 (conj H3 (conj H4
           (proj1 (C10_load_does_not_validate
                     (storeWith (JSON.stringify_settings 10 75))
                     (JSON.stringify_settings 10 75)
                     [("minutes", JSON.Num 10); ("seconds", JSON.Num 75)]
                     eq_refl H2 H3 H4)))))).
Defined.

Module ParserTermination.
Import JSON.

#[local] Arguments parse_value : simpl never.
#[local] Arguments parse_members : simpl never.
#[local] Arguments parse_elements : simpl never.

#[local] Abbreviation len := String.length.

Lemma parse_elements_S f s acc :
  parse_elements (S f) s acc =
  match parse_value f s with
  | OutOfFuel => OutOfFuel
  | Bad => Bad
  | Good v r =>
      match skip_ws r with
      | String c r' =>
          if code c =? 44 then parse_elements f r' (v :: acc)
          else if code c =? 93 then Good (Arr (rev (v :: acc))) r'
          else Bad
      | EmptyString => Bad
      end
  end.
Proof. reflexivity. Qed.

Lemma skip_ws_length s : (len (skip_ws s) <= len s)%nat.
Proof. induction s as [|c r IH]; simpl; [lia|]. destruct (is_ws c); simpl; lia. Qed.

Lemma take_digits_length s :
  forall acc n, (len (snd (take_digits s acc n)) <= len s)%nat.
Proof.
  induction s as [|c r IH]; intros acc n; simpl; [lia|].
  destruct (is_digit c); simpl; [|lia].
  specialize (IH (acc * 10 + digit_val c) (n + 1)). lia.
Qed.

Lemma parse_int_length s m r : parse_int s = Some (m, r) -> (len r < len s)%nat.
Proof.
  destruct s as [|c s']; [discriminate|]. unfold parse_int.
  destruct (code c =? 48).
  - intros H. inversion H. simpl. lia.
  - destruct (is_digit c) eqn:Hd; [|discriminate].
    pose proof (take_digits_length s' (0 * 10 + digit_val c) (0 + 1)) as Hl.
    cbn [take_digits]. rewrite Hd.
    destruct (take_digits s' _ _) as [[a k] r']. intros H. inversion H. subst.
    simpl in *. lia.
Qed.

Lemma parse_frac_length m s m' k r :
  parse_frac m s = Some (m', k, r) -> (len r <= len s)%nat.
Proof.
  destruct s as [|c s']; unfold parse_frac.
  - intros H. inversion H. lia.
  - destruct (code c =? 46).
    + pose proof (take_digits_length s' m 0) as Hl.
      destruct (take_digits s' m 0) as [[a k'] r']. destruct (k' =? 0); [discriminate|].
      intros H. inversion H. subst. simpl in *. lia.
    + intros H. inversion H. lia.
Qed.

Lemma parse_exp_length s e r : parse_exp s = Some (e, r) -> (len r <= len s)%nat.
Proof.
  destruct s as [|c s']; unfold parse_exp.
  - intros H. inversion H. lia.
  - destruct ((code c =? 101) || (code c =? 69)).
    + assert (Hs : exists neg r1,
                (match s' with
                 | String d r' =>
                     if code d =? 45 then (true, r')
                     else if code d =? 43 then (false, r') else (false, s')
                 | EmptyString => (false, s')
                 end) = (neg, r1) /\ (len r1 <= len s')%nat).
      { destruct s' as [|d r']; [eexists _, _; split; [reflexivity|lia]|].
        destruct (code d =? 45); [eexists _, _; split; [reflexivity|simpl; lia]|].
        destruct (code d =? 43); eexists _, _; (split; [reflexivity|simpl; lia]). }
      destruct Hs as (neg & r1 & -> & Hl1).
      pose proof (take_digits_length r1 0 0) as Hl.
      destruct (take_digits r1 0 0) as [[a k'] r']. destruct (k' =? 0); [discriminate|].
      intros H. inversion H. subst. simpl in *. lia.
    + intros H. inversion H. lia.
Qed.

Lemma parse_number_length s q r : parse_number s = Some (q, r) -> (len r < len s)%nat.
Proof.
  unfold parse_number.
  assert (Hs : exists neg s1,
            (match s with
             | String c r => if code c =? 45 then (true, r) else (false, s)
             | EmptyString => (false, s)
             end) = (neg, s1) /\ (len s1 <= len s)%nat).
  { destruct s as [|c r']; [eexists _, _; split; [reflexivity|lia]|].
    destruct (code c =? 45); eexists _, _; (split; [reflexivity|simpl; lia]). }
  destruct Hs as (neg & s1 & -> & Hl1).
  destruct (parse_int s1) as [[m s2]|] eqn:Ei; [|discriminate].
  destruct (parse_frac m s2) as [[[m' k] s3]|] eqn:Ef; [|discriminate].
  destruct (parse_exp s3) as [[e s4]|] eqn:Ee; [|discriminate].
  intros H. inversion H. subst.
  apply parse_int_length in Ei. apply parse_frac_length in Ef.
  apply parse_exp_length in Ee. lia.
Qed.

Lemma strip_prefix_length word :
  forall s r, strip_prefix word s = Some r -> (len r + len word = len s)%nat.
Proof.
  induction word as [|c w IH]; intros s r H; simpl in *.
  - inversion H. lia.
  - destruct s as [|d s']; [discriminate|]. destruct (Ascii.eqb c d); [|discriminate].
    apply IH in H. simpl. lia.
Qed.

Lemma literal_length word v s v' r :
  (0 < len word)%nat -> literal word v s = Good v' r -> (len r < len s)%nat.
Proof.
  intros Hw. unfold literal. destruct (strip_prefix word s) eqn:E; [|discriminate].
  intros H. inversion H. subst. apply strip_prefix_length in E. lia.
Qed.

Lemma parse_chars_length n :
  forall s body r, (len s <= n)%nat -> parse_chars s = Some (body, r) -> (len r < len s)%nat.
Proof.
  induction n as [|n IH]; intros s body r Hn; destruct s as [|c s']; simpl in Hn;
    try discriminate; try lia.
  simpl. destruct (code c =? 34).
  { intros H. inversion H. subst. lia. }
  destruct (code c =? 92).
  - destruct s' as [|e r1]; [discriminate|]. simpl in Hn.
    assert (Hplain : forall b,
              match parse_chars r1 with
              | Some (body0, rest) => Some (String (byte b) body0, rest)
              | None => None
              end = Some (body, r) -> (len r < S (S (len r1)))%nat).
    { intros b. destruct (parse_chars r1) as [[b0 r0]|] eqn:E; [|discriminate].
      intros H. inversion H. subst. apply IH in E; lia. }
    repeat match goal with
           | |- (if ?b then _ else _) = _ -> _ => destruct b; [apply Hplain|]
           end.
    destruct (code e =? 117); [|discriminate].
    destruct r1 as [|h1 [|h2 [|h3 [|h4 r2]]]]; try discriminate.
    destruct (hex_val h1), (hex_val h2), (hex_val h3), (hex_val h4); try discriminate.
    destruct (parse_chars r2) as [[b0 r0]|] eqn:E; [|discriminate].
    intros H. inversion H. subst. simpl in Hn. apply IH in E; simpl; lia.
  - destruct (code c <? 32); [discriminate|].
    destruct (parse_chars s') as [[b0 r0]|] eqn:E; [|discriminate].
    intros H. inversion H. subst. apply IH in E; lia.
Qed.

Lemma parse_chars_shorter s body r :
  parse_chars s = Some (body, r) -> (len r < len s)%nat.
Proof. apply (parse_chars_length (len s)). lia. Qed.

(** Whatever a parser reads, it leaves less input than it was given. *)
Lemma parse_shorter f :
  (forall s v r, parse_value f s = Good v r -> (len r < len s)%nat) /\
  (forall s acc v r, parse_elements f s acc = Good v r -> (len r < len s)%nat) /\
  (forall s acc v r, parse_members f s acc = Good v r -> (len r < len s)%nat).
Proof.
  induction f as [|f (IHv & IHe & IHm)]; [repeat split; intros; discriminate|].
  repeat split.
  - intros s v r. rewrite JSONFacts.parse_value_S.
    pose proof (skip_ws_length s) as Hs.
    destruct (skip_ws s) as [|c t] eqn:Es; [discriminate|]. simpl in Hs.
    destruct (code c =? 123).
    { pose proof (skip_ws_length t) as Ht.
      destruct (skip_ws t) as [|c' t'] eqn:Et; [discriminate|]. simpl in Ht.
      destruct (code c' =? 125).
      - intros H. inversion H. subst. lia.
      - intros H. apply IHm in H. lia. }
    destruct (code c =? 91).
    { pose proof (skip_ws_length t) as Ht.
      destruct (skip_ws t) as [|c' t'] eqn:Et; [discriminate|]. simpl in Ht.
      destruct (code c' =? 93).
      - intros H. inversion H. subst. lia.
      - intros H. apply IHe in H. lia. }
    destruct (code c =? 34).
    { destruct (parse_chars t) as [[b r0]|] eqn:E; [|discriminate].
      intros H. inversion H. subst. apply parse_chars_shorter in E. lia. }
    destruct (code c =? 116); [intros H; apply literal_length in H; simpl in *; lia|].
    destruct (code c =? 102); [intros H; apply literal_length in H; simpl in *; lia|].
    destruct (code c =? 110); [intros H; apply literal_length in H; simpl in *; lia|].
    cbv zeta.
    destruct (parse_number (String c t)) as [[q r0]|] eqn:E; [|discriminate].
    intros H. inversion H. subst. apply parse_number_length in E. simpl in E. lia.
  - intros s acc v r. rewrite parse_elements_S.
    destruct (parse_value f s) as [| |v0 r0] eqn:E; try discriminate.
    apply IHv in E. pose proof (skip_ws_length r0) as Hs.
    destruct (skip_ws r0) as [|c t]; [discriminate|]. simpl in Hs.
    destruct (code c =? 44); [intros H; apply IHe in H; lia|].
    destruct (code c =? 93); [|discriminate].
    intros H. inversion H. subst. lia.
  - intros s acc v r. rewrite JSONFacts.parse_members_S.
    pose proof (skip_ws_length s) as Hs.
    destruct (skip_ws s) as [|q t]; [discriminate|]. simpl in Hs.
    destruct (code q =? 34); [|discriminate].
    destruct (parse_chars t) as [[key r1]|] eqn:Ec; [|discriminate].
    apply parse_chars_shorter in Ec.
    pose proof (skip_ws_length r1) as Hs1.
    destruct (skip_ws r1) as [|c r2]; [discriminate|]. simpl in Hs1.
    destruct (code c =? 58); [|discriminate].
    destruct (parse_value f r2) as [| |v0 r3] eqn:E; try discriminate.
    apply IHv in E. pose proof (skip_ws_length r3) as Hs3.
    destruct (skip_ws r3) as [|d r4]; [discriminate|]. simpl in Hs3.
    destruct (code d =? 44); [intros H; apply IHm in H; lia|].
    destruct (code d =? 125); [|discriminate].
    intros H. inversion H. subst. lia.
Qed.

Lemma parse_fuel_suffices f :
  (forall s, (2 * len s + 1 <= f)%nat -> parse_value f s <> OutOfFuel) /\
  (forall s acc, (2 * len s + 2 <= f)%nat -> parse_elements f s acc <> OutOfFuel) /\
  (forall s acc, (2 * len s + 1 <= f)%nat -> parse_members f s acc <> OutOfFuel).
Proof.
  induction f as [|f (IHv & IHe & IHm)]; [repeat split; intros; lia|].
  destruct (parse_shorter f) as (Sv & Se & Sm).
  repeat split.
  - intros s Hf. rewrite JSONFacts.parse_value_S.
    pose proof (skip_ws_length s) as Hs.
    destruct (skip_ws s) as [|c t] eqn:Es; [discriminate|]. simpl in Hs.
    destruct (code c =? 123).
    { pose proof (skip_ws_length t) as Ht.
      destruct (skip_ws t) as [|c' t'] eqn:Et; [discriminate|].
      destruct (code c' =? 125); [discriminate|]. apply IHm. lia. }
    destruct (code c =? 91).
    { pose proof (skip_ws_length t) as Ht.
      destruct (skip_ws t) as [|c' t'] eqn:Et; [discriminate|].
      destruct (code c' =? 93); [discriminate|]. apply IHe. lia. }
    destruct (code c =? 34).
    { destruct (parse_chars t) as [[b r0]|]; discriminate. }
    unfold literal.
    destruct (code c =? 116); [destruct (strip_prefix _ _); discriminate|].
    destruct (code c =? 102); [destruct (strip_prefix _ _); discriminate|].
    destruct (code c =? 110); [destruct (strip_prefix _ _); discriminate|].
    cbv zeta. destruct (parse_number (String c t)) as [[q r0]|]; discriminate.
  - intros s acc Hf. rewrite parse_elements_S.
    pose proof (IHv s ltac:(lia)) as Hv.
    destruct (parse_value f s) as [| |v0 r0] eqn:E; try congruence; try discriminate.
    apply Sv in E. pose proof (skip_ws_length r0) as Hs.
    destruct (skip_ws r0) as [|c t]; [discriminate|]. simpl in Hs.
    destruct (code c =? 44); [apply IHe; lia|].
    destruct (code c =? 93); discriminate.
  - intros s acc Hf. rewrite JSONFacts.parse_members_S.
    pose proof (skip_ws_length s) as Hs.
    destruct (skip_ws s) as [|q t]; [discriminate|]. simpl in Hs.
    destruct (code q =? 34); [|discriminate].
    destruct (parse_chars t) as [[key r1]|] eqn:Ec; [|discriminate].
    apply parse_chars_shorter in Ec.
    pose proof (skip_ws_length r1) as Hs1.
    destruct (skip_ws r1) as [|c r2]; [discriminate|]. simpl in Hs1.
    destruct (code c =? 58); [|discriminate].
    pose proof (IHv r2 ltac:(lia)) as Hv.
    destruct (parse_value f r2) as [| |v0 r3] eqn:E; try congruence; try discriminate.
    apply Sv in E. pose proof (skip_ws_length r3) as Hs3.
    destruct (skip_ws r3) as [|d r4]; [discriminate|]. simpl in Hs3.
    destruct (code d =? 44); [apply IHm; lia|].
    destruct (code d =? 125); discriminate.
Qed.

(** The fuel [parse] hands to the parser is never used up: the third
    branch of [parse] is dead, and [parse] throws only on input that is
    not JSON. *)
Theorem parse_never_out_of_fuel text :
  parse_value (parse_fuel text) text <> OutOfFuel.
Proof.
  apply (proj1 (parse_fuel_suffices (parse_fuel text))). unfold parse_fuel. lia.
Qed.
End ParserTermination.

(** ** At most one ticking interval, and the scenarios of the specification *)

Theorem at_most_one_interval w : reachable w -> (length (intervals w) <= 1)%nat.
Proof.
  intros H. apply reachable_wf in H. rewrite (wf_intervals _ H).
  destruct (timerIntervalRef w); simpl; lia.
Qed.

(** Start on (1, 0), three ticks, Stop: nothing is left, the countdown is
    disarmed, [notifyUser] never ran and the audio element was reset. *)
Example start_three_ticks_stop :
  let '(w, log) :=
    run [ClickStart; IntervalFires 1; IntervalFires 2; IntervalFires 3; ClickStop]
        (exampleTimer 1 0) in
  timeLeft (state w) = None /\ running (state w) = false /\
  intervals w = [] /\ log = [AudioPause; AudioSeek 0].
Proof. vm_compute. repeat split; reflexivity. Qed.

(** An interval that was cleared does not fire: the ids handed to the
    three ticks above are 1, 2 and 3, and firing 1 three times ticks
    once. *)
Example cleared_interval_is_silent :
  timeLeft (state (fst (run [ClickStart; IntervalFires 1; IntervalFires 1; IntervalFires 1]
                            (exampleTimer 1 0)))) = Some 59.
Proof. vm_compute. reflexivity. Qed.

(** Start on (0, 0) is a no-op. *)
Example start_on_zero :
  step ClickStart (exampleTimer 0 0) = (exampleTimer 0 0, []).
Proof. vm_compute. reflexivity. Qed.

(** Five seconds on (0, 5) with every channel available. *)
Example completion_log :
  snd (secondsElapsed 5
         (fst (step ClickStart
                 (fst (mount (mkPlatform true PermGranted true true false)
                         emptyStorage 0 5)))))
  = [NotifyUserCalled; ShowNotification "⏳ Timer Done!"; Vibrate 300;
     AudioSetVolume (7 # 10); AudioPlay].
Proof. vm_compute. reflexivity. Qed.

(** With permission denied, no vibration support and a rejected
    playback, only the audio is attempted, and the countdown completes
    all the same. *)
Example completion_log_degraded :
  let '(w, log) :=
    secondsElapsed 5
      (fst (step ClickStart
              (fst (mount (mkPlatform true PermDenied false true true)
                      emptyStorage 0 5)))) in
  log = [NotifyUserCalled; AudioSetVolume (7 # 10); AudioPlay;
         ConsoleWarn "Could not play audio alert:"] /\
  running (state w) = false /\ timeLeft (state w) = Some 0.
Proof. vm_compute. repeat split; reflexivity. Qed.

(** ** [JSON.parse] on small inputs *)

Example parse_accepts :
  JSON.parse " null " = Ret JSON.Null /\
  JSON.parse "-0" = Ret (JSON.Num 0) /\
  JSON.parse "1e2" = Ret (JSON.Num 100) /\
  JSON.parse "2.50" = Ret (JSON.Num (5 # 2)) /\
  JSON.parse "[1, [true, false], {}]"
    = Ret (JSON.Arr [JSON.Num 1; JSON.Arr [JSON.Bool true; JSON.Bool false];
                     JSON.Obj []]) /\
  JSON.parse ("{" +:+ JSON.quoted "minutes" +:+ ":3}")
    = Ret (JSON.Obj [("minutes", JSON.Num 3)]) /\
  JSON.parse ("{" +:+ JSON.quoted "\u006dinutes" +:+ ":3}")
    = Ret (JSON.Obj [("minutes", JSON.Num 3)]).
Proof. vm_compute. repeat split; reflexivity. Qed.

Example parse_rejects :
  JSON.parse "" = Throw SyntaxError /\
  JSON.parse "01" = Throw SyntaxError /\
  JSON.parse "1." = Throw SyntaxError /\
  JSON.parse ".5" = Throw SyntaxError /\
  JSON.parse "+1" = Throw SyntaxError /\
  JSON.parse "[1,]" = Throw SyntaxError /\
  JSON.parse "{minutes:1}" = Throw SyntaxError /\
  JSON.parse "nul" = Throw SyntaxError /\
  JSON.parse "NaN" = Throw SyntaxError /\
  JSON.parse "1 2" = Throw SyntaxError /\
  JSON.parse "undefined" = Throw SyntaxError.
Proof. vm_compute. repeat split; reflexivity. Qed.

(** Loading what is not an object: the JSON [null] falls back, because
    destructuring it throws; a number, a string or an array loads as a
    pair of [undefined]. *)
Example load_non_objects :
  getSavedTimerState (storeWith "null") = ([loadError], Ret defaultSelection) /\
  getSavedTimerState (storeWith "42") = ([], Ret (JSON.Undefined, JSON.Undefined)) /\
  getSavedTimerState (storeWith "[7,30]") = ([], Ret (JSON.Undefined, JSON.Undefined)) /\
  getSavedTimerState (storeWith "not json") = ([loadError], Ret defaultSelection).
Proof. vm_compute. repeat split; reflexivity. Qed.

(** * Further properties of the component *)

(** ** The texts of the view *)

Module ViewFacts.
Import JSON.

#[local] Arguments String.append : simpl nomatch.

Lemma append_empty s : s +:+ EmptyString = s.
Proof. induction s as [|c r IH]; simpl; [reflexivity | rewrite IH; reflexivity]. Qed.

Lemma take_digits_count s :
  forall acc n n',
    fst (fst (take_digits s acc n)) = fst (fst (take_digits s acc n')) /\
    snd (take_digits s acc n) = snd (take_digits s acc n').
Proof.
  induction s as [|c r IH]; intros acc n n'; simpl; [auto|].
  destruct (is_digit c); [apply IH | auto].
Qed.

Lemma readDecimal_digits p :
  readDecimal (NilEmpty.string_of_uint (Pos.to_uint p)) = Some (Z.pos p).
Proof.
  pose proof (JSONFacts.parse_int_pos p EmptyString I) as H.
  rewrite append_empty in H.
  destruct (NilEmpty.string_of_uint (Pos.to_uint p)) as [|c r] eqn:E; [discriminate|].
  unfold readDecimal. unfold parse_int in H.
  destruct (code c =? 48); [discriminate|].
  destruct (is_digit c); [|discriminate].
  destruct (take_digits (String c r) 0 0) as [[m k] r']. inversion H. reflexivity.
Qed.

Lemma toString_pos p :
  Number_toString (Z.pos p) = NilEmpty.string_of_uint (Pos.to_uint p).
Proof.
  unfold Number_toString. cbn [Z.to_int NilZero.string_of_int].
  pose proof (DecimalPos.Unsigned.to_uint_nonnil p).
  destruct (Pos.to_uint p); [congruence | reflexivity ..].
Qed.

Lemma readDecimal_toString n :
  0 <= n -> readDecimal (Number_toString n) = Some n.
Proof.
  intros Hn. destruct n as [|p|p]; [reflexivity | | lia].
  rewrite toString_pos. apply readDecimal_digits.
Qed.

(** A leading zero does not change what a run of digits denotes. *)
Lemma readDecimal_zero s v :
  readDecimal s = Some v -> readDecimal (String "0" s) = Some v.
Proof.
  unfold readDecimal. destruct s as [|c r]; [discriminate|].
  assert (E : take_digits (String "0" (String c r)) 0 0
              = take_digits (String c r) 0 1) by reflexivity.
  rewrite E.
  destruct (take_digits_count (String c r) 0 1 0) as [H1 H2].
  destruct (take_digits (String c r) 0 1) as [[a k] r1].
  destruct (take_digits (String c r) 0 0) as [[a' k'] r1'].
  simpl in H1, H2. subst. auto.
Qed.

Lemma readDecimal_padStart2 n :
  0 <= n -> readDecimal (padStart2 (Number_toString n)) = Some n.
Proof.
  intros Hn. pose proof (readDecimal_toString n Hn) as H.
  unfold padStart2. destruct (Number_toString n) as [|c [|d r]] eqn:E.
  - discriminate.
  - cbn [String.length String.append]. apply readDecimal_zero. exact H.
  - exact H.
Qed.



Lemma padStart2_length_small (n : nat) :
  (n < 100)%nat -> String.length (padStart2 (Number_toString (Z.of_nat n))) = 2%nat.
Proof.
  intros H.
  assert (Hall : forallb (fun i => Nat.eqb (String.length
                   (padStart2 (Number_toString (Z.of_nat i)))) 2) (seq 0 100) = true)
    by (vm_compute; reflexivity).
  rewrite forallb_forall in Hall.
  apply Nat.eqb_eq. apply Hall. apply in_seq. lia.
Qed.

End ViewFacts.



(** ** The dropdowns *)

(** [generateOptions max] has the entries 0 to [max], in order; up to 99
    every label has two characters and reads back as the entry's value. *)
Theorem generateOptions_entries max i :
  0 <= max <= 99 -> (i <= Z.to_nat max)%nat ->
  length (generateOptions max) = S (Z.to_nat max) /\
  exists o, generateOptions max !! i = Some o /\
    value o = Z.of_nat i /\
    String.length (label o) = 2%nat /\
    readDecimal (label o) = Some (Z.of_nat i).
Proof.
  intros Hmax Hi.
  assert (Hn : Z.to_nat (max + 1) = S (Z.to_nat max)).
  { rewrite <- Z2Nat.inj_succ by lia. reflexivity. }
  unfold generateOptions. rewrite Hn. split.
  - rewrite length_map, length_seq. reflexivity.
  - exists (selected (Z.of_nat i)). split; [|split; [|split]].
    + change (map ?f ?l) with (f <$> l).
      rewrite list_lookup_fmap, lookup_seq_lt by lia. reflexivity.
    + reflexivity.
    + cbn [label selected]. apply ViewFacts.padStart2_length_small. lia.
    + cbn [label selected]. apply ViewFacts.readDecimal_padStart2. lia.
Qed.

Lemma generateOptions_entries_witness :
  0 <= 59 <= 99 /\ (7 <= Z.to_nat 59)%nat /\
  length (generateOptions 59) = S (Z.to_nat 59) /\
  exists o, generateOptions 59 !! 7%nat = Some o /\
    value o = Z.of_nat 7 /\
    String.length (label o) = 2%nat /\
    readDecimal (label o) = Some (Z.of_nat 7).
Proof.
  assert (H1 : 0 <= 59 <= 99) by lia.
  assert (H2 : (7 <= Z.to_nat 59)%nat) by (vm_compute; lia).
  exact (conj H1 (conj H2 (generateOptions_entries 59 7 H1 H2))).
Defined.

(** ** What the passes after a state change can log *)

Section CommitLog.
Variable P : Effect -> Prop.
Hypothesis P_save : P saveError.
Hypothesis P_done : P NotifyUserCalled.
Hypothesis P_notify : forall w, Forall P (notifyUser w).
Hypothesis P_stop : forall w, Forall P (stopAudio w).

Lemma runSave_log w : Forall P (snd (runSave w)).
Proof.
  destruct (writable (localStorage w)) eqn:Hw.
  - rewrite runSave_writable by exact Hw. constructor.
  - rewrite runSave_readonly by exact Hw. repeat constructor. exact P_save.
Qed.

Lemma countdownEffect_log w : Forall P (snd (countdownEffect w)).
Proof.
  unfold countdownEffect. cbv zeta.
  destruct (running (state w) && positive_time (timeLeft (state w))); [constructor|].
  destruct (zero_time (timeLeft (state w)) && running (state w)); [|constructor].
  cbn [snd]. constructor; [exact P_done | apply P_notify].
Qed.

Lemma commit_log fuel : forall prev w, Forall P (snd (commit fuel prev w)).
Proof.
  induction fuel as [|f IH]; intros prev w; [constructor|].
  rewrite commit_S. case_bool_decide; [constructor|].
  destruct (render (platform w) (state w)); [|constructor]. cbv zeta.
  set (w0 := if countdownDepsChanged prev (state w) then countdownCleanup w else w).
  assert (H1 : Forall P (snd (if selectionChanged prev (state w)
                              then runSave w0 else (w0, [])))).
  { destruct (selectionChanged prev (state w)); [apply runSave_log | constructor]. }
  destruct (if selectionChanged prev (state w) then runSave w0 else (w0, []))
    as [w1 e1]. cbn [snd] in H1.
  assert (H2 : Forall P (snd (if countdownDepsChanged prev (state w)
                              then countdownEffect w1 else (w1, [])))).
  { destruct (countdownDepsChanged prev (state w));
      [apply countdownEffect_log | constructor]. }
  destruct (if countdownDepsChanged prev (state w) then countdownEffect w1 else (w1, []))
    as [w2 e2]. cbn [snd] in H2.
  pose proof (IH (state w) w2) as H3.
  destruct (commit f (state w) w2) as [w3 e3]. cbn [snd] in *.
  rewrite !Forall_app. auto.
Qed.

Lemma update_log f w : Forall P (snd (update f w)).
Proof. apply commit_log. Qed.

Lemma step_log ev w : Forall P (snd (step ev w)).
Proof.
  unfold step. destruct (negb (mounted w)); [constructor|]. cbv zeta.
  destruct ev.
  - destruct (startDisabled (state w)); [constructor | apply update_log].
  - destruct (stopDisabled (state w)); [constructor|].
    unfold invokeStop. pose proof (update_log stopTimer w) as H.
    destruct (update stopTimer w) as [w' e]. cbn [snd] in *.
    rewrite Forall_app. split; [apply P_stop | exact H].
  - destruct (selectDisabled (state w)); [constructor|].
    unfold pick. destruct (minuteOptions !! i); [apply update_log | constructor].
  - destruct (selectDisabled (state w)); [constructor|].
    unfold pick. destruct (secondOptions !! i); [apply update_log | constructor].
  - case_bool_decide; [apply update_log | constructor].
  - apply update_log.
  - constructor.
  - constructor.
Qed.

Lemma run_log evs : forall w, Forall P (snd (run evs w)).
Proof.
  induction evs as [|ev rest IH]; intros w; [constructor|].
  cbn [run]. pose proof (step_log ev w) as H1.
  destruct (step ev w) as [w1 e1]. pose proof (IH w1) as H2.
  destruct (run rest w1) as [w2 e2]. cbn [snd] in *.
  rewrite Forall_app. auto.
Qed.
End CommitLog.

Lemma notifyUser_no_request w : Forall (fun e => e <> RequestPermission) (notifyUser w).
Proof.
  unfold notifyUser. cbv zeta.
  repeat match goal with |- context [if ?b then _ else _] => destruct b end;
    cbn [app]; repeat constructor; discriminate.
Qed.

Lemma stopAudio_no_request w : Forall (fun e => e <> RequestPermission) (stopAudio w).
Proof. unfold stopAudio. destruct (audioRef w); repeat constructor; discriminate. Qed.

(** ** The permission request *)

(** The mount asks for the notification permission exactly when the
    browser has the API and the permission is neither granted nor denied,
    as the first thing it logs; nothing that happens afterwards asks
    again. *)
Theorem permission_requested_at_mount_only p ls m s :
  (exists rest,
     snd (mount p ls m s) = permissionRequest p ++ rest /\
     ~ In RequestPermission rest) /\
  (forall evs w, ~ In RequestPermission (snd (run evs w))).
Proof.
  split.
  - rewrite mount_result.
    set (w0 := mkTimer (initialState m s) None true [] 1%positive ls p true).
    pose proof (runSave_log (fun e => e <> RequestPermission) ltac:(discriminate) w0) as H.
    destruct (runSave w0) as [w1 eSave]. cbn [snd] in H. cbv zeta.
    assert (E : hasNotification p && negb (bool_decide (permission p = PermGranted))
                  && negb (bool_decide (permission p = PermDenied))
                = hasNotification p && bool_decide (permission p = PermDefault)).
    { destruct (hasNotification p), (permission p); reflexivity. }
    rewrite E. fold (permissionRequest p).
    exists eSave. split.
    + destruct (mobileAgent p); [destruct (hasNotification p)|]; reflexivity.
    + intros Hin. rewrite List.Forall_forall in H. exact (H _ Hin eq_refl).
  - intros evs w Hin.
    pose proof (run_log (fun e => e <> RequestPermission) ltac:(discriminate)
                  ltac:(discriminate) notifyUser_no_request stopAudio_no_request evs w) as H.
    rewrite List.Forall_forall in H. exact (H _ Hin eq_refl).
Qed.

(** ** The store *)

Lemma untouched_refl ls : untouched ls ls.
Proof. repeat split. Qed.

Lemma untouched_trans a b c : untouched a b -> untouched b c -> untouched a c.
Proof.
  intros (H1 & H2 & H3) (K1 & K2 & K3). repeat split; try congruence.
  intros key Hk. rewrite K3, H3 by exact Hk. reflexivity.
Qed.

Lemma runSave_untouched w : untouched (localStorage w) (localStorage (fst (runSave w))).
Proof.
  destruct (writable (localStorage w)) eqn:Hw.
  - rewrite runSave_writable by exact Hw. cbn [fst setStorage localStorage].
    split; [reflexivity | split; [cbn; congruence|]].
    intros key Hk. cbn [items]. apply lookup_insert_ne. congruence.
  - rewrite runSave_readonly by exact Hw. apply untouched_refl.
Qed.

Lemma cleanup_storage w : localStorage (countdownCleanup w) = localStorage w.
Proof. unfold countdownCleanup. destruct (timerIntervalRef w); reflexivity. Qed.

Lemma countdownEffect_storage w : localStorage (fst (countdownEffect w)) = localStorage w.
Proof.
  unfold countdownEffect. cbv zeta.
  destruct (running (state w) && positive_time (timeLeft (state w))).
  - destruct (timerIntervalRef w); reflexivity.
  - destruct (zero_time (timeLeft (state w)) && running (state w)); reflexivity.
Qed.

Lemma commit_untouched fuel :
  forall prev w, untouched (localStorage w) (localStorage (fst (commit fuel prev w))).
Proof.
  induction fuel as [|f IH]; intros prev w; [apply untouched_refl|].
  rewrite commit_S. case_bool_decide; [apply untouched_refl|].
  destruct (render (platform w) (state w)).
  2:{ cbn [fst]. unfold unmount. cbn [localStorage]. rewrite cleanup_storage.
      apply untouched_refl. }
  cbv zeta.
  set (w0 := if countdownDepsChanged prev (state w) then countdownCleanup w else w).
  assert (H0 : localStorage w0 = localStorage w).
  { subst w0. destruct (countdownDepsChanged prev (state w));
      [apply cleanup_storage | reflexivity]. }
  assert (H1 : untouched (localStorage w0)
                 (localStorage (fst (if selectionChanged prev (state w)
                                     then runSave w0 else (w0, []))))).
  { destruct (selectionChanged prev (state w));
      [apply runSave_untouched | apply untouched_refl]. }
  destruct (if selectionChanged prev (state w) then runSave w0 else (w0, []))
    as [w1 e1]. cbn [fst] in H1.
  assert (H2 : localStorage (fst (if countdownDepsChanged prev (state w)
                                  then countdownEffect w1 else (w1, [])))
               = localStorage w1).
  { destruct (countdownDepsChanged prev (state w));
      [apply countdownEffect_storage | reflexivity]. }
  destruct (if countdownDepsChanged prev (state w) then countdownEffect w1 else (w1, []))
    as [w2 e2]. cbn [fst] in H2.
  pose proof (IH (state w) w2) as H3.
  destruct (commit f (state w) w2) as [w3 e3]. cbn [fst] in *.
  rewrite H0 in H1. rewrite H2 in H3. exact (untouched_trans _ _ _ H1 H3).
Qed.

Lemma update_untouched f w : untouched (localStorage w) (localStorage (fst (update f w))).
Proof. apply (commit_untouched maxUpdateDepth (state w) (setState w (f (state w)))). Qed.

Lemma step_untouched ev w : untouched (localStorage w) (localStorage (fst (step ev w))).
Proof.
  unfold step. destruct (negb (mounted w)); [apply untouched_refl|]. cbv zeta.
  destruct ev.
  - destruct (startDisabled (state w)); [apply untouched_refl | apply update_untouched].
  - destruct (stopDisabled (state w)); [apply untouched_refl|].
    unfold invokeStop. pose proof (update_untouched stopTimer w) as H.
    destruct (update stopTimer w) as [w' e]. exact H.
  - destruct (selectDisabled (state w)); [apply untouched_refl|].
    unfold pick. destruct (minuteOptions !! i);
      [apply update_untouched | apply untouched_refl].
  - destruct (selectDisabled (state w)); [apply untouched_refl|].
    unfold pick. destruct (secondOptions !! i);
      [apply update_untouched | apply untouched_refl].
  - case_bool_decide; [apply update_untouched | apply untouched_refl].
  - apply update_untouched.
  - apply untouched_refl.
  - apply untouched_refl.
Qed.

Lemma run_untouched evs :
  forall w, untouched (localStorage w) (localStorage (fst (run evs w))).
Proof.
  induction evs as [|ev rest IH]; intros w; [apply untouched_refl|].
  cbn [run]. pose proof (step_untouched ev w) as H1.
  destruct (step ev w) as [w1 e1]. pose proof (IH w1) as H2.
  destruct (run rest w1) as [w2 e2]. cbn [fst] in *.
  exact (untouched_trans _ _ _ H1 H2).
Qed.

Lemma mount_untouched p ls m s : untouched ls (localStorage (fst (mount p ls m s))).
Proof.
  rewrite mount_result.
  set (w0 := mkTimer (initialState m s) None true [] 1%positive ls p true).
  pose proof (runSave_untouched w0) as H.
  destruct (runSave w0) as [w1 eSave]. cbn [fst] in H. cbv zeta.
  destruct (mobileAgent p); [destruct (hasNotification p)|]; cbn [fst]; try exact H.
  unfold unmount. cbn [localStorage]. rewrite cleanup_storage. exact H.
Qed.

(** The component touches one key of the store.  Whatever is stored
    under another key is the same after the mount and after any events,
    and so is whether the store can be read and written. *)
Theorem other_keys_untouched p ls m s evs key :
  key <> settingsKey ->
  let ls' := localStorage (fst (run evs (fst (mount p ls m s)))) in
  items ls' !! key = items ls !! key /\
  readable ls' = readable ls /\ writable ls' = writable ls.
Proof.
  intros Hk ls'.
  destruct (untouched_trans _ _ _ (mount_untouched p ls m s)
              (run_untouched evs (fst (mount p ls m s)))) as (H1 & H2 & H3).
  auto.
Qed.

Lemma other_keys_untouched_witness :
  "theme" <> settingsKey /\
  let ls' := localStorage (fst (run [PickMinutes 3; ClickStart; IntervalFires 1; ClickStop]
                                  (fst (mount desktop
                                          (mkStorage true true {[ "theme" := "dark" ]}) 1 0)))) in
  items ls' !! "theme" = items (mkStorage true true {[ "theme" := "dark" ]}) !! "theme" /\
  readable ls' = true /\ writable ls' = true.
Proof.
  assert (H : "theme" <> settingsKey) by (vm_compute; discriminate).
  exact (conj H (other_keys_untouched desktop (mkStorage true true {[ "theme" := "dark" ]})
                   1 0 [PickMinutes 3; ClickStart; IntervalFires 1; ClickStop] "theme" H)).
Defined.

Lemma mount_log p ls m s :
  snd (mount p ls m s)
  = permissionRequest p ++ (if writable ls then [] else [saveError]).
Proof.
  rewrite mount_result.
  set (w0 := mkTimer (initialState m s) None true [] 1%positive ls p true).
  assert (E : hasNotification p && negb (bool_decide (permission p = PermGranted))
                && negb (bool_decide (permission p = PermDenied))
              = hasNotification p && bool_decide (permission p = PermDefault)).
  { destruct (hasNotification p), (permission p); reflexivity. }
  assert (H : snd (runSave w0) = if writable ls then [] else [saveError]).
  { destruct (writable ls) eqn:Hw.
    - rewrite runSave_writable by exact Hw. reflexivity.
    - rewrite runSave_readonly by exact Hw. reflexivity. }
  destruct (runSave w0) as [w1 eSave]. cbn [snd] in H. subst eSave. cbv zeta.
  rewrite E. fold (permissionRequest p).
  destruct (mobileAgent p); [destruct (hasNotification p)|]; reflexivity.
Qed.

Lemma mount_storage p ls m s :
  writable ls = true ->
  localStorage (fst (mount p ls m s))
  = mkStorage (readable ls) true (<[settingsKey := JSON.stringify_settings m s]> (items ls)).
Proof.
  intros Hw. rewrite mount_result.
  set (w0 := mkTimer (initialState m s) None true [] 1%positive ls p true).
  rewrite (runSave_writable w0) by exact Hw. cbv zeta.
  destruct (mobileAgent p); [destruct (hasNotification p)|]; cbn [fst];
    try (unfold unmount; cbn [localStorage]; rewrite cleanup_storage); reflexivity.
Qed.

Lemma permissionRequest_no_error p : ~ In loadError (permissionRequest p).
Proof.
  unfold permissionRequest.
  destruct (hasNotification p && bool_decide (permission p = PermDefault)).
  - intros [H|[]]. discriminate.
  - intros [].
Qed.

(** A record that [JSON.parse] rejects costs one reload: the page starts
    from the default selection with one console error, the mount
    overwrites the record with that selection, and the next load reads it
    back without an error. *)
Theorem corrupt_record_is_replaced p ls text e :
  readable ls = true -> writable ls = true ->
  items ls !! settingsKey = Some text -> text <> EmptyString ->
  JSON.parse text = Throw e ->
  exists w log,
    boot p ls = Some (w, loadError :: log) /\
    ~ In loadError log /\
    minutes (state w) = 1 /\ seconds (state w) = 0 /\
    items (localStorage w) !! settingsKey = Some (JSON.stringify_settings 1 0) /\
    exists w2 log2,
      boot p (localStorage w) = Some (w2, log2) /\
      ~ In loadError log2 /\
      minutes (state w2) = 1 /\ seconds (state w2) = 0.
Proof.
  intros Hr Hw Hi Hne Hp.
  assert (Hload : getSavedTimerState ls = ([loadError], Ret defaultSelection)).
  { destruct text as [|c r]; [congruence|]. rewrite (load_text ls c r Hr Hi), Hp.
    reflexivity. }
  assert (Hnot : forall q l, writable l = true -> ~ In loadError (snd (mount q l 1 0))).
  { intros q l Hl. rewrite mount_log, Hl, app_nil_r. apply permissionRequest_no_error. }
  exists (fst (mount p ls 1 0)), (snd (mount p ls 1 0)).
  split; [|split; [|split; [|split; [|split]]]].
  - unfold boot. rewrite Hload. unfold defaultSelection.
    cbn [JSON.asInteger inject_Z Qden Qnum].
    change (1 =? 1)%positive with true. cbv iota.
    change (exact 1 && exact 0) with true. cbv iota.
    destruct (mount p ls 1 0) as [w l]. reflexivity.
  - apply Hnot. exact Hw.
  - apply mount_selection.
  - apply mount_selection.
  - rewrite mount_storage by exact Hw. cbn [items]. apply lookup_insert_eq.
  - set (ls' := localStorage (fst (mount p ls 1 0))).
    assert (Hr' : readable ls' = true).
    { subst ls'. rewrite mount_storage by exact Hw. exact Hr. }
    assert (Hw' : writable ls' = true).
    { subst ls'. rewrite mount_storage by exact Hw. reflexivity. }
    assert (Hi' : items ls' !! settingsKey = Some (JSON.stringify_settings 1 0)).
    { subst ls'. rewrite mount_storage by exact Hw. cbn [items]. apply lookup_insert_eq. }
    exists (fst (mount p ls' 1 0)), (snd (mount p ls' 1 0)).
    split; [|split; [|split]].
    + unfold boot.
      rewrite (load_object ls' _ [("minutes", JSON.Num (inject_Z 1));
                                  ("seconds", JSON.Num (inject_Z 0))] Hr' Hi').
      2:{ unfold JSON.stringify_settings. discriminate. }
      2:{ apply JSONFacts.parse_stringify_settings. }
      change (fieldOf "minutes" _) with (JSON.Num (inject_Z 1)).
      change (fieldOf "seconds" _) with (JSON.Num (inject_Z 0)).
      cbn [JSON.asInteger inject_Z Qden Qnum].
      change (1 =? 1)%positive with true. cbv iota.
      change (exact 1 && exact 0) with true. cbv iota.
      destruct (mount p ls' 1 0) as [w l]. reflexivity.
    + apply Hnot. exact Hw'.
    + apply mount_selection.
    + apply mount_selection.
Qed.

Lemma corrupt_record_is_replaced_witness :
  readable (storeWith "{minutes:7}") = true /\
  writable (storeWith "{minutes:7}") = true /\
  items (storeWith "{minutes:7}") !! settingsKey = Some "{minutes:7}" /\
  "{minutes:7}" <> EmptyString /\
  JSON.parse "{minutes:7}" = Throw SyntaxError /\
  exists w log,
    boot desktop (storeWith "{minutes:7}") = Some (w, loadError :: log) /\
    ~ In loadError log /\
    minutes (state w) = 1 /\ seconds (state w) = 0 /\
    items (localStorage w) !! settingsKey = Some (JSON.stringify_settings 1 0) /\
    exists w2 log2,
      boot desktop (localStorage w) = Some (w2, log2) /\
      ~ In loadError log2 /\
      minutes (state w2) = 1 /\ seconds (state w2) = 0.
Proof.
  assert (H1 : readable (storeWith "{minutes:7}") = true) by reflexivity.
  assert (H2 : writable (storeWith "{minutes:7}") = true) by reflexivity.
  assert (H3 : items (storeWith "{minutes:7}") !! settingsKey = Some "{minutes:7}")
    by (vm_compute; reflexivity).
  assert (H4 : "{minutes:7}" <> EmptyString) by discriminate.
  assert (H5 : JSON.parse "{minutes:7}" = Throw SyntaxError) by (vm_compute; reflexivity).
  exact (conj H1 (conj H2 (conj H3 (conj H4 (conj H5
           (corrupt_record_is_replaced desktop (storeWith "{minutes:7}") "{minutes:7}"
              SyntaxError H1 H2 H3 H4 H5)))))).
Defined.

(** ** A store that cannot be written *)

(** When [localStorage.setItem] throws, a pick from a dropdown still
    changes the selection; the component stays mounted, logs one console
    error and leaves the store as it was.  The store is one on which the
    loader is silent: it can be read, and what it holds loads without an
    error. *)
Theorem pick_survives_write_failure w i :
  wf w -> running (state w) = false -> writable (localStorage w) = false ->
  quietStore (localStorage w) ->
  (i < 11)%nat -> Z.of_nat i <> minutes (state w) ->
  step (PickMinutes i) w = (setState w (setMinutes (Z.of_nat i) (state w)), [saveError]).
Proof.
  intros Hwf Hr Hw _ Hi Hne. unfold step.
  rewrite (wf_mounted _ Hwf). simpl negb. cbv iota.
  unfold selectDisabled. rewrite Hr. unfold pick.
  pose proof (generateOptions_lookup 10 i Hi) as Ho. fold minuteOptions in Ho.
  destruct (minuteOptions !! i) as [o|]; [|discriminate]. injection Ho as Ho.
  rewrite update_setMinutes by assumption. rewrite Ho.
  case_bool_decide as E; [contradiction|].
  apply runSave_readonly. exact Hw.
Qed.

Lemma pick_survives_write_failure_witness :
  let w := fst (mount desktop (mkStorage true false ∅) 1 0) in
  wf w /\ running (state w) = false /\ writable (localStorage w) = false /\
  quietStore (localStorage w) /\
  (7 < 11)%nat /\ Z.of_nat 7 <> minutes (state w) /\
  step (PickMinutes 7) w = (setState w (setMinutes (Z.of_nat 7) (state w)), [saveError]).
Proof.
  set (w := fst (mount desktop (mkStorage true false ∅) 1 0)).
  assert (H1 : wf w).
  { constructor; try (vm_compute; reflexivity). intros H. vm_compute in H. discriminate H. }
  assert (H2 : running (state w) = false) by reflexivity.
  assert (H3 : writable (localStorage w) = false) by reflexivity.
  assert (H4 : (7 < 11)%nat) by lia.
  assert (H5 : Z.of_nat 7 <> minutes (state w)) by (vm_compute; discriminate).
  assert (Hq : quietStore (localStorage w)) by (vm_compute; reflexivity).
  exact (conj H1 (conj H2 (conj H3 (conj Hq (conj H4 (conj H5
           (pick_survives_write_failure w 7 H1 H2 H3 Hq H4 H5))))))).
Defined.

(** ** What the loader logs and returns *)

(** The loader logs nothing or one console error, and it logs the error
    only when it also returns the default selection. *)
Theorem load_logs_only_with_default ls :
  getSavedTimerState ls = ([loadError], Ret defaultSelection) \/
  exists selection, getSavedTimerState ls = ([], Ret selection).
Proof.
  destruct (readable ls) eqn:Hr; [|left; apply load_unreadable; exact Hr].
  destruct (items ls !! settingsKey) as [[|c r]|] eqn:Hi.
  - right. eexists. apply load_empty; assumption.
  - rewrite (load_text ls c r Hr Hi).
    destruct (JSON.parse (String c r)) as [v|e]; [|left; reflexivity].
    destruct (JSON.getProp v "minutes") as [vm|e1]; [|left; reflexivity].
    destruct (JSON.getProp v "seconds") as [vs|e2]; [|left; reflexivity].
    right. eexists. reflexivity.
  - right. eexists. apply load_missing; assumption.
Qed.

(** A record that parses to a boolean, a number, a string or an array is
    not an error for the loader: both parts of the selection come back
    [undefined], silently. *)
Theorem load_non_object ls text v :
  readable ls = true -> items ls !! settingsKey = Some text ->
  text <> EmptyString -> JSON.parse text = Ret v ->
  match v with JSON.Bool _ | JSON.Num _ | JSON.Str _ | JSON.Arr _ => True | _ => False end ->
  getSavedTimerState ls = ([], Ret (JSON.Undefined, JSON.Undefined)).
Proof.
  intros Hr Hi Hne Hp Hv.
  destruct text as [|c r]; [congruence|]. rewrite (load_text ls c r Hr Hi), Hp.
  destruct v; try contradiction; reflexivity.
Qed.

Lemma load_non_object_witness :
  readable (storeWith "[7,30]") = true /\
  items (storeWith "[7,30]") !! settingsKey = Some "[7,30]" /\
  "[7,30]" <> EmptyString /\
  JSON.parse "[7,30]" = Ret (JSON.Arr [JSON.Num 7; JSON.Num 30]) /\
  True /\
  getSavedTimerState (storeWith "[7,30]") = ([], Ret (JSON.Undefined, JSON.Undefined)).
Proof.
  assert (H1 : readable (storeWith "[7,30]") = true) by reflexivity.
  assert (H2 : items (storeWith "[7,30]") !! settingsKey = Some "[7,30]")
    by (vm_compute; reflexivity).
  assert (H3 : "[7,30]" <> EmptyString) by discriminate.
  assert (H4 : JSON.parse "[7,30]" = Ret (JSON.Arr [JSON.Num 7; JSON.Num 30]))
    by (vm_compute; reflexivity).
  exact (conj H1 (conj H2 (conj H3 (conj H4 (conj I
           (load_non_object (storeWith "[7,30]") "[7,30]" _ H1 H2 H3 H4 I)))))).
Defined.

(** ** The first render on what the loader returned *)

Lemma labelOf_integer v z : JSON.asInteger v = Some z -> labelOf v = Ret tt.
Proof. destruct v; try discriminate. reflexivity. Qed.

(** Whenever the saved selection is a pair of integers, the first render
    returns, so the component is mounted as [boot] says. *)
Lemma boot_renders p ls w log :
  boot p ls = Some (w, log) ->
  exists selection, loadPage ls = (fst (getSavedTimerState ls), Ret selection).
Proof.
  unfold boot, loadPage.
  destruct (getSavedTimerState ls) as [lg [[vm vs]|e]]; [|discriminate].
  destruct (JSON.asInteger vm) as [m|] eqn:Em; [|discriminate].
  destruct (JSON.asInteger vs) as [s|] eqn:Es; [|discriminate].
  intros _. exists (vm, vs).
  unfold mbind, Js_bind, bind, lift, firstRender. cbn [fst snd].
  rewrite (labelOf_integer _ _ Em), (labelOf_integer _ _ Es).
  cbn. rewrite !app_nil_r. reflexivity.
Qed.

(** A record that parses, but from which the loader gets [undefined] for
    the minutes or for the seconds, is accepted without an error, and
    then the first render throws a [TypeError] at the label of the
    dropdown.  No effect has run by then, so the record stays in the
    store and the next load ends the same way. *)
Theorem undefined_selection_stops_first_render ls text v :
  readable ls = true -> items ls !! settingsKey = Some text ->
  text <> EmptyString -> JSON.parse text = Ret v ->
  JSON.getProp v "minutes" = Ret JSON.Undefined
  \/ JSON.getProp v "seconds" = Ret JSON.Undefined ->
  loadPage ls = ([], Throw TypeError).
Proof.
  intros Hr Hi Hne Hp Hu. unfold loadPage.
  destruct text as [|c r]; [congruence|]. rewrite (load_text ls c r Hr Hi), Hp.
  destruct (JSON.getProp v "minutes") as [vm|e1] eqn:Em.
  2:{ destruct Hu as [Hu|Hu]; [discriminate|]. destruct v; discriminate. }
  destruct (JSON.getProp v "seconds") as [vs|e2] eqn:Es.
  2:{ destruct v; discriminate. }
  unfold mbind, Js_bind, bind, lift, firstRender. cbn [fst snd].
  destruct Hu as [Hu|Hu]; injection Hu as ->.
  - reflexivity.
  - destruct (labelOf vm) as [[]|e] eqn:El; [reflexivity|].
    unfold labelOf in El. destruct vm; try (injection El as <-; reflexivity);
      destruct (ownToString _); try discriminate; injection El as <-; reflexivity.
Qed.

Lemma undefined_selection_stops_first_render_witness :
  readable (storeWith "{}") = true /\
  items (storeWith "{}") !! settingsKey = Some "{}" /\
  "{}" <> EmptyString /\
  JSON.parse "{}" = Ret (JSON.Obj []) /\
  (JSON.getProp (JSON.Obj []) "minutes" = Ret JSON.Undefined
   \/ JSON.getProp (JSON.Obj []) "seconds" = Ret JSON.Undefined) /\
  loadPage (storeWith "{}") = ([], Throw TypeError).
Proof.
  assert (H1 : readable (storeWith "{}") = true) by reflexivity.
  assert (H2 : items (storeWith "{}") !! settingsKey = Some "{}")
    by (vm_compute; reflexivity).
  assert (H3 : "{}" <> EmptyString) by discriminate.
  assert (H4 : JSON.parse "{}" = Ret (JSON.Obj [])) by (vm_compute; reflexivity).
  assert (H5 : JSON.getProp (JSON.Obj []) "minutes" = Ret JSON.Undefined
               \/ JSON.getProp (JSON.Obj []) "seconds" = Ret JSON.Undefined)
    by (left; reflexivity).
  exact (conj H1 (conj H2 (conj H3 (conj H4 (conj H5
           (undefined_selection_stops_first_render (storeWith "{}") "{}" _
              H1 H2 H3 H4 H5)))))).
Defined.

(** ** The transitions of a well-formed component *)

(** While the countdown runs, Start and the dropdowns are disabled, Stop
    leads to the idle shape, and only the interval of the run ticks. *)
Lemma step_running ev w t :
  wf w -> running (state w) = true -> timeLeft (state w) = Some t ->
  step ev w =
  match ev with
  | ClickStart | PickMinutes _ | PickSeconds _ | Resize => (w, [])
  | ClickStop => (idleWith w (stopTimer (state w)), stopAudio w)
  | IntervalFires id =>
      if bool_decide (timerIntervalRef w = Some id) then
        if 1 <? t
        then (countingWith w (setTimeLeft (Some (t - 1)) (state w)), [])
        else (idleWith w (setRunning false (setTimeLeft (Some 0) (state w))),
              NotifyUserCalled :: notifyUser w)
      else (w, [])
  | PermissionChanges perm =>
      (setPlatform w (mkPlatform (hasNotification (platform w)) perm
                        (hasVibrate (platform w)) (mobileAgent (platform w))
                        (playRejects (platform w))), [])
  | AutoplayChanges rejects =>
      (setPlatform w (mkPlatform (hasNotification (platform w)) (permission (platform w))
                        (hasVibrate (platform w)) (mobileAgent (platform w)) rejects), [])
  end.
Proof.
  intros Hwf Hr Ht. unfold step. rewrite (wf_mounted _ Hwf). simpl negb. cbv iota zeta.
  destruct (wf_counting_shape w Hwf Hr) as (id' & t' & Href & Hi & Ht' & Hb).
  assert (t' = t) by congruence. subst t'.
  destruct ev.
  - unfold startDisabled. rewrite Hr. reflexivity.
  - unfold stopDisabled. rewrite Hr. simpl negb. cbv iota.
    apply invokeStop_result. exact Hwf.
  - unfold selectDisabled. rewrite Hr. reflexivity.
  - unfold selectDisabled. rewrite Hr. reflexivity.
  - rewrite Hi, Href.
    destruct (decide (id' = id)) as [<- | Hne].
    + rewrite !bool_decide_eq_true_2; [|reflexivity | apply list_elem_of_singleton; reflexivity].
      rewrite <- (fires_unfold w id' Hwf Href).
      destruct (1 <? t) eqn:Hlt.
      * apply second_counting; auto. apply Z.ltb_lt. exact Hlt.
      * assert (t = 1) by (apply Z.ltb_ge in Hlt; lia). subst t.
        apply second_last; auto.
    + rewrite !bool_decide_eq_false_2; [reflexivity | congruence |].
      rewrite list_elem_of_singleton. congruence.
  - apply update_same. unfold setIsMobile. rewrite <- (wf_agent _ Hwf). apply State_eta.
  - reflexivity.
  - reflexivity.
Qed.

(** While the component is idle, Stop is disabled and no interval is
    left to tick; Start starts when the selection adds up to more than 0
    seconds, and a pick that changes the selection saves it. *)
Lemma step_idle ev w :
  wf w -> running (state w) = false ->
  step ev w =
  match ev with
  | ClickStart =>
      if 0 <? minutes (state w) * 60 + seconds (state w)
      then (countingWith w (startTimer (state w)), [])
      else (w, [])
  | ClickStop | IntervalFires _ | Resize => (w, [])
  | PickMinutes i =>
      match minuteOptions !! i with
      | Some o => if bool_decide (value o = minutes (state w)) then (w, [])
                  else runSave (setState w (setMinutes (value o) (state w)))
      | None => (w, [])
      end
  | PickSeconds i =>
      match secondOptions !! i with
      | Some o => if bool_decide (value o = seconds (state w)) then (w, [])
                  else runSave (setState w (setSeconds (value o) (state w)))
      | None => (w, [])
      end
  | PermissionChanges perm =>
      (setPlatform w (mkPlatform (hasNotification (platform w)) perm
                        (hasVibrate (platform w)) (mobileAgent (platform w))
                        (playRejects (platform w))), [])
  | AutoplayChanges rejects =>
      (setPlatform w (mkPlatform (hasNotification (platform w)) (permission (platform w))
                        (hasVibrate (platform w)) (mobileAgent (platform w)) rejects), [])
  end.
Proof.
  intros Hwf Hr. unfold step. rewrite (wf_mounted _ Hwf). simpl negb. cbv iota zeta.
  destruct (wf_idle_shape w Hwf Hr) as (Href & Hi & _).
  destruct ev.
  - unfold startDisabled. rewrite Hr. simpl orb.
    destruct (0 <? minutes (state w) * 60 + seconds (state w)) eqn:Hp.
    + apply Z.ltb_lt in Hp.
      destruct ((minutes (state w) =? 0) && (seconds (state w) =? 0)) eqn:Hz.
      * apply andb_true_iff in Hz as [H1 H2]. apply Z.eqb_eq in H1, H2. lia.
      * apply invokeStart_idle; assumption.
    + apply Z.ltb_ge in Hp.
      destruct ((minutes (state w) =? 0) && (seconds (state w) =? 0)); [reflexivity|].
      unfold invokeStart. apply update_same. apply startTimer_nonpositive. exact Hp.
  - unfold stopDisabled. rewrite Hr. reflexivity.
  - unfold selectDisabled. rewrite Hr. unfold pick.
    destruct (minuteOptions !! i); [|reflexivity]. apply update_setMinutes; assumption.
  - unfold selectDisabled. rewrite Hr. unfold pick.
    destruct (secondOptions !! i); [|reflexivity]. apply update_setSeconds; assumption.
  - rewrite Hi. rewrite bool_decide_eq_false_2; [reflexivity | apply not_elem_of_nil].
  - apply update_same. unfold setIsMobile. rewrite <- (wf_agent _ Hwf). apply State_eta.
  - reflexivity.
  - reflexivity.
Qed.

Lemma reachable_run evs : forall w, reachable w -> reachable (fst (run evs w)).
Proof.
  induction evs as [|ev rest IH]; intros w H; [exact H|].
  cbn [run]. pose proof (reach_step w ev H) as H1.
  destruct (step ev w) as [w1 e1]. cbn [fst] in H1.
  pose proof (IH w1 H1) as H2. destruct (run rest w1) as [w2 e2]. exact H2.
Qed.

(** ** The device check *)

(** The handler of [resize] computes the same answer as the check at the
    mount did, so a resize changes nothing and logs nothing, in every
    state the component reaches. *)
Theorem resize_changes_nothing w :
  reachable w ->
  step Resize w = (w, []) /\ isMobile (state w) = mobileAgent (platform w).
Proof.
  intros H. apply reachable_wf in H. split; [|apply (wf_agent _ H)].
  destruct (running (state w)) eqn:Hr.
  - destruct (wf_counting_shape w H Hr) as (id & t & _ & _ & Ht & _).
    apply (step_running Resize w t H Hr Ht).
  - apply (step_idle Resize w H Hr).
Qed.

Lemma resize_changes_nothing_witness :
  reachable lastSecond /\
  step Resize lastSecond = (lastSecond, []) /\
  isMobile (state lastSecond) = mobileAgent (platform lastSecond).
Proof.
  assert (H : reachable lastSecond).
  { apply reachable_run.
    apply (reach_mount phone emptyStorage 0 3); vm_compute; reflexivity. }
  exact (conj H (resize_changes_nothing lastSecond H)).
Defined.

(** ** During a run *)

(** While the countdown runs nothing changes the selection, the
    reference duration or the store, whatever happens: the dropdowns are
    disabled, and neither a tick nor Stop touches them. *)
Theorem run_leaves_selection_and_store w ev :
  wf w -> running (state w) = true ->
  let w' := fst (step ev w) in
  minutes (state w') = minutes (state w) /\
  seconds (state w') = seconds (state w) /\
  originalTime (state w') = originalTime (state w) /\
  localStorage w' = localStorage w.
Proof.
  intros Hwf Hr w'. subst w'.
  destruct (wf_counting_shape w Hwf Hr) as (id & t & _ & _ & Ht & _).
  rewrite (step_running ev w t Hwf Hr Ht).
  destruct ev; cbn [fst]; auto.
  case_bool_decide; [destruct (1 <? t)|]; cbn [fst]; auto.
Qed.

Lemma run_leaves_selection_and_store_witness :
  wf lastSecond /\ running (state lastSecond) = true /\
  let w' := fst (step (IntervalFires 3) lastSecond) in
  minutes (state w') = minutes (state lastSecond) /\
  seconds (state w') = seconds (state lastSecond) /\
  originalTime (state w') = originalTime (state lastSecond) /\
  localStorage w' = localStorage lastSecond.
Proof.
  assert (H1 : wf lastSecond) by wf_by_evaluation.
  assert (H2 : running (state lastSecond) = true) by (vm_compute; reflexivity).
  exact (conj H1 (conj H2
           (run_leaves_selection_and_store lastSecond (IntervalFires 3) H1 H2))).
Defined.

(** Stop during a run clears the interval of the run: no interval is
    left, the log holds only the calls that silence the audio element,
    and afterwards neither a late tick of any interval nor the passing of
    time changes anything.  The store is one on which the loader is
    silent, so the render after Stop adds nothing to the log. *)
Theorem stop_cancels_the_ticks w :
  wf w -> quietStore (localStorage w) -> running (state w) = true ->
  let w' := fst (step ClickStop w) in
  intervals w' = [] /\ timerIntervalRef w' = None /\
  running (state w') = false /\ timeLeft (state w') = None /\
  snd (step ClickStop w) = stopAudio w /\
  (forall id, step (IntervalFires id) w' = (w', [])) /\
  (forall n, secondsElapsed n w' = (w', [])).
Proof.
  intros Hwf _ Hr w'.
  destruct (wf_counting_shape w Hwf Hr) as (id & t & _ & _ & Ht & _).
  pose proof (step_running ClickStop w t Hwf Hr Ht) as Hs. cbv iota in Hs.
  assert (Hwf' : wf w') by (apply wf_step; exact Hwf).
  subst w'. rewrite Hs in *. cbn [fst snd] in *.
  assert (Hr' : running (state (idleWith w (stopTimer (state w)))) = false) by reflexivity.
  repeat split.
  - intros id'. apply (step_idle (IntervalFires id') _ Hwf' Hr').
  - intros n. induction n as [|k IH]; [reflexivity|].
    cbn [secondsElapsed]. rewrite (second_idle _ Hwf' Hr'), IH. reflexivity.
Qed.

Lemma stop_cancels_the_ticks_witness :
  wf lastSecond /\ quietStore (localStorage lastSecond) /\
  running (state lastSecond) = true /\
  let w' := fst (step ClickStop lastSecond) in
  intervals w' = [] /\ timerIntervalRef w' = None /\
  running (state w') = false /\ timeLeft (state w') = None /\
  snd (step ClickStop lastSecond) = stopAudio lastSecond /\
  (forall id, step (IntervalFires id) w' = (w', [])) /\
  (forall n, secondsElapsed n w' = (w', [])).
Proof.
  assert (H1 : wf lastSecond) by wf_by_evaluation.
  assert (H2 : running (state lastSecond) = true) by (vm_compute; reflexivity).
  assert (Hq : quietStore (localStorage lastSecond)) by (vm_compute; reflexivity).
  exact (conj H1 (conj Hq (conj H2 (stop_cancels_the_ticks lastSecond H1 Hq H2)))).
Defined.

(** ** The shape of the states the component reaches *)

(** In every state the component reaches from a mount on a selection of
    whole numbers (within 2^46, where the arithmetic on doubles is
    exact), an interval is active exactly while the countdown runs, it is
    the one the ref holds, and then between 1 second and the reference
    duration is left; while idle no interval is active and the remaining
    time is unset or 0.  A stored selection with a fraction is outside
    [reachable]; from one the remaining time can pass below 0 without
    meeting it, see [Loaded]. *)
Theorem ticking_exactly_while_running w :
  reachable w ->
  if running (state w)
  then exists id t, intervals w = [id] /\ timerIntervalRef w = Some id /\
                    timeLeft (state w) = Some t /\ 1 <= t <= originalTime (state w)
  else intervals w = [] /\ timerIntervalRef w = None /\
       (timeLeft (state w) = None \/ timeLeft (state w) = Some 0).
Proof.
  intros H. apply reachable_wf in H.
  destruct (running (state w)) eqn:Hr.
  - destruct (wf_counting_shape w H Hr) as (id & t & H1 & H2 & H3 & H4).
    exists id, t. auto.
  - destruct (wf_idle_shape w H Hr) as (H1 & H2 & H3). auto.
Qed.

Lemma ticking_exactly_while_running_witness :
  reachable lastSecond /\
  exists id t, intervals lastSecond = [id] /\ timerIntervalRef lastSecond = Some id /\
               timeLeft (state lastSecond) = Some t /\
               1 <= t <= originalTime (state lastSecond).
Proof.
  assert (H : reachable lastSecond).
  { apply reachable_run.
    apply (reach_mount phone emptyStorage 0 3); vm_compute; reflexivity. }
  exact (conj H (ticking_exactly_while_running lastSecond H)).
Defined.

(** ** Signals *)

Lemma notifyUser_silent_parts w :
  Forall (fun e => isSignal e = false) (stopAudio w) /\
  Forall (fun e => isSignal e = false) (snd (runSave w)).
Proof.
  split.
  - unfold stopAudio. destruct (audioRef w); repeat constructor.
  - destruct (writable (localStorage w)) eqn:Hw.
    + rewrite runSave_writable by exact Hw. constructor.
    + rewrite runSave_readonly by exact Hw. repeat constructor.
Qed.

(** No false alarm: a notification, a vibration or the sound can only
    come from the tick of the run's own interval that takes the
    remaining time from 1 to 0.  No click, pick, resize, stale interval
    or earlier tick produces one. *)
Theorem signals_only_at_completion w ev e :
  wf w -> In e (snd (step ev w)) -> isSignal e = true ->
  running (state w) = true /\ timeLeft (state w) = Some 1 /\
  exists id, ev = IntervalFires id /\ timerIntervalRef w = Some id.
Proof.
  intros Hwf Hin He.
  destruct (notifyUser_silent_parts w) as [Hstop _].
  rewrite List.Forall_forall in Hstop.
  destruct (running (state w)) eqn:Hr.
  - destruct (wf_counting_shape w Hwf Hr) as (id & t & _ & _ & Ht & Hb).
    rewrite (step_running ev w t Hwf Hr Ht) in Hin.
    destruct ev; cbn [snd] in Hin; try contradiction.
    + apply Hstop in Hin. congruence.
    + case_bool_decide as Hid; [|contradiction].
      destruct (1 <? t) eqn:Hlt; [contradiction|].
      apply Z.ltb_ge in Hlt. assert (t = 1) by lia. subst t. eauto.
  - rewrite (step_idle ev w Hwf Hr) in Hin.
    destruct ev; cbn [snd] in Hin; try contradiction.
    + destruct (0 <? _); contradiction.
    + destruct (minuteOptions !! i); [|contradiction].
      case_bool_decide; [contradiction|].
      destruct (notifyUser_silent_parts (setState w (setMinutes (value s) (state w))))
        as [_ Hs]. rewrite List.Forall_forall in Hs. apply Hs in Hin. congruence.
    + destruct (secondOptions !! i); [|contradiction].
      case_bool_decide; [contradiction|].
      destruct (notifyUser_silent_parts (setState w (setSeconds (value s) (state w))))
        as [_ Hs]. rewrite List.Forall_forall in Hs. apply Hs in Hin. congruence.
Qed.

Lemma signals_only_at_completion_witness :
  wf lastSecond /\
  In (Vibrate 300) (snd (step (IntervalFires 3) lastSecond)) /\
  isSignal (Vibrate 300) = true /\
  running (state lastSecond) = true /\ timeLeft (state lastSecond) = Some 1 /\
  exists id, IntervalFires 3 = IntervalFires id /\ timerIntervalRef lastSecond = Some id.
Proof.
  assert (H1 : wf lastSecond) by wf_by_evaluation.
  assert (H2 : In (Vibrate 300) (snd (step (IntervalFires 3) lastSecond)))
    by (vm_compute; auto).
  assert (H3 : isSignal (Vibrate 300) = true) by reflexivity.
  exact (conj H1 (conj H2 (conj H3
           (signals_only_at_completion lastSecond (IntervalFires 3) (Vibrate 300)
              H1 H2 H3)))).
Defined.

(** ** The Start button *)

(** On every selection the dropdowns offer, the guard of the Start button
    and the guard inside [startTimer] agree: the button of an idle
    component is enabled exactly when a click starts the countdown.
    Outside that range they can differ: with 1 minute and -60 seconds,
    which only a saved record can bring about, the button is enabled and
    a click does nothing. *)
Theorem start_button_agrees_with_startTimer w :
  wf w -> running (state w) = false -> inRange (state w) = true ->
  startDisabled (state w) = negb (running (state (fst (step ClickStart w)))) /\
  startDisabled (state (exampleTimer 1 (-60))) = false /\
  step ClickStart (exampleTimer 1 (-60)) = (exampleTimer 1 (-60), []).
Proof.
  intros Hwf Hr Hin. split; [|split; vm_compute; reflexivity].
  rewrite (step_idle ClickStart w Hwf Hr). unfold startDisabled, inRange in *.
  rewrite Hr. simpl orb.
  apply andb_true_iff in Hin as [Hin H4]. apply andb_true_iff in Hin as [Hin H3].
  apply andb_true_iff in Hin as [H1 H2].
  apply Z.leb_le in H1, H2, H3, H4.
  destruct (0 <? minutes (state w) * 60 + seconds (state w)) eqn:Hp.
  - apply Z.ltb_lt in Hp. cbn [fst]. rewrite (startTimer_positive _ Hp). cbn.
    apply andb_false_iff.
    destruct (Z.eqb_spec (minutes (state w)) 0); [right; apply Z.eqb_neq; lia | left; reflexivity].
  - apply Z.ltb_ge in Hp. cbn [fst]. rewrite Hr. cbn.
    apply andb_true_iff. split; apply Z.eqb_eq; lia.
Qed.

Lemma start_button_agrees_with_startTimer_witness :
  wf phoneTimer /\ running (state phoneTimer) = false /\ inRange (state phoneTimer) = true /\
  startDisabled (state phoneTimer) = negb (running (state (fst (step ClickStart phoneTimer)))).
Proof.
  assert (H1 : wf phoneTimer) by wf_by_evaluation.
  assert (H2 : running (state phoneTimer) = false) by reflexivity.
  assert (H3 : inRange (state phoneTimer) = true) by reflexivity.
  exact (conj H1 (conj H2 (conj H3
           (proj1 (start_button_agrees_with_startTimer phoneTimer H1 H2 H3))))).
Defined.

(** When Start is clicked on a selection the dropdowns offer, the ring
    shows that selection as [mm:ss] and the progress is 100. *)
Theorem start_shows_the_selection w :
  wf w -> running (state w) = false -> inRange (state w) = true ->
  0 < minutes (state w) * 60 + seconds (state w) ->
  let w' := fst (step ClickStart w) in
  countdownText (timeLeft (state w'))
  = label (selected (minutes (state w))) +:+ ":" +:+ label (selected (seconds (state w))) /\
  (progress (state w') == 100)%Q.
Proof.
  intros Hwf Hr Hin Hp w'. subst w'.
  rewrite (step_idle ClickStart w Hwf Hr).
  assert (Hlt : (0 <? minutes (state w) * 60 + seconds (state w)) = true)
    by (apply Z.ltb_lt; exact Hp).
  rewrite Hlt. cbn [fst]. rewrite (startTimer_positive _ Hp).
  unfold inRange in Hin.
  apply andb_true_iff in Hin as [Hin H4]. apply andb_true_iff in Hin as [Hin H3].
  apply andb_true_iff in Hin as [H1 H2].
  apply Z.leb_le in H1, H2, H3, H4.
  split.
  - unfold countingWith, idleWith, setIntervalRef. cbn [state timeLeft].
    unfold countdownText, selected. cbn [label].
    assert (Hq : (minutes (state w) * 60 + seconds (state w)) / 60 = minutes (state w)).
    { symmetry. apply (Z.div_unique _ 60 _ (seconds (state w))); lia. }
    assert (Hm : Z.rem (minutes (state w) * 60 + seconds (state w)) 60 = seconds (state w)).
    { rewrite Z.rem_mod_nonneg by lia. symmetry.
      apply (Z.mod_unique _ 60 (minutes (state w))); lia. }
    rewrite Hq, Hm. reflexivity.
  - rewrite (progress_set _ (minutes (state w) * 60 + seconds (state w))); cbn; try lia;
      try reflexivity.
    unfold Qeq. cbn. rewrite Z2Pos.id by lia. lia.
Qed.

Lemma start_shows_the_selection_witness :
  wf phoneTimer /\ running (state phoneTimer) = false /\ inRange (state phoneTimer) = true /\
  0 < minutes (state phoneTimer) * 60 + seconds (state phoneTimer) /\
  countdownText (timeLeft (state (fst (step ClickStart phoneTimer)))) = "00:03" /\
  (progress (state (fst (step ClickStart phoneTimer))) == 100)%Q.
Proof.
  assert (H1 : wf phoneTimer) by wf_by_evaluation.
  assert (H2 : running (state phoneTimer) = false) by reflexivity.
  assert (H3 : inRange (state phoneTimer) = true) by reflexivity.
  assert (H4 : 0 < minutes (state phoneTimer) * 60 + seconds (state phoneTimer))
    by (vm_compute; reflexivity).
  exact (conj H1 (conj H2 (conj H3 (conj H4
           (start_shows_the_selection phoneTimer H1 H2 H3 H4))))).
Defined.

(** ** Teardown *)

(** Unmounting a component in any state it reaches clears the interval
    of a run in progress: none is left behind to tick. *)
Theorem unmount_clears_the_interval w :
  reachable w ->
  intervals (unmount w) = [] /\ timerIntervalRef (unmount w) = None /\
  mounted (unmount w) = false /\ state (unmount w) = state w /\
  forall evs, run evs (unmount w) = (unmount w, []).
Proof.
  intros H. apply reachable_wf in H.
  assert (Hc : countdownCleanup w = idleWith w (state w)).
  { rewrite <- (cleanup_setState w (state w) (wf_intervals _ H)).
    f_equal. unfold setState. destruct w; reflexivity. }
  unfold unmount. rewrite Hc. cbn. repeat split.
  intros evs. apply run_unmounted. reflexivity.
Qed.

Lemma unmount_clears_the_interval_witness :
  reachable lastSecond /\
  intervals lastSecond = [3%positive] /\
  intervals (unmount lastSecond) = [] /\ timerIntervalRef (unmount lastSecond) = None /\
  mounted (unmount lastSecond) = false /\ state (unmount lastSecond) = state lastSecond /\
  forall evs, run evs (unmount lastSecond) = (unmount lastSecond, []).
Proof.
  assert (H : reachable lastSecond).
  { apply reachable_run.
    apply (reach_mount phone emptyStorage 0 3); vm_compute; reflexivity. }
  assert (H0 : intervals lastSecond = [3%positive]) by (vm_compute; reflexivity).
  exact (conj H (conj H0 (unmount_clears_the_interval lastSecond H))).
Defined.

(** ** Starting again *)

(** [startTimer] called while a countdown runs, which the disabled button
    prevents but the handler does not, begins the run again from the
    selection and still leaves exactly one interval: the cleanup of the
    countdown effect clears the old one before a new one is created.
    The store is one on which the loader is silent, so the render that
    follows adds nothing to the log. *)
Theorem restart_keeps_one_interval w :
  wf w -> quietStore (localStorage w) ->
  0 < minutes (state w) * 60 + seconds (state w) ->
  let w' := fst (invokeStart w) in
  state w' = startTimer (state w) /\
  snd (invokeStart w) = [] /\
  exists id, intervals w' = [id] /\ timerIntervalRef w' = Some id.
Proof.
  intros Hwf _ Hp w'. subst w'.
  destruct (running (state w)) eqn:Hr.
  2:{ rewrite (invokeStart_idle w Hwf Hr Hp). cbn. eauto. }
  destruct (wf_counting_shape w Hwf Hr) as (id & t & Href & Hi & Ht & Hb).
  unfold invokeStart.
  destruct (decide (startTimer (state w) = state w)) as [E | Hne].
  { rewrite (update_same w startTimer E), E. cbn. eauto. }
  destruct (decide (t = minutes (state w) * 60 + seconds (state w))) as [-> | Hnt].
  - (* only the reference duration changes: one pass, no effect runs *)
    assert (Hd : countdownDepsChanged (state w) (startTimer (state w)) = false).
    { rewrite (startTimer_positive _ Hp). unfold countdownDepsChanged. cbn.
      rewrite bool_decide_eq_true_2; [reflexivity | auto]. }
    assert (Hs : selectionChanged (state w) (startTimer (state w)) = false).
    { rewrite (startTimer_positive _ Hp). unfold selectionChanged. cbn.
      rewrite bool_decide_eq_true_2; [reflexivity | auto]. }
    unfold update, maxUpdateDepth. rewrite commit_S. simpl state.
    rewrite bool_decide_eq_false_2 by exact Hne.
    simpl platform.
    rewrite (render_mobile (platform w) (state w) (startTimer (state w))),
      (wf_render _ Hwf) by (rewrite (startTimer_positive _ Hp); reflexivity).
    rewrite Hd, Hs. cbv zeta.
    rewrite commit_same by reflexivity. cbn. eauto.
  - rewrite (update_counting w startTimer Hwf); cbn; eauto;
      rewrite (startTimer_positive _ Hp); cbn; auto.
    + unfold countdownDepsChanged. cbn. rewrite Ht.
      rewrite bool_decide_eq_false_2; [reflexivity|].
      intros (_ & E & _). inversion E. congruence.
    + apply Z.ltb_lt. exact Hp.
Qed.

Lemma restart_keeps_one_interval_witness :
  wf lastSecond /\ quietStore (localStorage lastSecond) /\ 0 < minutes (state lastSecond) * 60 + seconds (state lastSecond) /\
  timeLeft (state lastSecond) = Some 1 /\
  timeLeft (state (fst (invokeStart lastSecond))) = Some 3 /\
  state (fst (invokeStart lastSecond)) = startTimer (state lastSecond) /\
  snd (invokeStart lastSecond) = [] /\
  exists id, intervals (fst (invokeStart lastSecond)) = [id] /\
             timerIntervalRef (fst (invokeStart lastSecond)) = Some id.
Proof.
  assert (H1 : wf lastSecond) by wf_by_evaluation.
  assert (H2 : 0 < minutes (state lastSecond) * 60 + seconds (state lastSecond))
    by (vm_compute; reflexivity).
  assert (H3 : timeLeft (state lastSecond) = Some 1) by (vm_compute; reflexivity).
  assert (H4 : timeLeft (state (fst (invokeStart lastSecond))) = Some 3)
    by (vm_compute; reflexivity).
  assert (Hq : quietStore (localStorage lastSecond)) by (vm_compute; reflexivity).
  exact (conj H1 (conj Hq (conj H2 (conj H3 (conj H4
           (restart_keeps_one_interval lastSecond H1 Hq H2)))))).
Defined.

(** ** A whole run *)

Lemma run_completes_and_notifies_witness :
  wf phoneTimer /\ quietStore (localStorage phoneTimer) /\
  running (state phoneTimer) = false /\
  0 < minutes (state phoneTimer) * 60 + seconds (state phoneTimer) /\
  running (state (fst (secondsElapsed 3 (fst (step ClickStart phoneTimer))))) = false /\
  snd (secondsElapsed 3 (fst (step ClickStart phoneTimer)))
  = [NotifyUserCalled; ShowNotification "⏳ Timer Done!"; Vibrate 300;
     AudioSetVolume (7 # 10); AudioPlay].
Proof.
  assert (H1 : wf phoneTimer) by wf_by_evaluation.
  assert (H2 : running (state phoneTimer) = false) by reflexivity.
  assert (H3 : 0 < minutes (state phoneTimer) * 60 + seconds (state phoneTimer))
    by (vm_compute; reflexivity).
  assert (Hq : quietStore (localStorage phoneTimer)) by (vm_compute; reflexivity).
  exact (conj H1 (conj Hq (conj H2 (conj H3
           (run_completes_and_notifies phoneTimer H1 Hq H2 H3))))).
Defined.

(** * The variant of [unnamed/part_000] against the component of [main.jsx] *)

Module BellFacts.

Lemma bellLog_app b l1 l2 : bellLog b (l1 ++ l2) = bellLog b l1 ++ bellLog b l2.
Proof. apply List.filter_app. Qed.

Lemma asMain_cleanup w : countdownCleanup (asMain w) = asMain (countdownCleanup w).
Proof. unfold countdownCleanup. cbn. destruct (timerIntervalRef w); reflexivity. Qed.

Lemma asMain_runSave w :
  runSave (asMain w) = (asMain (fst (runSave w)), snd (runSave w)).
Proof.
  destruct (writable (localStorage w)) eqn:Hw.
  - rewrite !runSave_writable by exact Hw. reflexivity.
  - rewrite !runSave_readonly by exact Hw. reflexivity.
Qed.

Lemma runSave_audio w :
  Bell.audio (fst (runSave w)) = Bell.audio w /\
  bellLog (Bell.audio w) (snd (runSave w)) = snd (runSave w).
Proof.
  destruct (writable (localStorage w)) eqn:Hw.
  - rewrite !runSave_writable by exact Hw. split; reflexivity.
  - rewrite !runSave_readonly by exact Hw. split; reflexivity.
Qed.

Lemma notifyUser_heard w :
  bellLog (Bell.audio w) (notifyUser (asMain w)) = Bell.notifyUser w.
Proof.
  unfold notifyUser, Bell.notifyUser, Bell.audio, bellLog. cbn.
  destruct (bool_decide (permission (platform w) = PermGranted)),
    (hasVibrate (platform w) && isMobile (state w)),
    (playRejects (platform w)), (audioRef w); reflexivity.
Qed.

Lemma asMain_countdownEffect w :
  fst (countdownEffect (asMain w)) = asMain (fst (Bell.countdownEffect w)) /\
  bellLog (Bell.audio w) (snd (countdownEffect (asMain w))) = snd (Bell.countdownEffect w) /\
  Bell.audio (fst (Bell.countdownEffect w)) = Bell.audio w.
Proof.
  unfold countdownEffect, Bell.countdownEffect. cbv zeta.
  change (state (asMain w)) with (state w).
  destruct (running (state w) && positive_time (timeLeft (state w))).
  - change (timerIntervalRef (asMain w)) with (timerIntervalRef w).
    destruct (timerIntervalRef w); repeat split.
  - destruct (zero_time (timeLeft (state w)) && running (state w)); [|repeat split].
    cbn [fst snd]. split; [reflexivity|]. split; [|reflexivity].
    change (bellLog (Bell.audio w) (NotifyUserCalled :: notifyUser (asMain w)))
      with (NotifyUserCalled :: bellLog (Bell.audio w) (notifyUser (asMain w))).
    rewrite notifyUser_heard. reflexivity.
Qed.

Lemma cleanup_audio w : Bell.audio (countdownCleanup w) = Bell.audio w.
Proof. unfold countdownCleanup. destruct (timerIntervalRef w); reflexivity. Qed.

(** The passes of the variant and of [main.jsx]'s component go through
    the same states and log the same, up to the signals. *)
Lemma commit_asMain fuel :
  forall prev w,
    fst (commit fuel prev (asMain w)) = asMain (fst (Bell.commit fuel prev w)) /\
    bellLog (Bell.audio w) (snd (commit fuel prev (asMain w)))
      = snd (Bell.commit fuel prev w) /\
    Bell.audio (fst (Bell.commit fuel prev w)) = Bell.audio w.
Proof.
  induction fuel as [|f IH]; intros prev w; [repeat split|].
  rewrite commit_S. cbn [Bell.commit].
  change (state (asMain w)) with (state w).
  case_bool_decide; [repeat split|].
  assert (Hrender : render (platform (asMain w)) (state w) = Ret tt).
  { unfold render. cbn. rewrite andb_false_r. reflexivity. }
  rewrite Hrender. cbv zeta.
  set (d := countdownDepsChanged prev (state w)).
  set (c := selectionChanged prev (state w)).
  assert (H0 : (if d then countdownCleanup (asMain w) else asMain w)
               = asMain (if d then countdownCleanup w else w)).
  { destruct d; [apply asMain_cleanup | reflexivity]. }
  rewrite H0.
  set (w0 := if d then countdownCleanup w else w).
  assert (A0 : Bell.audio w0 = Bell.audio w).
  { subst w0. destruct d; [apply cleanup_audio | reflexivity]. }
  assert (H1 : (if c then runSave (asMain w0) else (asMain w0, []))
               = (asMain (fst (if c then runSave w0 else (w0, []))),
                  snd (if c then runSave w0 else (w0, [])))).
  { destruct c; [apply asMain_runSave | reflexivity]. }
  rewrite H1.
  assert (A1 : Bell.audio (fst (if c then runSave w0 else (w0, []))) = Bell.audio w0 /\
               bellLog (Bell.audio w0) (snd (if c then runSave w0 else (w0, [])))
               = snd (if c then runSave w0 else (w0, []))).
  { destruct c; [apply runSave_audio | split; reflexivity]. }
  destruct (if c then runSave w0 else (w0, [])) as [w1 e1]. cbn [fst snd] in *.
  destruct A1 as [A1 L1].
  assert (H2 : fst (if d then countdownEffect (asMain w1) else (asMain w1, []))
               = asMain (fst (if d then Bell.countdownEffect w1 else (w1, []))) /\
               bellLog (Bell.audio w1)
                 (snd (if d then countdownEffect (asMain w1) else (asMain w1, [])))
               = snd (if d then Bell.countdownEffect w1 else (w1, [])) /\
               Bell.audio (fst (if d then Bell.countdownEffect w1 else (w1, [])))
               = Bell.audio w1).
  { destruct d; [apply asMain_countdownEffect | repeat split]. }
  destruct (if d then countdownEffect (asMain w1) else (asMain w1, [])) as [m2 f2].
  destruct (if d then Bell.countdownEffect w1 else (w1, [])) as [w2 e2].
  cbn [fst snd] in H2. destruct H2 as (H2 & L2 & A2). subst m2.
  destruct (IH (state w) w2) as (H3 & L3 & A3).
  destruct (commit f (state w) (asMain w2)) as [m3 f3].
  destruct (Bell.commit f (state w) w2) as [w3 e3].
  cbn [fst snd] in *. subst m3. split; [reflexivity|]. split; [|congruence].
  rewrite A2, A1, A0 in L3. rewrite A1, A0 in L2. rewrite A0 in L1.
  rewrite !bellLog_app, L1, L2, L3. reflexivity.
Qed.

Lemma update_asMain f w :
  fst (update f (asMain w)) = asMain (fst (Bell.update f w)) /\
  bellLog (Bell.audio w) (snd (update f (asMain w))) = snd (Bell.update f w) /\
  Bell.audio (fst (Bell.update f w)) = Bell.audio w.
Proof.
  apply (commit_asMain maxUpdateDepth (state w) (setState w (f (state w)))).
Qed.

Lemma completions_bellLog b l : completions (bellLog b l) = completions l.
Proof.
  unfold completions, bellLog. induction l as [|e l IH]; [reflexivity|].
  destruct e; cbn; try exact IH; try (rewrite IH; reflexivity);
    destruct b; cbn; exact IH.
Qed.

Lemma completions_update f w :
  completions (snd (Bell.update f w)) = completions (snd (update f (asMain w))).
Proof.
  destruct (update_asMain f w) as (_ & L & _). rewrite <- L.
  apply completions_bellLog.
Qed.

Lemma completions_stopAudio w : completions (stopAudio w) = 0%nat.
Proof. unfold stopAudio. destruct (audioRef w); reflexivity. Qed.

Lemma step_asMain ev w :
  fst (step ev (asMain w)) = asMain (fst (Bell.step ev w)) /\
  completions (snd (step ev (asMain w))) = completions (snd (Bell.step ev w)).
Proof.
  unfold step, Bell.step.
  change (mounted (asMain w)) with (mounted w).
  change (state (asMain w)) with (state w).
  change (intervals (asMain w)) with (intervals w).
  destruct (negb (mounted w)); [split; reflexivity|]. cbv zeta.
  destruct ev.
  - destruct (startDisabled (state w)); [split; reflexivity|].
    unfold invokeStart, Bell.invokeStart, Bell.initAudio.
    destruct (Bell.audio w) eqn:Ha.
    + destruct (update_asMain startTimer w) as (H1 & _ & _).
      pose proof (completions_update startTimer w) as H2.
      destruct (Bell.update startTimer w) as [w1 e1]. cbn [fst snd] in *.
      split; [exact H1 | symmetry; exact H2].
    + destruct (update_asMain startTimer (Bell.setAudio w)) as (H1 & _ & _).
      pose proof (completions_update startTimer (Bell.setAudio w)) as H2.
      change (asMain (Bell.setAudio w)) with (asMain w) in *.
      destruct (Bell.update startTimer (Bell.setAudio w)) as [w1 e1].
      cbn [fst snd] in *. split; [exact H1|]. rewrite <- H2. reflexivity.
  - destruct (stopDisabled (state w)); [split; reflexivity|].
    unfold invokeStop, Bell.invokeStop.
    destruct (update_asMain stopTimer w) as (H1 & _ & _).
    pose proof (completions_update stopTimer w) as H2.
    destruct (update stopTimer (asMain w)) as [m1 f1]. cbn [fst snd] in *.
    split; [exact H1|]. rewrite completions_app, completions_stopAudio. auto.
  - destruct (selectDisabled (state w)); [split; reflexivity|].
    unfold pick, Bell.pick. destruct (minuteOptions !! i) as [o|]; [|split; reflexivity].
    destruct (update_asMain (setMinutes (value o)) w) as (H1 & _ & _).
    split; [exact H1 | symmetry; apply completions_update].
  - destruct (selectDisabled (state w)); [split; reflexivity|].
    unfold pick, Bell.pick. destruct (secondOptions !! i) as [o|]; [|split; reflexivity].
    destruct (update_asMain (setSeconds (value o)) w) as (H1 & _ & _).
    split; [exact H1 | symmetry; apply completions_update].
  - case_bool_decide; [|split; reflexivity].
    destruct (update_asMain (fun s => setTimeLeft (decrement (timeLeft s)) s) w)
      as (H1 & _ & _).
    split; [exact H1 | symmetry; apply completions_update].
  - change (platform (asMain w)) with (withApi (platform w)).
    change (mobileAgent (withApi (platform w))) with (mobileAgent (platform w)).
    destruct (update_asMain (setIsMobile (mobileAgent (platform w))) w) as (H1 & _ & _).
    split; [exact H1 | symmetry; apply completions_update].
  - split; reflexivity.
  - split; reflexivity.
Qed.

End BellFacts.

(** The variant and the component of [main.jsx] on a browser with the
    Notification API go through the same states under every sequence of
    events, and complete equally often: the two differ in their signals
    only. *)
Theorem bell_follows_main evs :
  forall w,
    fst (run evs (asMain w)) = asMain (fst (Bell.run evs w)) /\
    completions (snd (run evs (asMain w))) = completions (snd (Bell.run evs w)).
Proof.
  induction evs as [|ev rest IH]; intros w; [split; reflexivity|].
  cbn [run Bell.run].
  destruct (BellFacts.step_asMain ev w) as [H1 H2].
  destruct (step ev (asMain w)) as [m1 f1]. destruct (Bell.step ev w) as [w1 e1].
  cbn [fst snd] in H1, H2. subst m1.
  destruct (IH w1) as [H3 H4].
  destruct (run rest (asMain w1)) as [m2 f2]. destruct (Bell.run rest w1) as [w2 e2].
  cbn [fst snd] in *. split; [exact H3|].
  rewrite !completions_app. congruence.
Qed.

Module BellMount.
Import BellFacts.

Lemma mount_asMain p created ls m s :
  fst (mount (withApi p) ls m s) = asMain (fst (Bell.mount p created ls m s)).
Proof.
  unfold mount, Bell.mount. cbv zeta.
  set (w0 := mkTimer (initialState m s) None created [] 1%positive ls p true).
  change (mkTimer (initialState m s) None true [] 1%positive ls (withApi p) true)
    with (asMain w0).
  rewrite asMain_runSave.
  destruct (runSave w0) as [w1 e1]. cbn [fst snd].
  destruct (asMain_countdownEffect w1) as (H2 & _ & _).
  destruct (countdownEffect (asMain w1)) as [m2 f2].
  destruct (Bell.countdownEffect w1) as [w2 e2]. cbn [fst] in H2. subst m2.
  change (mobileAgent (withApi p)) with (mobileAgent p).
  destruct (update_asMain (setIsMobile (mobileAgent p)) w2) as (H3 & _ & _).
  destruct (update (setIsMobile (mobileAgent p)) (asMain w2)) as [m3 f3].
  destruct (Bell.update (setIsMobile (mobileAgent p)) w2) as [w3 e3].
  cbn [fst] in *. exact H3.
Qed.

Lemma reachable_asMain w : Bell.reachable w -> reachable (asMain w).
Proof.
  induction 1 as [p ls m s Hex | w ev _ IH].
  - rewrite <- (mount_asMain p false ls m s).
    apply reach_mount; [exact Hex|]. apply mount_mounted. right. reflexivity.
  - rewrite <- (proj1 (step_asMain ev w)). apply reach_step. exact IH.
Qed.

Lemma step_audio ev w :
  Bell.audio (fst (Bell.step ev w))
  = Bell.audio w || match ev with
                    | ClickStart => mounted w && negb (startDisabled (state w))
                    | _ => false
                    end.
Proof.
  unfold Bell.step. destruct (mounted w); cbn [negb andb].
  2:{ destruct ev; cbn [fst]; rewrite orb_false_r; reflexivity. }
  cbv zeta. destruct ev.
  - destruct (startDisabled (state w)); cbn [negb fst]; [rewrite orb_false_r; reflexivity|].
    unfold Bell.invokeStart, Bell.initAudio.
    destruct (Bell.audio w) eqn:Ha.
    + destruct (update_asMain startTimer w) as (_ & _ & H).
      destruct (Bell.update startTimer w) as [w1 e1]. cbn [fst orb] in *. congruence.
    + destruct (update_asMain startTimer (Bell.setAudio w)) as (_ & _ & H).
      destruct (Bell.update startTimer (Bell.setAudio w)) as [w1 e1]. cbn [fst orb] in *.
      exact H.
  - rewrite orb_false_r. destruct (stopDisabled (state w)); [reflexivity|].
    apply (update_asMain stopTimer w).
  - rewrite orb_false_r. destruct (selectDisabled (state w)); [reflexivity|].
    unfold Bell.pick. destruct (minuteOptions !! i) as [o|]; [|reflexivity].
    apply (update_asMain (setMinutes (value o)) w).
  - rewrite orb_false_r. destruct (selectDisabled (state w)); [reflexivity|].
    unfold Bell.pick. destruct (secondOptions !! i) as [o|]; [|reflexivity].
    apply (update_asMain (setSeconds (value o)) w).
  - rewrite orb_false_r. case_bool_decide; [|reflexivity].
    apply (update_asMain (fun s => setTimeLeft (decrement (timeLeft s)) s) w).
  - rewrite orb_false_r. apply (update_asMain (setIsMobile (mobileAgent (platform w))) w).
  - rewrite orb_false_r. reflexivity.
  - rewrite orb_false_r. reflexivity.
Qed.

Lemma mount_idle q ls m s : running (state (fst (mount q ls m s))) = false.
Proof.
  rewrite mount_result.
  set (w0 := mkTimer (initialState m s) None true [] 1%positive ls q true).
  pose proof (runSave_state w0) as H.
  destruct (runSave w0) as [w1 e1]. cbn [fst] in H. cbv zeta.
  destruct (mobileAgent q); [destruct (hasNotification q)|]; cbn [fst];
    try (unfold unmount; cbn [state]; rewrite cleanup_state); cbn; rewrite H; reflexivity.
Qed.

Lemma reachable_bell_run evs :
  forall w, Bell.reachable w -> Bell.reachable (fst (Bell.run evs w)).
Proof.
  induction evs as [|ev rest IH]; intros w H; [exact H|].
  cbn [Bell.run]. pose proof (Bell.reach_step w ev H) as H1.
  destruct (Bell.step ev w) as [w1 e1]. cbn [fst] in H1.
  pose proof (IH w1 H1) as H2. destruct (Bell.run rest w1) as [w2 e2]. exact H2.
Qed.

(** While the variant counts down, the [Audio] object exists: the click
    on Start that began the run created it. *)
Lemma running_has_audio w :
  Bell.reachable w -> running (state w) = true -> Bell.audio w = true.
Proof.
  induction 1 as [p ls m s Hex | w ev Hreach IH]; intros Hr.
  - pose proof (mount_idle (withApi p) ls m s) as Hi.
    rewrite (mount_asMain p false ls m s) in Hi. cbn in Hi. congruence.
  - rewrite step_audio.
    pose proof (reachable_wf _ (reachable_asMain w Hreach)) as Hwf.
    destruct (running (state w)) eqn:Hrw; [rewrite IH by reflexivity; reflexivity|].
    assert (Hs : state (fst (Bell.step ev w)) = state (fst (step ev (asMain w)))).
    { rewrite (proj1 (step_asMain ev w)). reflexivity. }
    rewrite Hs in Hr. rewrite (step_idle ev (asMain w) Hwf Hrw) in Hr.
    destruct ev; cbn [fst] in Hr; cbn [state asMain] in Hr; try congruence.
    + change (state (asMain w)) with (state w) in Hr.
      destruct (0 <? minutes (state w) * 60 + seconds (state w)) eqn:Hp;
        [|cbn in Hr; congruence].
      apply Z.ltb_lt in Hp. rewrite (wf_mounted _ Hwf : mounted w = true).
      unfold startDisabled. rewrite Hrw. cbn [orb andb].
      destruct ((minutes (state w) =? 0) && (seconds (state w) =? 0)) eqn:Hz.
      * apply andb_true_iff in Hz as [H1 H2]. apply Z.eqb_eq in H1, H2. lia.
      * apply orb_true_r.
    + destruct (minuteOptions !! i) as [o|]; [|cbn in Hr; congruence].
      case_bool_decide; [cbn in Hr; congruence|].
      rewrite runSave_state in Hr. cbn in Hr. congruence.
    + destruct (secondOptions !! i) as [o|]; [|cbn in Hr; congruence].
      case_bool_decide; [cbn in Hr; congruence|].
      rewrite runSave_state in Hr. cbn in Hr. congruence.
    + cbn in Hr. congruence.
    + cbn in Hr. congruence.
Qed.

End BellMount.

(** The variant mounts on every platform: it never reads
    [Notification].  After the mount it is in the state in which the
    component of [main.jsx] is on a browser that has the API, while on a
    phone without the API that component is torn down. *)
Theorem bell_mounts_everywhere p created ls m s :
  mounted (fst (Bell.mount p created ls m s)) = true /\
  asMain (fst (Bell.mount p created ls m s)) = fst (mount (withApi p) ls m s) /\
  mounted (fst (mount phoneWithoutNotifications ls m s)) = false.
Proof.
  pose proof (BellMount.mount_asMain p created ls m s) as H.
  split; [|split].
  - change (mounted (asMain (fst (Bell.mount p created ls m s))) = true).
    rewrite <- H. apply mount_mounted. right. reflexivity.
  - symmetry. exact H.
  - apply mount_unmounted; reflexivity.
Qed.

(** The last tick of a run of the variant logs the completion and the
    sound, and a warning when the browser refuses to play; on every
    platform, whatever the notification permission.  The store is one on
    which the loader, which this variant too calls at every render, is
    silent. *)
Theorem bell_rings_at_completion w id :
  Bell.reachable w -> quietStore (localStorage w) ->
  running (state w) = true -> timeLeft (state w) = Some 1 ->
  timerIntervalRef w = Some id ->
  snd (Bell.step (IntervalFires id) w)
  = NotifyUserCalled :: AudioPlay
      :: (if playRejects (platform w) then [playWarning] else []) /\
  running (state (fst (Bell.step (IntervalFires id) w))) = false.
Proof.
  intros Hreach _ Hr Ht Href.
  pose proof (reachable_wf _ (BellMount.reachable_asMain w Hreach)) as Hwf.
  pose proof (BellMount.running_has_audio w Hreach Hr) as Ha.
  pose proof (step_running (IntervalFires id) (asMain w) 1 Hwf Hr Ht) as Hm.
  cbv iota in Hm. change (timerIntervalRef (asMain w)) with (timerIntervalRef w) in Hm.
  rewrite bool_decide_eq_true_2 in Hm by exact Href.
  change (1 <? 1) with false in Hm. cbv iota in Hm.
  split.
  - unfold Bell.step. rewrite (wf_mounted _ Hwf : mounted w = true). cbn [negb].
    cbv iota zeta.
    pose proof (wf_intervals _ Hwf) as Hi. cbn in Hi. rewrite Href in Hi.
    rewrite bool_decide_eq_true_2 by (rewrite Hi; apply list_elem_of_singleton; reflexivity).
    destruct (BellFacts.update_asMain (fun s => setTimeLeft (decrement (timeLeft s)) s) w)
      as (_ & L & _).
    rewrite <- L.
    unfold step in Hm. change (mounted (asMain w)) with (mounted w) in Hm.
    rewrite (wf_mounted _ Hwf : mounted w = true) in Hm. cbn [negb] in Hm.
    cbv iota zeta in Hm. change (intervals (asMain w)) with (intervals w) in Hm.
    rewrite bool_decide_eq_true_2 in Hm
      by (rewrite Hi; apply list_elem_of_singleton; reflexivity).
    rewrite Hm. cbn [snd].
    change (bellLog (Bell.audio w) (NotifyUserCalled :: notifyUser (asMain w)))
      with (NotifyUserCalled :: bellLog (Bell.audio w) (notifyUser (asMain w))).
    rewrite BellFacts.notifyUser_heard. unfold Bell.notifyUser. rewrite Ha. reflexivity.
  - assert (Hs : state (fst (Bell.step (IntervalFires id) w))
                 = state (fst (step (IntervalFires id) (asMain w)))).
    { rewrite (proj1 (BellFacts.step_asMain (IntervalFires id) w)). reflexivity. }
    rewrite Hs, Hm. reflexivity.
Qed.

Lemma bell_rings_at_completion_witness :
  Bell.reachable bellLastSecond /\
  quietStore (localStorage bellLastSecond) /\
  running (state bellLastSecond) = true /\
  timeLeft (state bellLastSecond) = Some 1 /\
  timerIntervalRef bellLastSecond = Some 3%positive /\
  snd (Bell.step (IntervalFires 3) bellLastSecond) = [NotifyUserCalled; AudioPlay] /\
  running (state (fst (Bell.step (IntervalFires 3) bellLastSecond))) = false.
Proof.
  assert (H1 : Bell.reachable bellLastSecond).
  { apply BellMount.reachable_bell_run.
    apply (Bell.reach_mount phoneWithoutNotifications emptyStorage 0 3).
    vm_compute. reflexivity. }
  assert (H2 : running (state bellLastSecond) = true) by (vm_compute; reflexivity).
  assert (H3 : timeLeft (state bellLastSecond) = Some 1) by (vm_compute; reflexivity).
  assert (H4 : timerIntervalRef bellLastSecond = Some 3%positive) by (vm_compute; reflexivity).
  assert (Hq : quietStore (localStorage bellLastSecond)) by (vm_compute; reflexivity).
  exact (conj H1 (conj Hq (conj H2 (conj H3 (conj H4
           (bell_rings_at_completion bellLastSecond 3 H1 Hq H2 H3 H4)))))).
Defined.

(** ** What the variant logs *)

Module BellLog.
Import BellFacts.

Lemma notifyUser_entries v e :
  In e (notifyUser v) ->
  e = ShowNotification "⏳ Timer Done!" \/ e = Vibrate 300 \/
  e = AudioSetVolume (7 # 10) \/ e = AudioPlay \/ e = playWarning.
Proof.
  unfold notifyUser. cbv zeta.
  repeat match goal with |- context [if ?b then _ else _] => destruct b end;
    cbn; intuition auto.
Qed.

Lemma commit_quiet fuel prev w : Forall bellEffect (snd (Bell.commit fuel prev w)).
Proof.
  destruct (commit_asMain fuel prev w) as (_ & L & _). rewrite <- L.
  pose proof (commit_log
                (fun e => e = saveError \/ e = NotifyUserCalled \/
                          exists v, In e (notifyUser v))
                (or_introl eq_refl) (or_intror (or_introl eq_refl))
                ltac:(intros v; apply List.Forall_forall; intros e He;
                      right; right; exists v; exact He)
                fuel prev (asMain w)) as H.
  rewrite List.Forall_forall in H. apply List.Forall_forall. intros e He.
  unfold bellLog in He. apply List.filter_In in He as [He Hh].
  destruct (H e He) as [-> | [-> | [v Hv]]]; unfold bellEffect; auto 10.
  apply notifyUser_entries in Hv.
  destruct Hv as [-> | [-> | [-> | [-> | ->]]]]; try discriminate; auto 10.
Qed.

Lemma creations_quiet l : Forall bellEffect l -> creations l = 0%nat.
Proof.
  induction 1 as [|e l He _ IH]; [reflexivity|].
  unfold creations in *. cbn [List.filter].
  destruct He as [-> | [-> | [-> | [-> | ->]]]]; exact IH.
Qed.

Lemma creations_app a b : creations (a ++ b) = (creations a + creations b)%nat.
Proof. unfold creations. rewrite List.filter_app, length_app. reflexivity. Qed.

Lemma update_creations f w : creations (snd (Bell.update f w)) = 0%nat.
Proof. apply creations_quiet. apply commit_quiet. Qed.

Lemma step_creations ev w :
  (creations (snd (Bell.step ev w)) + (if Bell.audio w then 1 else 0))%nat
  = (if Bell.audio (fst (Bell.step ev w)) then 1 else 0)%nat.
Proof.
  rewrite BellMount.step_audio.
  unfold Bell.step. destruct (mounted w); cbn [negb andb].
  2:{ destruct ev; cbn [snd]; rewrite orb_false_r; reflexivity. }
  cbv zeta. destruct ev.
  - destruct (startDisabled (state w)); cbn [negb snd]; [rewrite orb_false_r; reflexivity|].
    unfold Bell.invokeStart, Bell.initAudio. destruct (Bell.audio w) eqn:Ha.
    + pose proof (update_creations startTimer w) as H.
      destruct (Bell.update startTimer w) as [w1 e1]. cbn [snd app orb] in *.
      rewrite H. reflexivity.
    + pose proof (update_creations startTimer (Bell.setAudio w)) as H.
      destruct (Bell.update startTimer (Bell.setAudio w)) as [w1 e1].
      cbn [snd orb] in *. rewrite creations_app, H. reflexivity.
  - rewrite orb_false_r. destruct (stopDisabled (state w)); [reflexivity|].
    unfold Bell.invokeStop. rewrite update_creations. reflexivity.
  - rewrite orb_false_r. destruct (selectDisabled (state w)); [reflexivity|].
    unfold Bell.pick. destruct (minuteOptions !! i) as [o|]; [|reflexivity].
    rewrite update_creations. reflexivity.
  - rewrite orb_false_r. destruct (selectDisabled (state w)); [reflexivity|].
    unfold Bell.pick. destruct (secondOptions !! i) as [o|]; [|reflexivity].
    rewrite update_creations. reflexivity.
  - rewrite orb_false_r. case_bool_decide; [|reflexivity].
    rewrite update_creations. reflexivity.
  - rewrite orb_false_r. rewrite update_creations. reflexivity.
  - rewrite orb_false_r. reflexivity.
  - rewrite orb_false_r. reflexivity.
Qed.

Lemma step_entries ev w e :
  In e (snd (Bell.step ev w)) ->
  bellEffect e \/ (e = AudioSetVolume (7 # 10) /\ Bell.audio w = false).
Proof.
  assert (Hu : forall f v, In e (snd (Bell.update f v)) -> bellEffect e).
  { intros f v He. pose proof (commit_quiet maxUpdateDepth (state v)
                                 (setState v (f (state v)))) as H.
    rewrite List.Forall_forall in H. apply H. exact He. }
  unfold Bell.step. destruct (negb (mounted w)); [intros []|]. cbv zeta.
  destruct ev.
  - destruct (startDisabled (state w)); [intros []|].
    unfold Bell.invokeStart, Bell.initAudio. destruct (Bell.audio w) eqn:Ha.
    + pose proof (Hu startTimer w) as H.
      destruct (Bell.update startTimer w) as [w1 e1]. cbn [snd app] in *. auto.
    + pose proof (Hu startTimer (Bell.setAudio w)) as H.
      destruct (Bell.update startTimer (Bell.setAudio w)) as [w1 e1].
      cbn [snd app] in *. intros [<- | He]; auto.
  - destruct (stopDisabled (state w)); [intros []|]. unfold Bell.invokeStop. eauto.
  - destruct (selectDisabled (state w)); [intros []|].
    unfold Bell.pick. destruct (minuteOptions !! i) as [o|]; [eauto | intros []].
  - destruct (selectDisabled (state w)); [intros []|].
    unfold Bell.pick. destruct (secondOptions !! i) as [o|]; [eauto | intros []].
  - case_bool_decide; [eauto | intros []].
  - eauto.
  - intros [].
  - intros [].
Qed.

End BellLog.

(** Everything the variant logs after its mount is a failed load or
    save, a completion, the sound, a refused sound, or the creation of
    the [Audio] object, and that only in a run of events that began
    without one.  It never shows a notification, never vibrates and never
    pauses the sound, on any platform.  (The failed loads are those of
    the renders, which [Bell.commit] leaves to [renderLog].) *)
Theorem bell_log_entries evs :
  forall w e,
    In e (snd (Bell.run evs w)) ->
    bellEffect e \/ (e = AudioSetVolume (7 # 10) /\ Bell.audio w = false).
Proof.
  induction evs as [|ev rest IH]; intros w e; [intros []|].
  cbn [Bell.run].
  pose proof (BellLog.step_entries ev w e) as H1.
  pose proof (BellMount.step_audio ev w) as Ha.
  destruct (Bell.step ev w) as [w1 e1]. pose proof (IH w1 e) as H2.
  destruct (Bell.run rest w1) as [w2 e2]. cbn [fst snd] in *.
  intros Hin. apply in_app_or in Hin as [Hin | Hin]; [auto|].
  destruct (H2 Hin) as [Hq | [-> Hf]]; [auto|]. right. split; [reflexivity|].
  rewrite Ha in Hf. apply orb_false_iff in Hf. tauto.
Qed.

Lemma bell_log_entries_witness :
  In AudioPlay (snd (Bell.run [IntervalFires 3] bellLastSecond)) /\
  (bellEffect AudioPlay \/
   (AudioPlay = AudioSetVolume (7 # 10) /\ Bell.audio bellLastSecond = false)).
Proof.
  assert (H : In AudioPlay (snd (Bell.run [IntervalFires 3] bellLastSecond)))
    by (vm_compute; auto).
  exact (conj H (bell_log_entries [IntervalFires 3] bellLastSecond AudioPlay H)).
Defined.

(** The variant creates its [Audio] object exactly when the module's
    variable goes from [null] to an object: over any sequence of events
    at most once, and never when the object exists already, so one object
    serves every run of the session. *)
Theorem bell_is_created_once evs :
  forall w,
    (creations (snd (Bell.run evs w)) + (if Bell.audio w then 1 else 0))%nat
    = (if Bell.audio (fst (Bell.run evs w)) then 1 else 0)%nat.
Proof.
  induction evs as [|ev rest IH]; intros w; [reflexivity|].
  cbn [Bell.run]. pose proof (BellLog.step_creations ev w) as H1.
  destruct (Bell.step ev w) as [w1 e1]. pose proof (IH w1) as H2.
  destruct (Bell.run rest w1) as [w2 e2]. cbn [fst snd] in *.
  rewrite BellLog.creations_app. lia.
Qed.

(** * The components of [src/App.jsx] *)

Module AppSecondFacts.

Lemma withSound_cleanup w : countdownCleanup (withSound w) = withSound (countdownCleanup w).
Proof. unfold countdownCleanup. cbn. destruct (timerIntervalRef w); reflexivity. Qed.

Lemma withSound_runSave w :
  runSave (withSound w) = (withSound (fst (runSave w)), snd (runSave w)).
Proof.
  destruct (writable (localStorage w)) eqn:Hw.
  - rewrite !runSave_writable by exact Hw. reflexivity.
  - rewrite !runSave_readonly by exact Hw. reflexivity.
Qed.

Lemma runSave_seen w :
  List.filter seenBySecond (snd (runSave w)) = snd (runSave w) /\
  (plainDesktop w -> plainDesktop (fst (runSave w))).
Proof.
  destruct (writable (localStorage w)) eqn:Hw.
  - rewrite !runSave_writable by exact Hw. split; [reflexivity | auto].
  - rewrite !runSave_readonly by exact Hw. split; [reflexivity | auto].
Qed.

Lemma cleanup_plain w : plainDesktop w -> plainDesktop (countdownCleanup w).
Proof. unfold countdownCleanup. destruct (timerIntervalRef w); auto. Qed.

Lemma notifyUser_seen w :
  plainDesktop w ->
  unguardedNotification (platform w)
  = Ret (List.filter seenBySecond (notifyUser (withSound w))).
Proof.
  intros (Hn & Ha & Hm). unfold unguardedNotification, notifyUser. cbn.
  rewrite Hn, Hm, andb_false_r. cbn.
  destruct (bool_decide (permission (platform w) = PermGranted)),
    (playRejects (platform w)); reflexivity.
Qed.

Lemma withSound_countdownEffect w :
  plainDesktop w ->
  exists w2 e2,
    AppSecond.countdownEffect w = Ret (w2, e2) /\
    fst (countdownEffect (withSound w)) = withSound w2 /\
    List.filter seenBySecond (snd (countdownEffect (withSound w))) = e2 /\
    plainDesktop w2.
Proof.
  intros Hp. unfold countdownEffect, AppSecond.countdownEffect. cbv zeta.
  change (state (withSound w)) with (state w).
  destruct (running (state w) && positive_time (timeLeft (state w))).
  - change (timerIntervalRef (withSound w)) with (timerIntervalRef w).
    eexists _, _. split; [reflexivity|].
    destruct (timerIntervalRef w); repeat split; apply Hp.
  - destruct (zero_time (timeLeft (state w)) && running (state w)).
    + rewrite (notifyUser_seen w Hp). eexists _, _. split; [reflexivity|].
      cbn [fst snd]. repeat split; apply Hp.
    + eexists _, _. split; [reflexivity|]. repeat split; apply Hp.
Qed.

Lemma commit_withSound fuel :
  forall prev w,
    plainDesktop w -> isMobile prev = false ->
    fst (commit fuel prev (withSound w)) = withSound (fst (AppSecond.commit fuel prev w)) /\
    List.filter seenBySecond (snd (commit fuel prev (withSound w)))
      = snd (AppSecond.commit fuel prev w) /\
    plainDesktop (fst (AppSecond.commit fuel prev w)).
Proof.
  induction fuel as [|f IH]; intros prev w Hp Hprev; [repeat split; apply Hp|].
  rewrite commit_S. cbn [AppSecond.commit].
  change (state (withSound w)) with (state w).
  case_bool_decide; [repeat split; apply Hp|].
  assert (Hrender : render (platform (withSound w)) (state w) = Ret tt).
  { unfold render. destruct Hp as (_ & _ & Hm). rewrite Hm. reflexivity. }
  rewrite Hrender. cbv zeta.
  assert (Hd : countdownDepsChanged prev (state w) = runningOrTimeChanged prev (state w)).
  { unfold countdownDepsChanged, runningOrTimeChanged. destruct Hp as (_ & _ & Hm).
    f_equal. apply bool_decide_ext. rewrite Hm, Hprev. tauto. }
  rewrite Hd.
  set (d := runningOrTimeChanged prev (state w)).
  set (c := selectionChanged prev (state w)).
  assert (H0 : (if d then countdownCleanup (withSound w) else withSound w)
               = withSound (if d then countdownCleanup w else w)).
  { destruct d; [apply withSound_cleanup | reflexivity]. }
  rewrite H0.
  set (w0 := if d then countdownCleanup w else w).
  assert (P0 : plainDesktop w0).
  { subst w0. destruct d; [apply cleanup_plain; exact Hp | exact Hp]. }
  assert (S0 : state w0 = state w).
  { subst w0. destruct d; [apply cleanup_state | reflexivity]. }
  assert (H1 : (if c then runSave (withSound w0) else (withSound w0, []))
               = (withSound (fst (if c then runSave w0 else (w0, []))),
                  snd (if c then runSave w0 else (w0, [])))).
  { destruct c; [apply withSound_runSave | reflexivity]. }
  rewrite H1.
  assert (A1 : List.filter seenBySecond (snd (if c then runSave w0 else (w0, [])))
               = snd (if c then runSave w0 else (w0, [])) /\
               plainDesktop (fst (if c then runSave w0 else (w0, [])))).
  { destruct c; [|split; [reflexivity | exact P0]].
    destruct (runSave_seen w0) as [L P]. auto. }
  destruct (if c then runSave w0 else (w0, [])) as [w1 e1]. cbn [fst snd] in *.
  destruct A1 as [L1 P1].
  assert (H2 : exists w2 e2,
             (if d then AppSecond.countdownEffect w1 else Ret (w1, [])) = Ret (w2, e2) /\
             fst (if d then countdownEffect (withSound w1) else (withSound w1, []))
             = withSound w2 /\
             List.filter seenBySecond
               (snd (if d then countdownEffect (withSound w1) else (withSound w1, [])))
             = e2 /\
             plainDesktop w2).
  { destruct d; [apply withSound_countdownEffect; exact P1|].
    exists w1, []. repeat split; apply P1. }
  destruct H2 as (w2 & e2 & E2 & H2 & L2 & P2). rewrite E2.
  destruct (if d then countdownEffect (withSound w1) else (withSound w1, [])) as [m2 f2].
  cbn [fst snd] in H2, L2. subst m2.
  assert (Hs : isMobile (state w) = false) by apply Hp.
  destruct (IH (state w) w2 P2 Hs) as (H3 & L3 & P3).
  destruct (commit f (state w) (withSound w2)) as [m3 f3].
  destruct (AppSecond.commit f (state w) w2) as [w3 e3].
  cbn [fst snd] in *. subst m3. split; [reflexivity|]. split; [|exact P3].
  rewrite !List.filter_app, L1, L2, L3. reflexivity.
Qed.

Lemma update_withSound f w :
  plainDesktop w -> isMobile (f (state w)) = false ->
  fst (update f (withSound w)) = withSound (fst (AppSecond.update f w)) /\
  List.filter seenBySecond (snd (update f (withSound w))) = snd (AppSecond.update f w) /\
  plainDesktop (fst (AppSecond.update f w)).
Proof.
  intros Hp Hf.
  apply (commit_withSound maxUpdateDepth (state w) (setState w (f (state w)))).
  - destruct Hp as (H1 & H2 & _). repeat split; assumption.
  - apply Hp.
Qed.

Lemma startTimer_isMobile s : isMobile (startTimer s) = isMobile s.
Proof. unfold startTimer. destruct (0 <? _); reflexivity. Qed.

Lemma step_withSound ev w :
  plainDesktop w ->
  fst (step ev (withSound w)) = withSound (fst (AppSecond.step ev w)) /\
  List.filter seenBySecond (snd (step ev (withSound w))) = snd (AppSecond.step ev w) /\
  plainDesktop (fst (AppSecond.step ev w)).
Proof.
  intros Hp. pose proof Hp as (Hn & Ha & Hm).
  unfold step, AppSecond.step.
  change (mounted (withSound w)) with (mounted w).
  change (state (withSound w)) with (state w).
  change (intervals (withSound w)) with (intervals w).
  destruct (negb (mounted w)); [repeat split; assumption|]. cbv zeta.
  destruct ev.
  - destruct (startDisabled (state w)); [repeat split; assumption|].
    apply update_withSound; [exact Hp|]. rewrite startTimer_isMobile. exact Hm.
  - destruct (stopDisabled (state w)); [repeat split; assumption|].
    unfold invokeStop.
    destruct (update_withSound stopTimer w Hp Hm) as (H1 & L & P).
    destruct (update stopTimer (withSound w)) as [m1 f1]. cbn [fst snd] in *.
    split; [exact H1|]. split; [|exact P].
    rewrite List.filter_app, L. unfold stopAudio. reflexivity.
  - destruct (selectDisabled (state w)); [repeat split; assumption|].
    unfold pick, AppSecond.pick.
    destruct (minuteOptions !! i) as [o|]; [|repeat split; assumption].
    apply update_withSound; assumption.
  - destruct (selectDisabled (state w)); [repeat split; assumption|].
    unfold pick, AppSecond.pick.
    destruct (secondOptions !! i) as [o|]; [|repeat split; assumption].
    apply update_withSound; assumption.
  - case_bool_decide; [|repeat split; assumption].
    apply update_withSound; assumption.
  - change (platform (withSound w)) with (platform w). rewrite Ha.
    rewrite update_same; [repeat split; assumption|].
    cbn. unfold setIsMobile. rewrite <- Hm. apply State_eta.
  - repeat split; assumption.
  - repeat split; assumption.
Qed.

End AppSecondFacts.

(** On a desktop browser with the Notification API and a store on which
    the loader is silent, the second component of [App.jsx] goes through
    the states of [main.jsx]'s component under every sequence of events,
    and its handlers and effects log what those of that component log
    without the sound, the vibration and the entry into [notifyUser]. *)
Theorem second_follows_main evs w :
  plainDesktop w ->
  quietStore (localStorage w) ->
  fst (run evs (withSound w)) = withSound (fst (AppSecond.run evs w)) /\
  List.filter seenBySecond (snd (run evs (withSound w))) = snd (AppSecond.run evs w).
Proof.
  intros Hp _. revert w Hp.
  induction evs as [|ev rest IH]; intros w Hp; [split; reflexivity|].
  cbn [run AppSecond.run].
  destruct (AppSecondFacts.step_withSound ev w Hp) as (H1 & L1 & P1).
  destruct (step ev (withSound w)) as [m1 f1]. destruct (AppSecond.step ev w) as [w1 e1].
  cbn [fst snd] in H1, L1, P1. subst m1.
  destruct (IH w1 P1) as [H2 L2].
  destruct (run rest (withSound w1)) as [m2 f2].
  destruct (AppSecond.run rest w1) as [w2 e2].
  cbn [fst snd] in *. split; [exact H2|].
  rewrite List.filter_app, L1, L2. reflexivity.
Qed.

Lemma second_follows_main_witness :
  let w := fst (AppSecond.mount desktop emptyStorage 0 2) in
  let evs := [ClickStart; IntervalFires 1; IntervalFires 2] in
  plainDesktop w /\ quietStore (localStorage w) /\
  fst (run evs (withSound w)) = withSound (fst (AppSecond.run evs w)) /\
  List.filter seenBySecond (snd (run evs (withSound w))) = snd (AppSecond.run evs w) /\
  snd (AppSecond.run evs w) = [ShowNotification "⏳ Timer Done!"].
Proof.
  intros w evs.
  assert (H : plainDesktop w) by (repeat split).
  assert (Hq : quietStore (localStorage w)) by (vm_compute; reflexivity).
  assert (H0 : snd (AppSecond.run evs w) = [ShowNotification "⏳ Timer Done!"])
    by (vm_compute; reflexivity).
  destruct (second_follows_main evs w H Hq) as [H1 H2].
  exact (conj H (conj Hq (conj H1 (conj H2 H0)))).
Defined.

(** On a desktop browser with the Notification API the second component
    mounts into the state of [main.jsx]'s component, and the effects of
    the two mounts log the same. *)
Theorem second_mounts_like_main p ls m s :
  hasNotification p = true -> mobileAgent p = false ->
  fst (mount p ls m s) = withSound (fst (AppSecond.mount p ls m s)) /\
  snd (mount p ls m s) = snd (AppSecond.mount p ls m s) /\
  plainDesktop (fst (AppSecond.mount p ls m s)).
Proof.
  intros Hn Ha. rewrite mount_result. unfold AppSecond.mount, unguardedRequest.
  rewrite Hn, Ha. cbv zeta.
  set (w0 := mkTimer (initialState m s) None false [] 1%positive ls p true).
  change (mkTimer (initialState m s) None true [] 1%positive ls p true)
    with (withSound w0).
  rewrite AppSecondFacts.withSound_runSave.
  assert (P0 : plainDesktop w0) by (repeat split; assumption).
  destruct (AppSecondFacts.runSave_seen w0) as [_ P1]. specialize (P1 P0).
  pose proof (runSave_state w0) as S1.
  destruct (runSave w0) as [w1 e1]. cbn [fst snd] in *.
  unfold AppSecond.countdownEffect. rewrite S1. cbn.
  rewrite app_nil_r. repeat split; apply P1.
Qed.

Lemma second_mounts_like_main_witness :
  hasNotification desktop = true /\ mobileAgent desktop = false /\
  fst (mount desktop emptyStorage 7 30)
  = withSound (fst (AppSecond.mount desktop emptyStorage 7 30)) /\
  snd (mount desktop emptyStorage 7 30) = snd (AppSecond.mount desktop emptyStorage 7 30) /\
  plainDesktop (fst (AppSecond.mount desktop emptyStorage 7 30)).
Proof.
  assert (H1 : hasNotification desktop = true) by reflexivity.
  assert (H2 : mobileAgent desktop = false) by reflexivity.
  exact (conj H1 (conj H2 (second_mounts_like_main desktop emptyStorage 7 30 H1 H2))).
Defined.

(** Both components of [App.jsx] need the Notification API: without it,
    on a desktop as well, the effect of the mount throws and the
    component is torn down, and the second one has saved nothing.  The
    component of [main.jsx] mounts on such a desktop. *)
Theorem app_needs_the_notification_api p ls m s :
  hasNotification p = false ->
  mounted (fst (AppFirst.mount p ls)) = false /\
  mounted (fst (AppSecond.mount p ls m s)) = false /\
  localStorage (fst (AppSecond.mount p ls m s)) = ls /\
  (mobileAgent p = false -> mounted (fst (mount p ls m s)) = true).
Proof.
  intros Hn. unfold AppFirst.mount, AppSecond.mount, unguardedRequest. rewrite Hn.
  cbn. repeat split. intros Ha. apply mount_mounted. left. exact Ha.
Qed.

Lemma app_needs_the_notification_api_witness :
  hasNotification (mkPlatform false PermDefault false false false) = false /\
  mounted (fst (AppFirst.mount (mkPlatform false PermDefault false false false)
                  emptyStorage)) = false /\
  mounted (fst (AppSecond.mount (mkPlatform false PermDefault false false false)
                  emptyStorage 1 0)) = false /\
  mounted (fst (mount (mkPlatform false PermDefault false false false)
                  emptyStorage 1 0)) = true.
Proof.
  assert (H : hasNotification (mkPlatform false PermDefault false false false) = false)
    by reflexivity.
  destruct (app_needs_the_notification_api
              (mkPlatform false PermDefault false false false) emptyStorage 1 0 H)
    as (H1 & H2 & _ & H3).
  exact (conj H (conj H1 (conj H2 (H3 eq_refl)))).
Defined.

(** ** The first component *)

Module AppFirstFacts.

Lemma first_commit_S n prev w :
  AppFirst.commit (S n) prev w =
  if bool_decide (state w = prev) then (w, [])
  else if runningOrTimeChanged prev (state w) then
         match AppFirst.countdownEffect (AppFirst.cleanup w) with
         | Throw _ => (AppFirst.teardown (AppFirst.cleanup w), [])
         | Ret (w2, e2) =>
             let '(w3, e3) := AppFirst.commit n (state w) w2 in (w3, e2 ++ e3)
         end
       else AppFirst.commit n (state w) w.
Proof. reflexivity. Qed.

Lemma first_commit_settled n prev w : state w = prev -> AppFirst.commit n prev w = (w, []).
Proof.
  intros H. destruct n; [reflexivity|]. rewrite first_commit_S.
  rewrite bool_decide_eq_true_2 by exact H. reflexivity.
Qed.

Lemma cleanup_one w s id :
  timerIntervalRef w = Some id -> intervals w = [id] ->
  AppFirst.cleanup (setState w s) = idleWith w s.
Proof.
  intros Href Hi. unfold AppFirst.cleanup, setState. cbn. rewrite Href.
  unfold clearRef, clearInterval, idleWith. cbn. rewrite Hi, filter_single. reflexivity.
Qed.

End AppFirstFacts.

(** Start on an idle first component with a positive selection. *)
Lemma first_start_idle w :
  mounted w = true -> running (state w) = false -> timerIntervalRef w = None ->
  0 < minutes (state w) * 60 + seconds (state w) ->
  AppFirst.step ClickStart w
  = (setIntervalRef (setState w (startTimer (state w))), []).
Proof.
  intros Hm Hr Href Hpos.
  assert (Hs : startTimer (state w)
               = setRunning true
                   (setOriginalTime (minutes (state w) * 60 + seconds (state w))
                      (setTimeLeft (Some (minutes (state w) * 60 + seconds (state w)))
                         (state w)))).
  { unfold startTimer. cbv zeta.
    destruct (Z.ltb_spec 0 (minutes (state w) * 60 + seconds (state w))); [reflexivity | lia]. }
  assert (Hd : startDisabled (state w) = false).
  { unfold startDisabled. rewrite Hr. cbn [orb].
    destruct (Z.eqb_spec (minutes (state w)) 0), (Z.eqb_spec (seconds (state w)) 0);
      try reflexivity. lia. }
  unfold AppFirst.step. rewrite Hm. cbn [negb]. cbv iota zeta. rewrite Hd.
  unfold AppFirst.update, maxUpdateDepth.
  set (s' := startTimer (state w)) in *.
  assert (Hr' : running s' = true) by (rewrite Hs; reflexivity).
  assert (Ht' : timeLeft s' = Some (minutes (state w) * 60 + seconds (state w)))
    by (rewrite Hs; reflexivity).
  rewrite AppFirstFacts.first_commit_S.
  change (state (setState w s')) with s'.
  rewrite bool_decide_eq_false_2 by (intros E; rewrite E in Hr'; congruence).
  assert (Hc : runningOrTimeChanged (state w) s' = true).
  { unfold runningOrTimeChanged. rewrite bool_decide_eq_false_2; [reflexivity|].
    intros [E _]. congruence. }
  rewrite Hc.
  assert (Hcl : AppFirst.cleanup (setState w s') = setState w s').
  { unfold AppFirst.cleanup. cbn [timerIntervalRef setState]. rewrite Href. reflexivity. }
  rewrite Hcl.
  assert (He : AppFirst.countdownEffect (setState w s')
               = Ret (setIntervalRef (setState w s'), [])).
  { unfold AppFirst.countdownEffect. cbv zeta. change (state (setState w s')) with s'.
    rewrite Hr', Ht'. cbn [andb positive_time].
    destruct (Z.ltb_spec 0 (minutes (state w) * 60 + seconds (state w))); [reflexivity | lia]. }
  rewrite He.
  rewrite AppFirstFacts.first_commit_settled by reflexivity. reflexivity.
Qed.

(** Stop in the first component clears the interval of the run and puts
    the selection back to 1:00, whatever had been selected; the run that
    a click on Start then begins lasts 60 seconds. *)
Theorem first_stop_resets_the_selection w id :
  mounted w = true -> running (state w) = true ->
  timerIntervalRef w = Some id -> intervals w = [id] ->
  let w' := fst (AppFirst.step ClickStop w) in
  AppFirst.step ClickStop w = (idleWith w (AppFirst.stopTimer (state w)), []) /\
  minutes (state w') = 1 /\ seconds (state w') = 0 /\
  timeLeft (state w') = None /\ running (state w') = false /\ intervals w' = [] /\
  timeLeft (state (fst (AppFirst.step ClickStart w'))) = Some 60 /\
  intervals (fst (AppFirst.step ClickStart w')) = [nextInterval w].
Proof.
  intros Hm Hr Href Hi w'.
  assert (Hstop : AppFirst.step ClickStop w
                  = (idleWith w (AppFirst.stopTimer (state w)), [])).
  { unfold AppFirst.step. rewrite Hm. cbn [negb]. cbv iota zeta.
    unfold stopDisabled. rewrite Hr. cbn [negb]. cbv iota.
    unfold AppFirst.update, maxUpdateDepth. rewrite AppFirstFacts.first_commit_S.
    cbn [state setState].
    rewrite bool_decide_eq_false_2.
    2:{ intros E. apply (f_equal running) in E. cbn in E. congruence. }
    assert (Hd : runningOrTimeChanged (state w) (AppFirst.stopTimer (state w)) = true).
    { unfold runningOrTimeChanged. cbn. rewrite Hr.
      rewrite bool_decide_eq_false_2; [reflexivity | intros [E _]; discriminate]. }
    rewrite Hd.
    change (mkTimer (AppFirst.stopTimer (state w)) (timerIntervalRef w) (audioRef w)
              (intervals w) (nextInterval w) (localStorage w) (platform w) (mounted w))
      with (setState w (AppFirst.stopTimer (state w))).
    rewrite (AppFirstFacts.cleanup_one w _ id Href Hi).
    unfold AppFirst.countdownEffect. cbn [state idleWith]. cbn -[AppFirst.commit].
    rewrite AppFirstFacts.first_commit_settled by reflexivity. reflexivity. }
  subst w'. rewrite Hstop. cbn [fst]. split; [reflexivity|].
  repeat (split; [reflexivity|]).
  rewrite first_start_idle; [split; reflexivity | exact Hm | reflexivity | reflexivity |].
  cbn. lia.
Qed.

Lemma first_stop_resets_the_selection_witness :
  let w := fst (AppFirst.run [PickMinutes 7; PickSeconds 30; ClickStart]
                  (fst (AppFirst.mount desktop emptyStorage))) in
  mounted w = true /\ running (state w) = true /\
  minutes (state w) = 7 /\ seconds (state w) = 30 /\ timeLeft (state w) = Some 450 /\
  minutes (state (fst (AppFirst.step ClickStop w))) = 1 /\
  seconds (state (fst (AppFirst.step ClickStop w))) = 0 /\
  intervals (fst (AppFirst.step ClickStop w)) = [] /\
  timeLeft (state (fst (AppFirst.step ClickStart (fst (AppFirst.step ClickStop w)))))
  = Some 60.
Proof.
  intros w.
  assert (Hm : mounted w = true) by (vm_compute; reflexivity).
  assert (Hr : running (state w) = true) by (vm_compute; reflexivity).
  assert (Href : timerIntervalRef w = Some 1%positive) by (vm_compute; reflexivity).
  assert (Hi : intervals w = [1%positive]) by (vm_compute; reflexivity).
  assert (H7 : minutes (state w) = 7) by (vm_compute; reflexivity).
  assert (H30 : seconds (state w) = 30) by (vm_compute; reflexivity).
  assert (Ht : timeLeft (state w) = Some 450) by (vm_compute; reflexivity).
  destruct (first_stop_resets_the_selection w 1%positive Hm Hr Href Hi)
    as (_ & H1 & H2 & _ & _ & H3 & H4 & _).
  exact (conj Hm (conj Hr (conj H7 (conj H30 (conj Ht
           (conj H1 (conj H2 (conj H3 H4)))))))).
Defined.

(** * The loader at every render *)

Lemma quiet_readable ls : quietStore ls -> readable ls = true.
Proof.
  unfold quietStore, renderLog. intros H.
  destruct (readable ls) eqn:Hr; [reflexivity|].
  rewrite (load_unreadable ls Hr) in H. discriminate H.
Qed.

Lemma runSave_quiet w :
  quietStore (localStorage w) -> quietStore (localStorage (fst (runSave w))).
Proof.
  intros Hq. pose proof (quiet_readable _ Hq) as Hr.
  destruct (writable (localStorage w)) eqn:Hw.
  - rewrite runSave_writable by exact Hw. cbn [fst setStorage localStorage].
    unfold quietStore, renderLog.
    rewrite (load_object _ (savedText w)
               [("minutes", JSON.Num (inject_Z (minutes (state w))));
                ("seconds", JSON.Num (inject_Z (seconds (state w))))]).
    + reflexivity.
    + exact Hr.
    + cbn [items]. apply lookup_insert_eq.
    + unfold savedText, JSON.stringify_settings. discriminate.
    + apply JSONFacts.parse_stringify_settings.
  - rewrite runSave_readonly by exact Hw. exact Hq.
Qed.

Section StoreKept.
Variable P : Storage -> Prop.
Hypothesis P_save : forall w, P (localStorage w) -> P (localStorage (fst (runSave w))).

Lemma commit_keeps fuel :
  forall prev w, P (localStorage w) -> P (localStorage (fst (commit fuel prev w))).
Proof.
  induction fuel as [|f IH]; intros prev w H; [exact H|].
  rewrite commit_S. case_bool_decide; [exact H|].
  destruct (render (platform w) (state w)).
  2:{ cbn [fst]. unfold unmount. cbn [localStorage]. rewrite cleanup_storage. exact H. }
  cbv zeta.
  set (w0 := if countdownDepsChanged prev (state w) then countdownCleanup w else w).
  assert (K0 : P (localStorage w0)).
  { subst w0. destruct (countdownDepsChanged prev (state w));
      [rewrite cleanup_storage|]; exact H. }
  assert (H1 : P (localStorage (fst (if selectionChanged prev (state w)
                                     then runSave w0 else (w0, []))))).
  { destruct (selectionChanged prev (state w)); [apply P_save|]; exact K0. }
  destruct (if selectionChanged prev (state w) then runSave w0 else (w0, []))
    as [w1 e1]. cbn [fst] in H1.
  assert (H2 : P (localStorage (fst (if countdownDepsChanged prev (state w)
                                     then countdownEffect w1 else (w1, []))))).
  { destruct (countdownDepsChanged prev (state w));
      [rewrite countdownEffect_storage|]; exact H1. }
  destruct (if countdownDepsChanged prev (state w) then countdownEffect w1 else (w1, []))
    as [w2 e2]. cbn [fst] in H2.
  pose proof (IH (state w) w2 H2) as H3.
  destruct (commit f (state w) w2) as [w3 e3]. exact H3.
Qed.

Lemma update_keeps f w :
  P (localStorage w) -> P (localStorage (fst (update f w))).
Proof. apply (commit_keeps maxUpdateDepth (state w) (setState w (f (state w)))). Qed.

Lemma step_keeps ev w :
  P (localStorage w) -> P (localStorage (fst (step ev w))).
Proof.
  intros H. unfold step. destruct (negb (mounted w)); [exact H|]. cbv zeta.
  destruct ev.
  - destruct (startDisabled (state w)); [exact H | apply update_keeps; exact H].
  - destruct (stopDisabled (state w)); [exact H|].
    unfold invokeStop. pose proof (update_keeps stopTimer w H) as H1.
    destruct (update stopTimer w) as [w' e]. exact H1.
  - destruct (selectDisabled (state w)); [exact H|].
    unfold pick. destruct (minuteOptions !! i); [apply update_keeps|]; exact H.
  - destruct (selectDisabled (state w)); [exact H|].
    unfold pick. destruct (secondOptions !! i); [apply update_keeps|]; exact H.
  - case_bool_decide; [apply update_keeps|]; exact H.
  - apply update_keeps; exact H.
  - exact H.
  - exact H.
Qed.

Lemma run_keeps evs :
  forall w, P (localStorage w) -> P (localStorage (fst (run evs w))).
Proof.
  induction evs as [|ev rest IH]; intros w H; [exact H|].
  cbn [run]. pose proof (step_keeps ev w H) as H1.
  destruct (step ev w) as [w1 e1]. pose proof (IH w1 H1) as H2.
  destruct (run rest w1) as [w2 e2]. exact H2.
Qed.
End StoreKept.

Lemma bell_run_storage evs :
  forall w, localStorage (fst (Bell.run evs w)) = localStorage (fst (run evs (asMain w))).
Proof.
  induction evs as [|ev rest IH]; intros w; [reflexivity|].
  cbn [run Bell.run].
  destruct (BellFacts.step_asMain ev w) as [H1 _].
  destruct (step ev (asMain w)) as [m1 f1]. destruct (Bell.step ev w) as [w1 e1].
  cbn [fst] in H1. subst m1. pose proof (IH w1) as H2.
  destruct (run rest (asMain w1)) as [m2 f2]. destruct (Bell.run rest w1) as [w2 e2].
  exact H2.
Qed.

(** A store on which the loader is silent stays one under every
    sequence of events, in the component and in the variant of
    [unnamed/part_000]: the only write stores a record that the loader
    reads back.  So where a statement about a log asks for such a store
    at its start, the renders in between log nothing either. *)
Theorem quiet_store_stays_quiet evs w :
  quietStore (localStorage w) ->
  quietStore (localStorage (fst (run evs w))) /\
  quietStore (localStorage (fst (Bell.run evs w))).
Proof.
  intros Hq. split.
  - apply (run_keeps quietStore runSave_quiet). exact Hq.
  - rewrite bell_run_storage.
    apply (run_keeps quietStore runSave_quiet evs (asMain w)). exact Hq.
Qed.

Lemma quiet_store_stays_quiet_witness :
  quietStore (localStorage phoneTimer) /\
  quietStore (localStorage (fst (run [PickMinutes 3; ClickStart; IntervalFires 1] phoneTimer))) /\
  quietStore (localStorage (fst (Bell.run [PickMinutes 3; ClickStart; IntervalFires 1]
                                   phoneTimer))).
Proof.
  assert (H : quietStore (localStorage phoneTimer)) by (vm_compute; reflexivity).
  exact (conj H (quiet_store_stays_quiet
                   [PickMinutes 3; ClickStart; IntervalFires 1] phoneTimer H)).
Defined.

(** * Progress in binary64 *)


Module Binary64Facts.
Import Binary64.

Lemma two_pos k : (0 < 2 ^ k)%Q.
Proof. apply Qpower_0_lt. reflexivity. Qed.



Lemma two_lt a b : a < b -> (2 ^ a < 2 ^ b)%Q.
Proof. intros H. apply Qpower_lt_compat_l; [exact H | reflexivity]. Qed.





Lemma unscale x e : (x / 2 ^ e * 2 ^ e == x)%Q.
Proof.
  unfold Qdiv. rewrite <- Qmult_assoc, (Qmult_comm (/ _)), Qmult_inv_r, Qmult_1_r.
  - reflexivity.
  - pose proof (two_pos e) as H. intros E. rewrite E in H. discriminate H.
Qed.
























End Binary64Facts.

(** [round] against the hardware: the same doubles on these quotients,
    products, sums and differences. *)
Example round_agrees_with_hardware :
  map (fun '(a, b) =>
         Binary64.ofPrim
           (PrimFloat.mul (PrimFloat.div (Binary64.hardware a) (Binary64.hardware b))
                          (Binary64.hardware 100)))
      [(1, 3); (57, 100); (2, 3); (1, 7); (59, 60); (1, 60); (599, 600); (659, 659);
       (1, 659); (123456789, 987654321); (1, 4294967296); (7, 11); (0, 5); (33, 100);
       (70368744177663, 70368744177664); (1, 70368744177664)]
  = map (fun '(a, b) =>
           Binary64.mul
             (Binary64.div (Binary64.Finite (inject_Z a)) (Binary64.Finite (inject_Z b)))
             (Binary64.Finite 100))
      [(1, 3); (57, 100); (2, 3); (1, 7); (59, 60); (1, 60); (599, 600); (659, 659);
       (1, 659); (123456789, 987654321); (1, 4294967296); (7, 11); (0, 5); (33, 100);
       (70368744177663, 70368744177664); (1, 70368744177664)]
  /\ map (fun '(a, b) =>
            Binary64.ofPrim
              (PrimFloat.sub
                 (PrimFloat.add
                    (PrimFloat.div (Binary64.hardware a) (Binary64.hardware b))
                    (Binary64.hardware 1))
                 (PrimFloat.div (Binary64.hardware b) (Binary64.hardware 7))))
       [(1, 3); (3, 2); (1, 10); (22, 7); (1, 1125899906842624)]
     = map (fun '(a, b) =>
              Binary64.sub
                (Binary64.add
                   (Binary64.div (Binary64.Finite (inject_Z a))
                                 (Binary64.Finite (inject_Z b)))
                   (Binary64.Finite 1))
                (Binary64.div (Binary64.Finite (inject_Z b)) (Binary64.Finite 7)))
       [(1, 3); (3, 2); (1, 10); (22, 7); (1, 1125899906842624)].
Proof. split; vm_compute; reflexivity. Qed.




(** On a selection of whole numbers the component on doubles does what
    the component on integers does: three seconds, counted down. *)
Example loaded_counts_whole_seconds :
  let s := Loaded.clickStart (Loaded.initialState (Binary64.Finite 0) (Binary64.Finite 3)) in
  Loaded.timeLeft s = Some (Binary64.Finite 3) /\
  Loaded.ticking s = true /\
  Loaded.timeLeft (Loaded.secondsElapsed 2 s) = Some (Binary64.Finite 1) /\
  Loaded.timeLeft (Loaded.secondsElapsed 3 s) = Some (Binary64.Finite 0) /\
  Loaded.running (Loaded.secondsElapsed 3 s) = false /\
  Loaded.ticking (Loaded.secondsElapsed 3 s) = false /\
  Loaded.progress (Loaded.secondsElapsed 2 s)
  = progress64 (state (fst (secondsElapsed 2 (fst (step ClickStart (exampleTimer 0 3)))))).
Proof. vm_compute. repeat split; reflexivity. Qed.

(** On the record [{"minutes":0,"seconds":1.5}] the run never completes:
    the remaining time passes from 0.5 to -0.5, the interval is cleared
    and not created again, and the component stays armed. *)
Example fraction_run_never_completes :
  Loaded.load (storeWith fractionRecord)
  = Some (Loaded.initialState (Binary64.Finite 0) (Binary64.Finite (3 # 2))) /\
  let s := Loaded.clickStart
             (Loaded.initialState (Binary64.Finite 0) (Binary64.Finite (3 # 2))) in
  Loaded.timeLeft (Loaded.secondsElapsed 1 s) = Some (Binary64.Finite (1 # 2)) /\
  Loaded.timeLeft (Loaded.secondsElapsed 2 s) = Some (Binary64.Finite (-1 # 2)) /\
  Loaded.running (Loaded.secondsElapsed 2 s) = true /\
  Loaded.ticking (Loaded.secondsElapsed 2 s) = false /\
  Loaded.secondsElapsed 5 s = Loaded.secondsElapsed 2 s.
Proof. vm_compute. repeat split; reflexivity. Qed.
